(** * ESET-VM2 assembler ([res/compiler.py]): a shallow embedding

    The development follows the source file top-down: the interpreter
    primitives the program relies on ([str.split], [int], [str.format],
    [struct.pack], the two register regular expressions), then [Assembler],
    [Lexer], [Parser] and [main], and finally the properties of the
    emitted image.

    Conventions.
    - A Python [str] is a [string]; a character is an [ascii], read as the
      code point of the same number.  A Python [int] is a [Z]; a length, a
      list index or a bit position is a [nat].
    - The interpreter is CPython 3 (underscore digit separators in [int],
      insertion-ordered [dict]) on a little-endian host, so that the native
      [struct] format ["I"] is four bytes, least significant first.
    - An exception that nothing catches ends the run with a traceback; it is
      kept as [Uncaught e]. *)

From Stdlib Require Import ZArith List String Ascii Bool Lia Arith DecimalString.
From Stdlib Require Import Sorted.
Import ListNotations.

#[local] Open Scope string_scope.
#[local] Open Scope Z_scope.

(** ** Exceptions and results *)

Inductive exn : Type :=
| ParserError (msg : string)      (* Parser.Error *)
| AssemblerError (msg : string)   (* Assembler.Error *)
| IndexError
| KeyError
| ValueError
| TypeError
| NotImplementedError (msg : string)
| StructError.                    (* struct.error *)

Inductive result (A : Type) : Type :=
| Ok (a : A)
| Raise (e : exn).

Arguments Ok {A} a.
Arguments Raise {A} e.

Definition bind {A B : Type} (r : result A) (k : A -> result B) : result B :=
  match r with
  | Ok a => k a
  | Raise e => Raise e
  end.

Notation "x <- r ;; k" := (bind r (fun x => k))
  (at level 61, r at next level, right associativity).

(** ** Interpreter primitives *)

Module Py.

(** [str.isspace] on the code points below 256. *)
Definition is_space (c : ascii) : bool :=
  let n := nat_of_ascii c in
  ((9 <=? n) && (n <=? 13) || (28 <=? n) && (n <=? 32)
   || (n =? 133) || (n =? 160))%nat.

Definition str_rev (s : string) : string :=
  string_of_list_ascii (rev (list_ascii_of_string s)).

Fixpoint lstrip (s : string) : string :=
  match s with
  | String c r => if is_space c then lstrip r else s
  | EmptyString => EmptyString
  end.

Definition rstrip (s : string) : string := str_rev (lstrip (str_rev s)).

Definition is_empty (s : string) : bool :=
  match s with EmptyString => true | _ => false end.

(** [s.split()]: the maximal runs of non-blank characters. *)
Fixpoint split_from (s : string) (cur : string) : list string :=
  match s with
  | EmptyString => if is_empty cur then [] else [cur]
  | String c r =>
      if is_space c
      then (if is_empty cur then split_from r "" else cur :: split_from r "")
      else split_from r (cur ++ String c "")
  end.

Definition split (s : string) : list string := split_from s "".

(** [s.split(sep, 2)[0]] for a one-character [sep]: what precedes its first
    occurrence. *)
Fixpoint before (sep : ascii) (s : string) : string :=
  match s with
  | EmptyString => EmptyString
  | String c r => if Ascii.eqb c sep then EmptyString else String c (before sep r)
  end.

(** [sep.join(l)] *)
Fixpoint join (sep : string) (l : list string) : string :=
  match l with
  | [] => ""
  | [x] => x
  | x :: r => x ++ sep ++ join sep r
  end.

Definition startswith (c : ascii) (s : string) : bool :=
  match s with
  | String d _ => Ascii.eqb c d
  | EmptyString => false
  end.

Definition endswith (c : ascii) (s : string) : bool := startswith c (str_rev s).

(** [s[:-1]] *)
Definition drop_last (s : string) : string :=
  string_of_list_ascii (removelast (list_ascii_of_string s)).

(** *** [int(s, base)] *)

Definition digit_value (c : ascii) : option Z :=
  let n := Z.of_nat (nat_of_ascii c) in
  if (48 <=? n) && (n <=? 57) then Some (n - 48)
  else if (97 <=? n) && (n <=? 122) then Some (n - 87)
  else if (65 <=? n) && (n <=? 90) then Some (n - 55)
  else None.

Definition is_digit_in (base : Z) (c : ascii) : bool :=
  match digit_value c with
  | Some d => d <? base
  | None => false
  end.

(** The digit loop of the integer parser: digits below [base] with single
    underscores between them; yields the value and the unread rest. *)
Fixpoint scan_digits (base : Z) (s : string) (prev_us : bool) (acc : Z)
  : option (Z * string) :=
  match s with
  | EmptyString => if prev_us then None else Some (acc, s)
  | String c r =>
      if Ascii.eqb c "_"
      then (if prev_us then None else scan_digits base r true acc)
      else
        match digit_value c with
        | Some d =>
            if d <? base then scan_digits base r false (acc * base + d)
            else if prev_us then None else Some (acc, s)
        | None => if prev_us then None else Some (acc, s)
        end
  end.

Definition prefix_letter (base : Z) (c : ascii) : bool :=
  ((base =? 16) && (Ascii.eqb c "x" || Ascii.eqb c "X"))
  || ((base =? 8) && (Ascii.eqb c "o" || Ascii.eqb c "O"))
  || ((base =? 2) && (Ascii.eqb c "b" || Ascii.eqb c "B")).

(** Base selection for [base = 0]; the flag says that the literal began with
    a bare [0] and must therefore denote zero. *)
Definition detect_base (base : Z) (s : string) : Z * bool :=
  if base =? 0 then
    match s with
    | String "0" (String c _) =>
        if Ascii.eqb c "x" || Ascii.eqb c "X" then (16, false)
        else if Ascii.eqb c "o" || Ascii.eqb c "O" then (8, false)
        else if Ascii.eqb c "b" || Ascii.eqb c "B" then (2, false)
        else (10, true)
    | String "0" EmptyString => (10, true)
    | _ => (10, false)
    end
  else (base, false).

Definition skip_prefix (base : Z) (s : string) : string :=
  match s with
  | String "0" (String c r) =>
      if prefix_letter base c
      then match r with String "_" r' => r' | _ => r end
      else s
  | _ => s
  end.

Definition all_space (s : string) : bool :=
  forallb is_space (list_ascii_of_string s).

(** The digits of a literal, the blanks and the sign in front of them
    removed. *)
Definition int_magnitude (base : Z) (s1 : string) : option Z :=
  let '(b, zero_only) := detect_base base s1 in
  let s2 := skip_prefix b s1 in
  match s2 with
  | String c _ =>
      if is_digit_in b c then
        match scan_digits b s2 false 0 with
        | Some (v, rest) =>
            if zero_only && negb (v =? 0) then None
            else if all_space rest then Some v
            else None
        | None => None
        end
      else None
  | EmptyString => None
  end.

(** [int(s, base)]; [None] stands for [ValueError]. *)
Definition int (base : Z) (s : string) : option Z :=
  let s0 := lstrip s in
  let '(neg, s1) :=
    match s0 with
    | String "+" r => (false, r)
    | String "-" r => (true, r)
    | _ => (false, s0)
    end in
  match int_magnitude base s1 with
  | Some v => Some (if neg then - v else v)
  | None => None
  end.

(** *** ["{0:0Wb}".format(n)] and ["%d" % n] *)

(** Binary digits of a positive number, least significant first. *)
Fixpoint pos_bits (p : positive) : list ascii :=
  match p with
  | xH => ["1"%char]
  | xO q => "0"%char :: pos_bits q
  | xI q => "1"%char :: pos_bits q
  end.

(** Most significant first, as [format(n, "b")] prints a magnitude. *)
Definition bin_digits (n : Z) : list ascii :=
  match n with
  | Z0 => ["0"%char]
  | Zpos p => rev (pos_bits p)
  | Zneg p => rev (pos_bits p)
  end.

Definition zfill (width : nat) (l : list ascii) : list ascii :=
  repeat "0"%char (width - List.length l) ++ l.

(** Sign-aware zero padding: the sign, when there is one, counts in the
    width and stays in front of the padding. *)
Definition format_b (width : nat) (n : Z) : string :=
  string_of_list_ascii
    (match n with
     | Zneg _ => "-"%char :: zfill (width - 1) (bin_digits n)
     | _ => zfill width (bin_digits n)
     end).

Definition format_d (n : Z) : string := NilZero.string_of_int (Z.to_int n).

(** *** [struct.pack] *)

(** [struct.pack("I", n)] *)
Definition pack_I (n : Z) : option (list Z) :=
  if (0 <=? n) && (n <? 2 ^ 32)
  then Some [n mod 256; (n / 256) mod 256; (n / 65536) mod 256; (n / 16777216) mod 256]
  else None.

(** [struct.pack("B", n)] *)
Definition pack_B (n : Z) : option (list Z) :=
  if (0 <=? n) && (n <=? 255) then Some [n] else None.

(** *** Insertion-ordered dictionaries with string or integer keys *)

Section Dict.
Context {K V : Type} (eqb : K -> K -> bool).

Fixpoint dict_get (d : list (K * V)) (k : K) : option V :=
  match d with
  | [] => None
  | (k', v) :: r => if eqb k k' then Some v else dict_get r k
  end.

(** [d[k] = v]: an existing key keeps its place. *)
Fixpoint dict_set (d : list (K * V)) (k : K) (v : V) : list (K * V) :=
  match d with
  | [] => [(k, v)]
  | (k', v') :: r =>
      if eqb k k' then (k', v) :: r else (k', v') :: dict_set r k v
  end.

Definition dict_mem (d : list (K * V)) (k : K) : bool :=
  match dict_get d k with Some _ => true | None => false end.
End Dict.

(** [l[i] = x]; [None] stands for [IndexError]. *)
Fixpoint list_set {A : Type} (l : list A) (i : nat) (x : A) : option (list A) :=
  match l, i with
  | [], _ => None
  | _ :: r, O => Some (x :: r)
  | y :: r, S j =>
      match list_set r j x with
      | Some r' => Some (y :: r')
      | None => None
      end
  end.

(** *** The regular expressions of the parser *)

(** [re.split(r"\s*,\s*", s)]: cut at every comma; blanks next to a comma
    belong to the separator. *)
Fixpoint split_commas (s : string) (cur : string) : list string :=
  match s with
  | EmptyString => [cur]
  | String c r =>
      if Ascii.eqb c ","
      then cur :: split_commas r ""
      else split_commas r (cur ++ String c "")
  end.

Fixpoint trim_pieces (first : bool) (l : list string) : list string :=
  match l with
  | [] => []
  | [x] => [if first then x else lstrip x]
  | x :: r => rstrip (if first then x else lstrip x) :: trim_pieces false r
  end.

Definition re_split_commas (s : string) : list string :=
  trim_pieces true (split_commas s "").

Definition is_dec_digit (c : ascii) : bool :=
  let n := nat_of_ascii c in ((48 <=? n) && (n <=? 57))%nat.

(** The longest run of [[0-9]] in front of [s], and what follows it. *)
Fixpoint span_digits (s : string) : string * string :=
  match s with
  | String c r =>
      if is_dec_digit c
      then let '(d, t) := span_digits r in (String c d, t)
      else (EmptyString, s)
  | EmptyString => (EmptyString, EmptyString)
  end.

Fixpoint strip_prefix (p s : string) : option string :=
  match p, s with
  | EmptyString, _ => Some s
  | String a p', String b s' => if Ascii.eqb a b then strip_prefix p' s' else None
  | String _ _, EmptyString => None
  end.

(** [re.match(r"r(?P<id>[0-9]+)", s)]: the text of group [id]. *)
Definition match_register_val (s : string) : option string :=
  match s with
  | String c r =>
      if Ascii.eqb c "r" then
        let '(d, _) := span_digits r in
        if is_empty d then None else Some d
      else None
  | EmptyString => None
  end.

(** What must follow the width keyword: [\s*\[\s*r(?P<id>[0-9]+)\s*\]]. *)
Definition match_bracketed (s : string) : option string :=
  match lstrip s with
  | String c1 s1 =>
      if Ascii.eqb c1 "[" then
        match lstrip s1 with
        | String c2 s2 =>
            if Ascii.eqb c2 "r" then
              let '(d, s3) := span_digits s2 in
              if is_empty d then None
              else match lstrip s3 with
                   | String c3 _ => if Ascii.eqb c3 "]" then Some d else None
                   | EmptyString => None
                   end
            else None
        | EmptyString => None
        end
      else None
  | EmptyString => None
  end.

(** [re.match] of the reference pattern, whose alternation lists [keys] in
    order: the texts of the groups [ref] and [id]. *)
Fixpoint match_register_ref (keys : list string) (s : string)
  : option (string * string) :=
  match keys with
  | [] => None
  | k :: ks =>
      match strip_prefix k s with
      | Some r =>
          match match_bracketed r with
          | Some d => Some (k, d)
          | None => match_register_ref ks s
          end
      | None => match_register_ref ks s
      end
  end.

End Py.

(** ** The parsed program

    [Parser] owns this state and [Assembler] reads it (and widens
    [data_size]); it is declared first because both classes use it. *)

(** An argument as [Parser.__parse_code] stores it: the pair
    [[register_id, reference_type]] for kind [R], the text itself for the
    kinds [C] and [L]. *)
Inductive argument : Type :=
| RegArg (register_id : Z) (reference_type : option string)
| StrArg (text : string).

(** [[opcode_name, argument, ...]] *)
Record instruction : Type := {
  opcode_name : string;
  arguments : list argument
}.

Inductive ParseMode : Type := Data | Code.

Record parser : Type := {
  parse_mode : option ParseMode;
  data_size : option Z;
  data_labels : list (string * nat);
  data_section : list Z;
  code_labels : list (string * nat);
  code_section : list instruction;
  last_parsed_line : string;
  last_parsed_line_no : Z
}.

(** ** class Assembler *)

Module Assembler.

Record Opcode : Type := { code : string; args : string }.

Definition Opcodes : list (string * Opcode) :=
  [ ("mov",          {| code := "000";    args := "RR" |});
    ("loadConst",    {| code := "001";    args := "CR" |});
    ("add",          {| code := "010001"; args := "RRR" |});
    ("sub",          {| code := "010010"; args := "RRR" |});
    ("div",          {| code := "010011"; args := "RRR" |});
    ("mod",          {| code := "010100"; args := "RRR" |});
    ("mul",          {| code := "010101"; args := "RRR" |});
    ("compare",      {| code := "01100";  args := "RRR" |});
    ("jump",         {| code := "01101";  args := "L" |});
    ("jumpEqual",    {| code := "01110";  args := "LRR" |});
    ("read",         {| code := "10000";  args := "RRRR" |});
    ("write",        {| code := "10001";  args := "RRR" |});
    ("consoleRead",  {| code := "10010";  args := "R" |});
    ("consoleWrite", {| code := "10011";  args := "R" |});
    ("createThread", {| code := "10100";  args := "LR" |});
    ("joinThread",   {| code := "10101";  args := "R" |});
    ("hlt",          {| code := "10110";  args := "" |});
    ("sleep",        {| code := "10111";  args := "R" |});
    ("call",         {| code := "1100";   args := "L" |});
    ("ret",          {| code := "1101";   args := "" |});
    ("lock",         {| code := "1110";   args := "R" |});
    ("unlock",       {| code := "1111";   args := "R" |}) ].

Definition DataAccessTypes : list (string * string) :=
  [ ("byte", "00"); ("word", "01"); ("dword", "10"); ("qword", "11") ].

(** The private fields [__bytecode], [__offsets_list], [__offset_patches]. *)
Record state : Type := {
  bytecode : list ascii;
  offsets_list : list nat;
  offset_patches : list (nat * nat)
}.

Definition append_bits (a : state) (bits : string) : state :=
  {| bytecode := bytecode a ++ list_ascii_of_string bits;
     offsets_list := offsets_list a;
     offset_patches := offset_patches a |}.

Definition assemble_register (a : state) (argument_data : argument)
  : result state :=
  match argument_data with
  | RegArg register_id reference_type =>
      match reference_type with
      | Some (String _ _ as ref) =>
          match Py.dict_get String.eqb DataAccessTypes ref with
          | Some width =>
              Ok (append_bits a
                    ("1" ++ Py.str_rev width
                         ++ Py.str_rev (Py.format_b 4 register_id)))
          | None => Raise KeyError
          end
      | _ => Ok (append_bits a ("0" ++ Py.str_rev (Py.format_b 4 register_id)))
      end
  | StrArg _ => Raise ValueError   (* unpacking; the parser stores pairs here *)
  end.

Definition assemble_constant (a : state) (argument_data : argument)
  : result state :=
  match argument_data with
  | StrArg text =>
      match Py.int 0 text with
      | Some v => Ok (append_bits a (Py.str_rev (Py.format_b 64 v)))
      | None => Raise ValueError
      end
  | RegArg _ _ => Raise TypeError  (* int() of a list; the parser stores text here *)
  end.

Definition assemble_label (p : parser) (a : state) (argument_data : argument)
  : result state :=
  match argument_data with
  | StrArg text =>
      match Py.dict_get String.eqb (code_labels p) text with
      | None => Raise (AssemblerError ("Undefined code label " ++ text))
      | Some offset =>
          if (offset <? List.length (offsets_list a))%nat then
            let address := nth offset (offsets_list a) O in
            Ok (append_bits a (Py.str_rev (Py.format_b 32 (Z.of_nat address))))
          else
            let a' := {| bytecode := bytecode a;
                         offsets_list := offsets_list a;
                         offset_patches :=
                           Py.dict_set Nat.eqb (offset_patches a)
                                       (List.length (bytecode a)) offset |} in
            Ok (append_bits a' (Py.str_rev (Py.format_b 32 0)))
      end
  | RegArg _ _ => Raise TypeError  (* unhashable key; the parser stores text here *)
  end.

(** The inner loop of [build] over [zip(opcode.args, instruction[1:])]; a
    kind other than [R], [C], [L] falls through all three tests. *)
Fixpoint assemble_arguments (p : parser) (a : state)
         (kinds : list ascii) (data : list argument) : result state :=
  match kinds, data with
  | argument_type :: kinds', argument_data :: data' =>
      a' <- (if Ascii.eqb argument_type "R" then assemble_register a argument_data
             else if Ascii.eqb argument_type "C" then assemble_constant a argument_data
             else if Ascii.eqb argument_type "L" then assemble_label p a argument_data
             else Ok a) ;;
      assemble_arguments p a' kinds' data'
  | _, _ => Ok a
  end.

(** One turn of the outer loop of [build]. *)
Definition assemble_instruction (p : parser) (a : state) (ins : instruction)
  : result state :=
  let a1 := {| bytecode := bytecode a;
               offsets_list := offsets_list a ++ [List.length (bytecode a)];
               offset_patches := offset_patches a |} in
  match Py.dict_get String.eqb Opcodes (opcode_name ins) with
  | None => Raise KeyError
  | Some opcode =>
      assemble_arguments p (append_bits a1 (code opcode))
                         (list_ascii_of_string (args opcode)) (arguments ins)
  end.

Fixpoint assemble_section (p : parser) (a : state) (l : list instruction)
  : result state :=
  match l with
  | [] => Ok a
  | ins :: l' =>
      a' <- assemble_instruction p a ins ;;
      assemble_section p a' l'
  end.

(** [for i, bit in enumerate(patched): bytecode[position + i] = bit] *)
Fixpoint write_bits (bc : list ascii) (position : nat) (patched : list ascii)
  : option (list ascii) :=
  match patched with
  | [] => Some bc
  | bit :: rest =>
      match Py.list_set bc position bit with
      | Some bc' => write_bits bc' (S position) rest
      | None => None
      end
  end.

Fixpoint patch_all (offsets : list nat) (patches : list (nat * nat))
         (bc : list ascii) : result (list ascii) :=
  match patches with
  | [] => Ok bc
  | (position, offset) :: rest =>
      match nth_error offsets offset with
      | None => Raise IndexError
      | Some address =>
          let patched :=
            list_ascii_of_string (Py.str_rev (Py.format_b 32 (Z.of_nat address))) in
          match write_bits bc position patched with
          | Some bc' => patch_all offsets rest bc'
          | None => Raise IndexError
          end
      end
  end.

Definition apply_patches (a : state) : result state :=
  bc <- patch_all (offsets_list a) (offset_patches a) (bytecode a) ;;
  Ok {| bytecode := bc;
        offsets_list := offsets_list a;
        offset_patches := offset_patches a |}.

Definition initial : state :=
  {| bytecode := []; offsets_list := []; offset_patches := [] |}.

(** The first part of [build]: both passes over the code section. *)
Definition assemble (p : parser) : result state :=
  a <- assemble_section p initial (code_section p) ;;
  apply_patches a.

(** What the rest of the run can observe of [build]: the exception that left
    it (if any), the lines printed, and the output file, [None] as long as
    the path was not opened, else the bytes written to it. *)
Record outcome : Type := {
  raised : option exn;
  printed : list string;
  file : option (list Z)
}.

(** [range(0, n, 8)] *)
Definition range8 (n : nat) : list nat :=
  map (fun k => 8 * k)%nat (seq 0 ((n + 7) / 8)).

(** [int("".join(bytecode[i:i + 8]), 2)] *)
Definition chunk_value (bc : list ascii) (i : nat) : option Z :=
  Py.int 2 (string_of_list_ascii (firstn 8 (skipn i bc))).

(** The loop writing the code bytes; yields the file and what stopped it. *)
Fixpoint write_code (bc : list ascii) (indices : list nat) (out : list Z)
  : list Z * option exn :=
  match indices with
  | [] => (out, None)
  | i :: rest =>
      match chunk_value bc i with
      | None => (out, Some ValueError)
      | Some byte =>
          match Py.pack_B byte with
          | None => (out, Some StructError)
          | Some b => write_code bc rest (out ++ b)%list
          end
      end
  end.

(** The loop writing the data bytes. *)
Fixpoint write_data (data : list Z) (out : list Z) : list Z * option exn :=
  match data with
  | [] => (out, None)
  | data_byte :: rest =>
      match Py.pack_B data_byte with
      | None => (out, Some StructError)
      | Some b => write_data rest (out ++ b)%list
      end
  end.

Definition magic : list Z := [69; 83; 69; 84; 45; 86; 77; 50].  (* b"ESET-VM2" *)

(** [if len(bytecode) % 8 != 0: bytecode += ["0"] * (8 - len(bytecode) % 8)] *)
Definition pad (bc : list ascii) : list ascii :=
  if (List.length bc mod 8 =? 0)%nat then bc
  else bc ++ repeat "0"%char (8 - List.length bc mod 8).

(** The [with open(filepath, "wb")] block. *)
Definition write_file (bc : list ascii) (size : Z) (data : list Z)
  : list Z * option exn :=
  let out := magic in
  match Py.pack_I (Z.of_nat (List.length bc / 8)) with
  | None => (out, Some StructError)
  | Some b1 =>
      let out := (out ++ b1)%list in
      match Py.pack_I size with
      | None => (out, Some StructError)
      | Some b2 =>
          let out := (out ++ b2)%list in
          match Py.pack_I (Z.of_nat (List.length data)) with
          | None => (out, Some StructError)
          | Some b3 =>
              let out := (out ++ b3)%list in
              match write_code bc (range8 (List.length bc)) out with
              | (out, Some e) => (out, Some e)
              | (out, None) => write_data data out
              end
          end
      end
  end.

(** [build]: the parser comes back with [data_size] possibly widened. *)
Definition build (p : parser) : parser * outcome :=
  match assemble p with
  | Raise e => (p, {| raised := Some e; printed := []; file := None |})
  | Ok a =>
      let actual_data_size := Z.of_nat (List.length (data_section p)) in
      match data_size p with
      | None =>
          (* [actual_data_size > None]: int and NoneType do not compare *)
          (p, {| raised := Some TypeError; printed := []; file := None |})
      | Some declared =>
          let widen := actual_data_size >? declared in
          let size := if widen then actual_data_size else declared in
          let out :=
            if widen
            then ["Warning: bad .dataSize, was " ++ Py.format_d declared
                    ++ " but used " ++ Py.format_d actual_data_size
                    ++ ", expanding"]
            else [] in
          let p' := {| parse_mode := parse_mode p;
                       data_size := Some size;
                       data_labels := data_labels p;
                       data_section := data_section p;
                       code_labels := code_labels p;
                       code_section := code_section p;
                       last_parsed_line := last_parsed_line p;
                       last_parsed_line_no := last_parsed_line_no p |} in
          let '(bytes, e) := write_file (pad (bytecode a)) size (data_section p) in
          (p', {| raised := e; printed := out; file := Some bytes |})
      end
  end.

End Assembler.

(** ** class Lexer *)

Module Lexer.

(** One item of the generator: [(line_no + 1, line, tokens)]. *)
Definition item : Type := (Z * string * list string)%type.

(** The loop of [analyse] over the lines of the input file, [line_no] being
    the value [itertools.count()] has reached. *)
Fixpoint analyse_from (line_no : Z) (lines : list string) : list item :=
  match lines with
  | [] => []
  | line :: rest =>
      let tokens := Py.split (Py.before "#" line) in
      match tokens with
      | [] => analyse_from (line_no + 1) rest
      | _ => (line_no + 1, line, tokens) :: analyse_from (line_no + 1) rest
      end
  end.

Definition analyse (lines : list string) : list item := analyse_from 0 lines.

End Lexer.

(** ** class Parser *)

Module Parser.

(** A method either returns, leaving the parser in a new state, or raises,
    leaving it in the state reached so far. *)
Definition step : Type := (parser * option exn)%type.

Definition returns (p : parser) : step := (p, None).
Definition raises (p : parser) (e : exn) : step := (p, Some e).

Definition init : parser :=
  {| parse_mode := None; data_size := None;
     data_labels := []; data_section := [];
     code_labels := []; code_section := [];
     last_parsed_line := ""; last_parsed_line_no := -1 |}.

Definition set_parse_mode (p : parser) (m : ParseMode) : parser :=
  {| parse_mode := Some m; data_size := data_size p;
     data_labels := data_labels p; data_section := data_section p;
     code_labels := code_labels p; code_section := code_section p;
     last_parsed_line := last_parsed_line p;
     last_parsed_line_no := last_parsed_line_no p |}.

Definition set_data_size (p : parser) (n : Z) : parser :=
  {| parse_mode := parse_mode p; data_size := Some n;
     data_labels := data_labels p; data_section := data_section p;
     code_labels := code_labels p; code_section := code_section p;
     last_parsed_line := last_parsed_line p;
     last_parsed_line_no := last_parsed_line_no p |}.

Definition set_data_labels (p : parser) (d : list (string * nat)) : parser :=
  {| parse_mode := parse_mode p; data_size := data_size p;
     data_labels := d; data_section := data_section p;
     code_labels := code_labels p; code_section := code_section p;
     last_parsed_line := last_parsed_line p;
     last_parsed_line_no := last_parsed_line_no p |}.

Definition set_code_labels (p : parser) (d : list (string * nat)) : parser :=
  {| parse_mode := parse_mode p; data_size := data_size p;
     data_labels := data_labels p; data_section := data_section p;
     code_labels := d; code_section := code_section p;
     last_parsed_line := last_parsed_line p;
     last_parsed_line_no := last_parsed_line_no p |}.

Definition set_data_section (p : parser) (l : list Z) : parser :=
  {| parse_mode := parse_mode p; data_size := data_size p;
     data_labels := data_labels p; data_section := l;
     code_labels := code_labels p; code_section := code_section p;
     last_parsed_line := last_parsed_line p;
     last_parsed_line_no := last_parsed_line_no p |}.

Definition set_code_section (p : parser) (l : list instruction) : parser :=
  {| parse_mode := parse_mode p; data_size := data_size p;
     data_labels := data_labels p; data_section := data_section p;
     code_labels := code_labels p; code_section := l;
     last_parsed_line := last_parsed_line p;
     last_parsed_line_no := last_parsed_line_no p |}.

Definition set_last_parsed (p : parser) (line_no : Z) (line : string) : parser :=
  {| parse_mode := parse_mode p; data_size := data_size p;
     data_labels := data_labels p; data_section := data_section p;
     code_labels := code_labels p; code_section := code_section p;
     last_parsed_line := line;
     last_parsed_line_no := line_no |}.

Definition parse_section (p : parser) (tokens : list string) : step :=
  match tokens with
  | [] => raises p IndexError
  | t0 :: rest =>
      if String.eqb t0 ".dataSize" then
        match data_size p with
        | Some _ => raises p (ParserError "Double data size spotted")
        | None =>
            match rest with
            | [] => raises p IndexError               (* tokens[1] *)
            | t1 :: _ =>
                match Py.int 10 t1 with
                | Some n => returns (set_data_size p n)
                | None => raises p ValueError
                end
            end
        end
      else if String.eqb t0 ".code" then returns (set_parse_mode p Code)
      else if String.eqb t0 ".data" then returns (set_parse_mode p Data)
      else raises p (ParserError "Bad token")
  end.

Definition parse_label (p : parser) (tokens : list string) : step :=
  match tokens with
  | [] => raises p IndexError
  | t0 :: _ =>
      let label := Py.drop_last t0 in
      match parse_mode p with
      | Some Code =>
          if Py.dict_mem String.eqb (code_labels p) label
          then raises p (ParserError "Duplicated label")
          else returns (set_code_labels p
                         (Py.dict_set String.eqb (code_labels p) label
                                      (List.length (code_section p))))
      | Some Data =>
          if Py.dict_mem String.eqb (data_labels p) label
          then raises p (ParserError "Duplicated label")
          else returns (set_data_labels p
                         (Py.dict_set String.eqb (data_labels p) label
                                      (List.length (data_section p))))
      | None => raises p (ParserError "Bad label")
      end
  end.

Definition translate_argument_tokens (tokens : list string) : list string :=
  match tokens with
  | [] => []
  | _ => Py.re_split_commas (Py.join " " tokens)
  end.

(** The two patterns tried in turn; the second component is
    [groups.get("ref")]. *)
Definition match_register (argument_data : string)
  : option (string * option string) :=
  match Py.match_register_val argument_data with
  | Some id => Some (id, None)
  | None =>
      match Py.match_register_ref (map fst Assembler.DataAccessTypes)
                                  argument_data with
      | Some (ref, id) => Some (id, Some ref)
      | None => None
      end
  end.

(** The body of the argument loop of [__parse_code]. *)
Definition parse_argument (argument_type : ascii) (argument_data : string)
  : result argument :=
  if Ascii.eqb argument_type "R" then
    match match_register argument_data with
    | None =>
        Raise (ParserError ("Bad register argument type [" ++ argument_data ++ "]"))
    | Some (id, ref) =>
        match Py.int 10 id with
        | None => Raise ValueError
        | Some register_id =>
            if register_id >? 16
            then Raise (ParserError "Bad register argument type (too big)")
            else Ok (RegArg register_id ref)
        end
    end
  else if Ascii.eqb argument_type "C" then Ok (StrArg argument_data)
  else if Ascii.eqb argument_type "L" then Ok (StrArg argument_data)
  else Raise (NotImplementedError "Bad argument type").

Fixpoint parse_arguments (kinds : list ascii) (data : list string)
  : result (list argument) :=
  match kinds, data with
  | argument_type :: kinds', argument_data :: data' =>
      a <- parse_argument argument_type argument_data ;;
      r <- parse_arguments kinds' data' ;;
      Ok (a :: r)
  | _, _ => Ok []
  end.

Definition parse_code (p : parser) (tokens : list string) : step :=
  match tokens with
  | [] => raises p IndexError
  | opcode_name :: rest =>
      match Py.dict_get String.eqb Assembler.Opcodes opcode_name with
      | None => raises p (ParserError ("Bad opcode [" ++ opcode_name ++ "]"))
      | Some opcode =>
          let argument_data := translate_argument_tokens rest in
          if negb (List.length argument_data
                   =? String.length (Assembler.args opcode))%nat
          then raises p (ParserError "Bad opcode argument count")
          else
            match parse_arguments (list_ascii_of_string (Assembler.args opcode))
                                  argument_data with
            | Raise e => raises p e
            | Ok l =>
                returns (set_code_section p
                           (code_section p
                              ++ [{| opcode_name := opcode_name;
                                     arguments := l |}])%list)
            end
      end
  end.

Fixpoint parse_data (p : parser) (tokens : list string) : step :=
  match tokens with
  | [] => returns p
  | entry :: rest =>
      match Py.int 16 entry with
      | None => raises p ValueError
      | Some value =>
          if value >? 255 then raises p (ParserError "Bad value in line")
          else parse_data (set_data_section p (data_section p ++ [value])%list) rest
      end
  end.

(** The body of the loop of [analyse]. *)
Definition parse_line (p : parser) (tokens : list string) : step :=
  match tokens with
  | [] => raises p IndexError
  | t0 :: _ =>
      if Py.startswith "." t0 then parse_section p tokens
      else if (List.length tokens =? 1)%nat && Py.endswith ":" t0
      then parse_label p tokens
      else
        match parse_mode p with
        | Some Code => parse_code p tokens
        | Some Data => parse_data p tokens
        | None => raises p (ParserError "Bad token")
        end
  end.

Fixpoint analyse_loop (p : parser) (items : list Lexer.item) : step :=
  match items with
  | [] => returns p
  | (line_no, line, tokens) :: rest =>
      match parse_line (set_last_parsed p line_no line) tokens with
      | (p', None) => analyse_loop p' rest
      | (p', Some e) => raises p' e
      end
  end.

(** [analyse] on a parser just constructed. *)
Definition analyse (items : list Lexer.item) : step := analyse_loop init items.

End Parser.

(** ** The driver *)

Inductive status : Type :=
| Exit (n : Z)            (* normal end, or [sys.exit(n)] *)
| Uncaught (e : exn).     (* traceback *)

Record run : Type := {
  exit : status;
  stdout : list string;
  output : option (list Z)   (* the output file, [None] if never opened *)
}.

(** The text of an input file, as text mode hands it over (every line end
    already turned into a line feed), cut into the lines its iteration
    yields, here without their terminators. *)
Fixpoint lines_from (s : string) (cur : string) : list string :=
  match s with
  | EmptyString => if Py.is_empty cur then [] else [cur]
  | String c r =>
      if Ascii.eqb c "010" then cur :: lines_from r ""
      else lines_from r (cur ++ String c "")
  end.

Definition readlines (s : string) : list string := lines_from s "".

(** [main(input_filepath, output_filepath)], given the text found at
    [input_filepath]. *)
Definition main (input : string) : run :=
  match Parser.analyse (Lexer.analyse (readlines input)) with
  | (p, Some (ParserError msg)) =>
      {| exit := Exit 2;
         stdout := ["Parser error on line "
                      ++ Py.format_d (last_parsed_line_no p) ++ ": " ++ msg];
         output := None |}
  | (_, Some e) => {| exit := Uncaught e; stdout := []; output := None |}
  | (p, None) =>
      let '(_, o) := Assembler.build p in
      match Assembler.raised o with
      | Some (AssemblerError msg) =>
          {| exit := Exit 3;
             stdout := (Assembler.printed o ++ [("Assembler error: " ++ msg)%string])%list;
             output := Assembler.file o |}
      | Some e =>
          {| exit := Uncaught e;
             stdout := Assembler.printed o;
             output := Assembler.file o |}
      | None =>
          {| exit := Exit 0;
             stdout := (Assembler.printed o ++ ["All ok"])%list;
             output := Assembler.file o |}
      end
  end.

(** A source text given line by line, each line ended by a line feed. *)
Definition source (lines : list string) : string :=
  String.concat "" (map (fun l => l ++ String "010" "") lines).

(** Exit status of the process. *)
Definition exit_code (s : status) : Z :=
  match s with
  | Exit n => n
  | Uncaught _ => 1
  end.

(** ** Vocabulary of the properties *)

(** A symbol of the bit buffer read as a bit: only ["1"] counts. *)
Definition bit_of (c : ascii) : Z := if Ascii.eqb c "1" then 1 else 0.

Definition is_bit (c : ascii) : Prop := c = "0"%char \/ c = "1"%char.

(** The number a field denotes when its first symbol is the least
    significant bit. *)
Fixpoint lsb_value (l : list ascii) : Z :=
  match l with
  | [] => 0
  | c :: r => bit_of c + 2 * lsb_value r
  end.

(** The number a group of symbols denotes when its first symbol is the most
    significant bit. *)
Definition msb_value (l : list ascii) : Z :=
  fold_left (fun acc c => 2 * acc + bit_of c) l 0.

(** [l[pos : pos + n]] *)
Definition slice {A : Type} (l : list A) (pos n : nat) : list A :=
  firstn n (skipn pos l).

(** The symbols ["{0:0Wb}".format(n)[::-1]] appends to the buffer. *)
Definition encode_lsb (width : nat) (n : Z) : list ascii :=
  list_ascii_of_string (Py.str_rev (Py.format_b width n)).

(** Four bytes read as an unsigned integer, least significant byte first. *)
Definition le32 (l : list Z) : Z :=
  nth 0 l 0 + 256 * nth 1 l 0 + 65536 * nth 2 l 0 + 16777216 * nth 3 l 0.

(** The four bytes of an unsigned 32-bit integer, least significant first. *)
Definition le32_bytes (n : Z) : list Z :=
  [n mod 256; (n / 256) mod 256; (n / 65536) mod 256; (n / 16777216) mod 256].

(** The symbols the emitter can put into the buffer: the two binary digits
    and the sign of a formatted negative number. *)
Definition is_symbol (c : ascii) : Prop :=
  c = "0"%char \/ c = "1"%char \/ c = "-"%char.

(** The characters of the class [[0-9]]. *)
Definition dec_digits : list ascii :=
  ["0"; "1"; "2"; "3"; "4"; "5"; "6"; "7"; "8"; "9"]%char.

(** Where the spec's words differ from the code they are kept apart, under
    names of their own. *)

(** Spec, section 4.3: a constant is emitted as a 64-bit integer with
    two's-complement wrap for negatives, least significant bit first. *)
Definition spec_constant_bits (v : Z) : list ascii :=
  map (fun i => if Z.testbit (v mod 2 ^ 64) (Z.of_nat i) then "1"%char else "0"%char)
      (seq 0 64).

(** Spec, section 4.3: a label address is the bit offset of the target
    instruction divided by 8. *)
Definition spec_label_address (bit_offset : nat) : Z := Z.of_nat bit_offset / 8.

(** *** Label operands and the two passes *)

(** The label operand of an instruction whose first argument is of kind
    [L]: the width of the opcode in front of it, and the instruction index
    its label stands for in [code_labels]. *)
Definition label_site (p : parser) (ins : instruction) : option (nat * nat) :=
  match Py.dict_get String.eqb Assembler.Opcodes (opcode_name ins) with
  | Some opcode =>
      match list_ascii_of_string (Assembler.args opcode), arguments ins with
      | kind :: _, StrArg label :: _ =>
          if Ascii.eqb kind "L" then
            match Py.dict_get String.eqb (code_labels p) label with
            | Some j => Some (String.length (Assembler.code opcode), j)
            | None => None
            end
          else None
      | _, _ => None
      end
  | None => None
  end.

(** Two 32-symbol fields that do not overlap. *)
Definition apart (q s : nat) : Prop := (q + 32 <= s \/ s + 32 <= q)%nat.

(** [a'] is [a] after some more arguments were assembled: the buffer grew at
    its end, pending patches were kept, and new ones lie in the new part. *)
Definition extends (a a' : Assembler.state) : Prop :=
  (exists more, Assembler.bytecode a' = (Assembler.bytecode a ++ more)%list)
  /\ Assembler.offsets_list a' = Assembler.offsets_list a
  /\ (forall q j, In (q, j) (Assembler.offset_patches a) ->
                  In (q, j) (Assembler.offset_patches a'))
  /\ (forall q j, In (q, j) (Assembler.offset_patches a') ->
                  In (q, j) (Assembler.offset_patches a)
                  \/ (List.length (Assembler.bytecode a) <= q)%nat).

Definition patches_inside (a : Assembler.state) : Prop :=
  forall q j, In (q, j) (Assembler.offset_patches a) ->
              (q + 32 <= List.length (Assembler.bytecode a))%nat.

Definition offsets_inside (a : Assembler.state) : Prop :=
  forall o, In o (Assembler.offsets_list a) ->
            (o <= List.length (Assembler.bytecode a))%nat.

(** The label operand of instruction [i], [off] symbols into it and naming
    instruction [j], is in order: either it already holds the offset of [j],
    or the patch for it is pending; no other patch touches it. *)
Definition site_ok (a : Assembler.state) (i off j : nat) : Prop :=
  exists base,
    nth_error (Assembler.offsets_list a) i = Some base
    /\ (base + off + 32 <= List.length (Assembler.bytecode a))%nat
    /\ (((j <= i)%nat
         /\ (exists t, nth_error (Assembler.offsets_list a) j = Some t
                       /\ slice (Assembler.bytecode a) (base + off) 32
                          = firstn 32 (encode_lsb 32 (Z.of_nat t)))
         /\ forall q j', In (q, j') (Assembler.offset_patches a) ->
                         apart q (base + off))
        \/ ((i < j)%nat
            /\ In ((base + off)%nat, j) (Assembler.offset_patches a)
            /\ forall q j', In (q, j') (Assembler.offset_patches a) ->
                            (q = (base + off)%nat /\ j' = j) \/ apart q (base + off))).

(** What holds between two turns of the outer loop of [build], [pre] being
    the instructions assembled so far. *)
Definition first_pass_invariant (p : parser) (pre : list instruction)
           (a : Assembler.state) : Prop :=
  List.length (Assembler.offsets_list a) = List.length pre
  /\ patches_inside a
  /\ offsets_inside a
  /\ forall i ins off j,
       nth_error pre i = Some ins ->
       label_site p ins = Some (off, j) ->
       site_ok a i off j.

(** *** Lines the parser must refuse *)

(** [offending p tokens]: with the parser in state [p], the line [tokens]
    defines a label a second time in its section, or is an instruction
    whose mnemonic is not in the opcode table, or is an instruction with a
    register argument whose id exceeds 16. *)
Inductive offending (p : parser) : list string -> Prop :=
| duplicate_code_label (t : string) :
    Py.startswith "." t = false ->
    Py.endswith ":" t = true ->
    parse_mode p = Some Code ->
    Py.dict_mem String.eqb (code_labels p) (Py.drop_last t) = true ->
    offending p [t]
| duplicate_data_label (t : string) :
    Py.startswith "." t = false ->
    Py.endswith ":" t = true ->
    parse_mode p = Some Data ->
    Py.dict_mem String.eqb (data_labels p) (Py.drop_last t) = true ->
    offending p [t]
| unknown_opcode (t : string) (rest : list string) :
    Py.startswith "." t = false ->
    (rest = [] -> Py.endswith ":" t = false) ->
    parse_mode p = Some Code ->
    Py.dict_get String.eqb Assembler.Opcodes t = None ->
    offending p (t :: rest)
| register_too_big (t : string) (rest : list string) (opcode : Assembler.Opcode)
                   (k : nat) (arg id : string) (ref : option string) (v : Z) :
    parse_mode p = Some Code ->
    Py.dict_get String.eqb Assembler.Opcodes t = Some opcode ->
    nth_error (list_ascii_of_string (Assembler.args opcode)) k = Some "R"%char ->
    nth_error (Parser.translate_argument_tokens rest) k = Some arg ->
    Parser.match_register arg = Some (id, ref) ->
    Py.int 10 id = Some v ->
    v > 16 ->
    offending p (t :: rest).

(** *** Sample programs *)

(** A loop with a backward reference (to the second [hlt]) and a forward
    one (to the last [hlt]). *)
Definition jumps_source : string :=
  source [".dataSize 0"; ".code"; "hlt"; "back:"; "hlt"; "jump back";
          "jump fwd"; "hlt"; "fwd:"; "hlt"].

Definition jumps_parser : parser :=
  Eval vm_compute in fst (Parser.analyse (Lexer.analyse (readlines jumps_source))).

Definition jumps_image : Assembler.state :=
  Eval vm_compute in
    match Assembler.assemble jumps_parser with
    | Ok a => a
    | Raise _ => Assembler.initial
    end.

(** A jump to a label that closes the code section. *)
Definition dangling_source : string :=
  source [".dataSize 0"; ".code"; "jump end"; "end:"].

Definition dangling_parser : parser :=
  Eval vm_compute in fst (Parser.analyse (Lexer.analyse (readlines dangling_source))).

Definition dangling_first_pass : Assembler.state :=
  Eval vm_compute in
    match Assembler.assemble_section dangling_parser Assembler.initial
                                     (code_section dangling_parser) with
    | Ok a => a
    | Raise _ => Assembler.initial
    end.

(** Four data bytes under a declared size of two. *)
Definition widened_source : string :=
  source [".dataSize 2"; ".data"; "DE AD BE EF"; ".code"; "hlt"].

Definition widened_parser : parser :=
  Eval vm_compute in fst (Parser.analyse (Lexer.analyse (readlines widened_source))).

Definition widened_build : parser * Assembler.outcome :=
  Eval vm_compute in Assembler.build widened_parser.

Definition widened_bytes : list Z :=
  Eval vm_compute in
    match Assembler.file (snd widened_build) with
    | Some bytes => bytes
    | None => []
    end.

(** A loop over a two-byte buffer: a constant, registers with and without
    a width, a forward and a backward reference. *)
Definition copy_source : string :=
  source [".dataSize 4"; ".data"; "buf:"; "0A 0B"; ".code";
          "loadConst 0x10, r1"; "again:"; "mov byte[r1], r2";
          "jumpEqual done, r1, r2"; "jump again"; "done:"; "hlt"].

Definition copy_parser : parser :=
  Eval vm_compute in fst (Parser.analyse (Lexer.analyse (readlines copy_source))).

(** A label defined twice, an unknown mnemonic, register 17. *)
Definition twice_source : string :=
  source [".code"; "lbl:"; "hlt"; "lbl:"; "hlt"].

Definition twice_parser : parser :=
  Eval vm_compute in
    fst (Parser.analyse [(1, ".code", [".code"]); (2, "lbl:", ["lbl:"]);
                         (3, "hlt", ["hlt"])]).

Definition twice_data_source : string := source [".data"; "x:"; "00"; "x:"].

Definition twice_data_parser : parser :=
  Eval vm_compute in
    fst (Parser.analyse [(1, ".data", [".data"]); (2, "x:", ["x:"]);
                         (3, "00", ["00"])]).

Definition nop_source : string := source [".code"; "nop"].

Definition r17_source : string := source [".code"; "mov r17, byte[r2]"].

Definition code_mode_parser : parser :=
  Eval vm_compute in fst (Parser.analyse [(1, ".code", [".code"])]).

(** *** Programs as the parser leaves them *)

(** The characters of a string. *)
Definition chars (s : string) : list ascii := list_ascii_of_string s.

(** An argument stored for a position of kind [kind]: a pair with an id
    from 0 to 16 and no width or one of the four width names for [R], a
    text for [C] and [L]. *)
Definition well_formed_argument (kind : ascii) (arg : argument) : Prop :=
  match arg with
  | RegArg id ref =>
      kind = "R"%char
      /\ 0 <= id <= 16
      /\ (ref = None
          \/ exists w, ref = Some w /\ In w (map fst Assembler.DataAccessTypes))
  | StrArg _ => kind = "C"%char \/ kind = "L"%char
  end.

(** An instruction whose mnemonic is in the opcode table and whose
    arguments match the kinds listed there, one for one. *)
Definition well_formed_instruction (ins : instruction) : Prop :=
  exists opcode,
    Py.dict_get String.eqb Assembler.Opcodes (opcode_name ins) = Some opcode
    /\ Forall2 well_formed_argument
               (list_ascii_of_string (Assembler.args opcode)) (arguments ins).

(** The label maps of a parser: names are distinct and every recorded
    position lies within (or just after) its section. *)
Definition labels_in_range (labels : list (string * nat)) (size : nat) : Prop :=
  NoDup (map fst labels) /\ Forall (fun e => (snd e <= size)%nat) labels.

(** What [analyse] maintains from one line to the next. *)
Definition parser_invariant (p : parser) : Prop :=
  Forall well_formed_instruction (code_section p)
  /\ Forall (fun b => b <= 255) (data_section p)
  /\ labels_in_range (code_labels p) (List.length (code_section p))
  /\ labels_in_range (data_labels p) (List.length (data_section p)).

(** The two ways the first pass can fail on arguments the parser stored: a
    constant text that [int(text, 0)] refuses, or a label text that is no
    key of [code_labels]. *)
Definition first_pass_failure (p : parser) (args : list argument) (e : exn) : Prop :=
  (e = ValueError
   /\ exists text, In (StrArg text) args /\ Py.int 0 text = None)
  \/ (exists label,
         In (StrArg label) args
         /\ Py.dict_get String.eqb (code_labels p) label = None
         /\ e = AssemblerError ("Undefined code label " ++ label)).

(** *** Programs that can be assembled *)

(** A stored text is resolved when, as a constant, it reads as a number
    from 0 to 2^64 - 1 and, as a label, it names an instruction of the
    program. *)
Definition resolved_argument (p : parser) (kind : ascii) (arg : argument) : Prop :=
  match arg with
  | RegArg _ _ => True
  | StrArg text =>
      (kind = "C"%char -> exists v, Py.int 0 text = Some v /\ 0 <= v < 2 ^ 64)
      /\ (kind = "L"%char ->
          exists j, Py.dict_get String.eqb (code_labels p) text = Some j
                    /\ (j < List.length (code_section p))%nat)
  end.

Definition resolved_instruction (p : parser) (ins : instruction) : Prop :=
  forall opcode,
    Py.dict_get String.eqb Assembler.Opcodes (opcode_name ins) = Some opcode ->
    Forall2 (resolved_argument p)
            (list_ascii_of_string (Assembler.args opcode)) (arguments ins).

(** The most symbols an argument of a kind can take when it is resolved: a
    reference to register 16, a 64-bit constant, a 32-bit address. *)
Definition kind_width (kind : ascii) : nat :=
  if Ascii.eqb kind "R" then 8
  else if Ascii.eqb kind "C" then 64
  else if Ascii.eqb kind "L" then 32
  else 0.

Definition args_width (kinds : list ascii) : nat :=
  fold_right (fun k n => (kind_width k + n)%nat) 0%nat kinds.

(** An assembler state of a program of [N] instructions that cannot go
    wrong: binary digits only, patches aimed at instructions of the
    program, offsets that fit 32 bits. *)
Definition sound_state (N : nat) (a : Assembler.state) : Prop :=
  Forall is_bit (Assembler.bytecode a)
  /\ (forall q j, In (q, j) (Assembler.offset_patches a) -> (j < N)%nat)
  /\ Forall (fun o => Z.of_nat o < 2 ^ 32) (Assembler.offsets_list a).

(** Number of commas in a text. *)
Definition commas (s : string) : nat :=
  List.length (filter (Ascii.eqb ",") (chars s)).

(** A line whose first token is [.dataSize]. *)
Definition declares_size (it : Lexer.item) : bool :=
  match snd it with
  | t0 :: _ => String.eqb t0 ".dataSize"
  | [] => false
  end.

(** * Properties *)

#[local] Open Scope list_scope.

(** ** Bit fields *)

Section BitFields.

#[local] Open Scope nat_scope.

Lemma list_of_str_rev (s : string) :
  list_ascii_of_string (Py.str_rev s) = rev (list_ascii_of_string s).
Proof. unfold Py.str_rev. now rewrite list_ascii_of_string_of_list_ascii. Qed.

Lemma rev_repeat_same {A : Type} (x : A) (n : nat) : rev (repeat x n) = repeat x n.
Proof.
  induction n as [|n IH]; [reflexivity|].
  simpl. rewrite IH. clear IH.
  induction n as [|n IH]; simpl; [reflexivity | now rewrite IH].
Qed.

Lemma encode_lsb_nonneg (w : nat) (n : Z) :
  (0 <= n)%Z ->
  encode_lsb w n
  = rev (Py.bin_digits n) ++ repeat "0"%char (w - List.length (Py.bin_digits n)).
Proof.
  intros Hn. unfold encode_lsb. rewrite list_of_str_rev.
  unfold Py.format_b.
  destruct n as [|q|q]; try lia;
    rewrite list_ascii_of_string_of_list_ascii; unfold Py.zfill;
    now rewrite rev_app_distr, rev_repeat_same.
Qed.

Lemma lsb_value_zeros (l : list ascii) (k : nat) :
  lsb_value (l ++ repeat "0"%char k) = lsb_value l.
Proof.
  induction l as [|c l IH]; simpl.
  - induction k as [|k IH]; simpl; [reflexivity|]. rewrite IH. reflexivity.
  - now rewrite IH.
Qed.

Lemma lsb_value_pos_bits (q : positive) : lsb_value (Py.pos_bits q) = Zpos q.
Proof.
  induction q as [q IH|q IH|]; simpl; try rewrite IH; unfold bit_of; simpl; lia.
Qed.

Lemma pos_bits_length (q : positive) (w : nat) :
  (Zpos q < 2 ^ Z.of_nat w)%Z -> List.length (Py.pos_bits q) <= w.
Proof.
  revert w. induction q as [q IH|q IH|]; intros [|w] H; simpl;
    try (simpl in H; lia);
    rewrite Nat2Z.inj_succ, Z.pow_succ_r in H by lia;
    try (apply le_n_S, IH); lia.
Qed.

Lemma pos_bits_are_bits (q : positive) : Forall is_bit (Py.pos_bits q).
Proof.
  induction q; simpl; constructor; auto; unfold is_bit; auto.
Qed.

Lemma bin_digits_rev_value (n : Z) :
  (0 <= n)%Z -> lsb_value (rev (Py.bin_digits n)) = n.
Proof.
  destruct n as [|q|q]; intros H; try lia; simpl.
  - reflexivity.
  - rewrite rev_involutive. apply lsb_value_pos_bits.
Qed.

Lemma bin_digits_length (n : Z) (w : nat) :
  (0 <= n < 2 ^ Z.of_nat w)%Z -> 1 <= w -> List.length (Py.bin_digits n) <= w.
Proof.
  destruct n as [|q|q]; intros H Hw; try lia; simpl.
  - exact Hw.
  - rewrite length_rev. apply pos_bits_length. lia.
Qed.

Lemma encode_lsb_value (w : nat) (n : Z) :
  (0 <= n)%Z -> lsb_value (encode_lsb w n) = n.
Proof.
  intros H. rewrite encode_lsb_nonneg by exact H.
  rewrite lsb_value_zeros. now apply bin_digits_rev_value.
Qed.

Lemma encode_lsb_length (w : nat) (n : Z) :
  (0 <= n < 2 ^ Z.of_nat w)%Z -> 1 <= w -> List.length (encode_lsb w n) = w.
Proof.
  intros H Hw. rewrite encode_lsb_nonneg by lia.
  pose proof (bin_digits_length n w H Hw).
  rewrite length_app, length_rev, repeat_length. lia.
Qed.

Lemma encode_lsb_length_ge (w : nat) (n : Z) :
  (0 <= n)%Z -> w <= List.length (encode_lsb w n).
Proof.
  intros H. rewrite encode_lsb_nonneg by lia.
  rewrite length_app, length_rev, repeat_length. lia.
Qed.

Lemma encode_lsb_bits (w : nat) (n : Z) :
  (0 <= n)%Z -> Forall is_bit (encode_lsb w n).
Proof.
  intros H. rewrite encode_lsb_nonneg by lia.
  apply Forall_app. split.
  - apply Forall_rev. destruct n as [|q|q]; try lia; simpl.
    + constructor; [left; reflexivity | constructor].
    + apply Forall_rev, pos_bits_are_bits.
  - apply Forall_forall. intros c Hc. apply repeat_spec in Hc. subst. now left.
Qed.

End BitFields.

(** ** Operands: constants and registers *)

Section Operands.

Variable a : Assembler.state.

(** C3, as amended: a constant whose text [int(text, 0)] reads as a value
    [v] with [0 <= v < 2^64] adds exactly 64 binary digits to the buffer,
    the binary expansion of [v] with the least significant bit first, and
    touches nothing else. *)
Theorem constant_emits_64_bits (text : string) (v : Z) :
  Py.int 0 text = Some v ->
  0 <= v < 2 ^ 64 ->
  exists a' bits,
    Assembler.assemble_constant a (StrArg text) = Ok a'
    /\ Assembler.bytecode a' = Assembler.bytecode a ++ bits
    /\ List.length bits = 64%nat
    /\ Forall is_bit bits
    /\ lsb_value bits = v
    /\ Assembler.offsets_list a' = Assembler.offsets_list a
    /\ Assembler.offset_patches a' = Assembler.offset_patches a.
Proof.
  intros Hint Hv.
  exists (Assembler.append_bits a (Py.str_rev (Py.format_b 64 v))), (encode_lsb 64 v).
  unfold Assembler.assemble_constant. rewrite Hint.
  repeat split; try lia.
  - apply encode_lsb_length; [exact Hv | lia].
  - apply encode_lsb_bits; lia.
  - apply encode_lsb_value; lia.
Qed.

(** A register id below 16 fills its 4-bit field: 5 symbols for the value
    form, 7 for a reference form, the id least significant bit first. *)
Lemma register_field_widths (id : Z) (ref width : string) :
  0 <= id <= 15 ->
  Py.dict_get String.eqb Assembler.DataAccessTypes ref = Some width ->
  ref <> ""%string ->
  Assembler.assemble_register a (RegArg id None)
  = Ok (Assembler.append_bits a (String "0" (string_of_list_ascii (encode_lsb 4 id))))
  /\ Assembler.assemble_register a (RegArg id (Some ref))
     = Ok (Assembler.append_bits a
             (String "1" (Py.str_rev width ++ string_of_list_ascii (encode_lsb 4 id))%string))
  /\ List.length (encode_lsb 4 id) = 4%nat
  /\ lsb_value (encode_lsb 4 id) = id.
Proof.
  intros Hid Hw Hne. unfold Assembler.assemble_register.
  destruct ref as [|c r]; [congruence|]. rewrite Hw.
  unfold encode_lsb. rewrite !string_of_list_ascii_of_string.
  repeat split.
  - apply (encode_lsb_length 4 id); [simpl; lia | lia].
  - apply encode_lsb_value; lia.
Qed.

End Operands.

Lemma constant_witness :
  Py.int 0 "0x00000000000000FF" = Some 255
  /\ 0 <= 255 < 2 ^ 64
  /\ exists a' bits,
       Assembler.assemble_constant Assembler.initial (StrArg "0x00000000000000FF") = Ok a'
       /\ Assembler.bytecode a' = Assembler.bytecode Assembler.initial ++ bits
       /\ List.length bits = 64%nat
       /\ Forall is_bit bits
       /\ lsb_value bits = 255
       /\ Assembler.offsets_list a' = Assembler.offsets_list Assembler.initial
       /\ Assembler.offset_patches a' = Assembler.offset_patches Assembler.initial.
Proof.
  split; [reflexivity|]. split; [split; [discriminate | reflexivity]|].
  apply (constant_emits_64_bits Assembler.initial "0x00000000000000FF" 255);
    [reflexivity | split; [discriminate | reflexivity]].
Defined.

(** C3, counterexample: the constant [-1] is accepted, but what is emitted
    for it is not the two's-complement field of 64 ones: its last symbol is
    the minus sign of the formatted number. *)
Lemma negative_constant_is_not_wrapped :
  Py.int 0 "-1" = Some (-1)
  /\ exists a',
       Assembler.assemble_constant Assembler.initial (StrArg "-1") = Ok a'
       /\ Assembler.bytecode a' <> spec_constant_bits (-1)
       /\ nth 63 (Assembler.bytecode a') "0"%char = "-"%char
       /\ ~ Forall is_bit (Assembler.bytecode a').
Proof.
  split; [reflexivity|].
  eexists. split; [reflexivity|]. split; [|split].
  - vm_compute. discriminate.
  - reflexivity.
  - intros H. rewrite Forall_forall in H.
    destruct (H "-"%char) as [E|E]; [|discriminate E|discriminate E].
    vm_compute. repeat (try (left; reflexivity); right).
Qed.

(** A literal of 65 bits is accepted as well and emits 65 symbols. *)
Lemma wide_constant_overflows_its_field :
  exists a',
    Assembler.assemble_constant Assembler.initial (StrArg "0x10000000000000000") = Ok a'
    /\ List.length (Assembler.bytecode a') = 65%nat.
Proof. eexists. split; reflexivity. Qed.

(** C4: the parser lets register id 16 through, and the emitter then writes
    five id symbols instead of four, so the value form takes 6 symbols and
    the reference form 8. *)
Theorem register_16_overflows_its_field (a : Assembler.state) :
  Parser.parse_argument "R" "r16" = Ok (RegArg 16 None)
  /\ Assembler.assemble_register a (RegArg 16 None)
     = Ok (Assembler.append_bits a "000001")
  /\ Parser.parse_argument "R" "byte[r16]" = Ok (RegArg 16 (Some "byte"%string))
  /\ Assembler.assemble_register a (RegArg 16 (Some "byte"%string))
     = Ok (Assembler.append_bits a "10000001").
Proof. repeat split. Qed.

(** ** Uncaught failures of the parser *)

(** C5: a data token with a minus sign passes the only test there is
    ([value > 255]) and a negative number enters [data_section]. *)
Theorem negative_data_byte_is_accepted :
  exists p,
    Parser.analyse (Lexer.analyse (readlines (source [".data"; "-1"]))) = (p, None)
    /\ data_section p = [-1].
Proof. eexists. split; reflexivity. Qed.

(** The run then dies in [struct.pack("B", -1)], after the header. *)
Lemma negative_data_byte_breaks_the_writer :
  exit (main (source [".dataSize 1"; ".data"; "-1"; ".code"; "hlt"]))
  = Uncaught StructError.
Proof. reflexivity. Qed.

(** C6: [.dataSize] without an operand, or with one that is not a number,
    leaves [analyse] through [IndexError] or [ValueError]; [main] catches
    only [Parser.Error], so no [Parser error] line is printed and the status
    is not 2. *)
Theorem malformed_dataSize_is_not_a_parse_error :
  main (source [".dataSize"])
  = {| exit := Uncaught IndexError; stdout := []; output := None |}
  /\ main (source [".dataSize abc"])
     = {| exit := Uncaught ValueError; stdout := []; output := None |}
  /\ exit_code (exit (main (source [".dataSize"]))) <> 2
  /\ exit_code (exit (main (source [".dataSize abc"]))) <> 2.
Proof. repeat split; vm_compute; discriminate. Qed.

(** ** Data size *)

(** C2: when no [.dataSize] line was parsed, [build] never reaches the file:
    the comparison with [None] raises, nothing is printed, the output path
    is not opened and the run does not end normally. *)
Theorem undeclared_dataSize_stops_the_run (input : string) (p : parser) :
  Parser.analyse (Lexer.analyse (readlines input)) = (p, None) ->
  data_size p = None ->
  output (main input) = None
  /\ stdout (main input) <> ["All ok"%string]
  /\ exit (main input) <> Exit 0
  /\ forall a, Assembler.assemble p = Ok a -> exit (main input) = Uncaught TypeError.
Proof.
  intros Hp Hd. unfold main. rewrite Hp. unfold Assembler.build.
  destruct (Assembler.assemble p) as [a|e]; simpl.
  - rewrite Hd. simpl. repeat split; try discriminate.
  - destruct e; simpl; repeat split; try discriminate.
Qed.

Lemma undeclared_dataSize_witness :
  Parser.analyse (Lexer.analyse (readlines (source [".code"; "hlt"])))
  = (Parser.set_code_section
       (Parser.set_parse_mode (Parser.set_last_parsed Parser.init 2 "hlt") Code)
       [{| opcode_name := "hlt"; arguments := [] |}], None)
  /\ output (main (source [".code"; "hlt"])) = None
  /\ exit (main (source [".code"; "hlt"])) = Uncaught TypeError.
Proof.
  split; [reflexivity|].
  destruct (undeclared_dataSize_stops_the_run (source [".code"; "hlt"]) _ eq_refl eq_refl)
    as (Ho & _ & _ & Hx).
  split; [exact Ho | apply (Hx (Assembler.Build_state ["1"; "0"; "1"; "1"; "0"]%char [0%nat] []))].
  reflexivity.
Defined.

(** ** Slices of the bit buffer *)

Section Buffers.

#[local] Open Scope nat_scope.

Lemma nth_error_slice {A : Type} (l : list A) (pos n k : nat) :
  nth_error (slice l pos n) k = if k <? n then nth_error l (pos + k) else None.
Proof. unfold slice. now rewrite nth_error_firstn, nth_error_skipn. Qed.

Lemma slice_app_l {A : Type} (l x : list A) (pos n : nat) :
  pos + n <= List.length l -> slice (l ++ x) pos n = slice l pos n.
Proof.
  intros H. apply nth_error_ext. intros k. rewrite !nth_error_slice.
  destruct (Nat.ltb_spec k n); [|reflexivity].
  apply nth_error_app1. lia.
Qed.

Lemma slice_app_r {A : Type} (l x : list A) (n : nat) :
  slice (l ++ x) (List.length l) n = firstn n x.
Proof.
  unfold slice. rewrite skipn_app, skipn_all, Nat.sub_diag. reflexivity.
Qed.

Lemma list_set_nth {A : Type} (l : list A) (i : nat) (x : A) (l' : list A) :
  Py.list_set l i x = Some l' ->
  List.length l' = List.length l
  /\ i < List.length l
  /\ forall k, nth_error l' k = if k =? i then Some x else nth_error l k.
Proof.
  revert i l'. induction l as [|y l IH]; intros i l' H; simpl in H.
  - discriminate.
  - destruct i as [|i].
    + injection H as <-. simpl. repeat split; try lia.
      intros [|k]; reflexivity.
    + destruct (Py.list_set l i x) as [r|] eqn:E; [|discriminate].
      injection H as <-. destruct (IH _ _ E) as (Hl & Hi & Hn).
      simpl. repeat split; try lia.
      intros [|k]; simpl; [reflexivity | apply Hn].
Qed.

Lemma write_bits_nth (bits bc : list ascii) (pos : nat) (bc' : list ascii) :
  Assembler.write_bits bc pos bits = Some bc' ->
  List.length bc' = List.length bc
  /\ (bits <> [] -> pos + List.length bits <= List.length bc)
  /\ forall k, nth_error bc' k
               = if (pos <=? k) && (k <? pos + List.length bits)
                 then nth_error bits (k - pos) else nth_error bc k.
Proof.
  revert bc pos bc'. induction bits as [|b bits IH]; intros bc pos bc' H; simpl in H.
  - injection H as <-. repeat split; [congruence|].
    intros k. simpl. rewrite Nat.add_0_r.
    destruct (Nat.leb_spec pos k), (Nat.ltb_spec k pos); simpl; try reflexivity; lia.
  - destruct (Py.list_set bc pos b) as [bc1|] eqn:E; [|discriminate].
    destruct (list_set_nth _ _ _ _ E) as (Hl1 & Hi & Hn1).
    destruct (IH _ _ _ H) as (Hl & Hb & Hn).
    repeat split.
    + lia.
    + intros _. simpl. destruct bits as [|b' bits']; [simpl; lia|].
      assert (b' :: bits' <> []) as Hne by discriminate.
      specialize (Hb Hne). simpl in *. lia.
    + intros k. rewrite Hn, Hn1. simpl List.length.
      destruct (Nat.leb_spec (S pos) k), (Nat.ltb_spec k (S pos + List.length bits)),
        (Nat.leb_spec pos k), (Nat.ltb_spec k (pos + S (List.length bits))),
        (Nat.eqb_spec k pos); simpl; try lia; try reflexivity.
      * replace (k - pos) with (S (k - S pos)) by lia. reflexivity.
      * subst k. rewrite Nat.sub_diag. reflexivity.
Qed.

Lemma write_bits_slice_same (bits bc : list ascii) (pos : nat) (bc' : list ascii) :
  Assembler.write_bits bc pos bits = Some bc' ->
  slice bc' pos (List.length bits) = bits.
Proof.
  intros H. destruct (write_bits_nth _ _ _ _ H) as (_ & _ & Hn).
  apply nth_error_ext. intros k. rewrite nth_error_slice, Hn.
  destruct (Nat.ltb_spec k (List.length bits)) as [Hk|Hk].
  - destruct (Nat.leb_spec pos (pos + k)), (Nat.ltb_spec (pos + k) (pos + List.length bits));
      simpl; try lia.
    f_equal. lia.
  - symmetry. now apply nth_error_None.
Qed.

Lemma write_bits_slice_other (bits bc : list ascii) (pos : nat) (bc' : list ascii)
      (s n : nat) :
  Assembler.write_bits bc pos bits = Some bc' ->
  s + n <= pos \/ pos + List.length bits <= s ->
  slice bc' s n = slice bc s n.
Proof.
  intros H Hd. destruct (write_bits_nth _ _ _ _ H) as (_ & _ & Hn).
  apply nth_error_ext. intros k. rewrite !nth_error_slice, Hn.
  destruct (Nat.ltb_spec k n); [|reflexivity].
  destruct (Nat.leb_spec pos (s + k)), (Nat.ltb_spec (s + k) (pos + List.length bits));
    simpl; try reflexivity; lia.
Qed.

End Buffers.

(** ** The first pass *)

Section FirstPass.

#[local] Open Scope nat_scope.

Lemma dict_set_in {V : Type} (d : list (nat * V)) (k : nat) (v : V) (q : nat) (x : V) :
  In (q, x) (Py.dict_set Nat.eqb d k v) -> (q = k /\ x = v) \/ In (q, x) d.
Proof.
  induction d as [|[k' v'] d IH]; simpl.
  - intros [H|[]]. injection H as <- <-. now left.
  - destruct (Nat.eqb_spec k k') as [->|Hk]; simpl.
    + intros [H|H]; [injection H as <- <-; now left | right; now right].
    + intros [H|H]; [right; now left|].
      destruct (IH H) as [?|?]; [now left | right; now right].
Qed.

Lemma dict_set_in_new {V : Type} (d : list (nat * V)) (k : nat) (v : V) :
  In (k, v) (Py.dict_set Nat.eqb d k v).
Proof.
  induction d as [|[k' v'] d IH]; simpl; [now left|].
  destruct (Nat.eqb_spec k k') as [->|Hk]; simpl; [now left | now right].
Qed.

Lemma dict_set_in_old {V : Type} (d : list (nat * V)) (k : nat) (v : V) (q : nat) (x : V) :
  In (q, x) d -> q <> k -> In (q, x) (Py.dict_set Nat.eqb d k v).
Proof.
  intros H Hq. induction d as [|[k' v'] d IH]; simpl in *; [contradiction|].
  destruct (Nat.eqb_spec k k') as [->|Hk]; simpl.
  - destruct H as [H|H]; [injection H as <- <-; congruence | now right].
  - destruct H as [H|H]; [now left | right; now apply IH].
Qed.

Lemma length_list_of_string (s : string) :
  List.length (list_ascii_of_string s) = String.length s.
Proof. induction s; simpl; congruence. Qed.

Lemma extends_refl (a : Assembler.state) : extends a a.
Proof.
  repeat split; auto. exists []. now rewrite app_nil_r.
Qed.

Lemma extends_length (a a' : Assembler.state) :
  extends a a' ->
  List.length (Assembler.bytecode a) <= List.length (Assembler.bytecode a').
Proof. intros ([m Hm] & _). rewrite Hm, length_app. lia. Qed.

Lemma extends_trans (a b c : Assembler.state) :
  extends a b -> extends b c -> extends a c.
Proof.
  intros Hab Hbc. pose proof (extends_length _ _ Hab) as Hl.
  destruct Hab as ([m1 H1] & Ho1 & Hk1 & Hn1), Hbc as ([m2 H2] & Ho2 & Hk2 & Hn2).
  repeat split.
  - exists (m1 ++ m2). now rewrite H2, H1, app_assoc.
  - congruence.
  - auto.
  - intros q j H. destruct (Hn2 _ _ H) as [H'|H']; [auto | right; lia].
Qed.

Lemma append_bits_extends (a : Assembler.state) (bits : string) :
  extends a (Assembler.append_bits a bits)
  /\ (patches_inside a -> patches_inside (Assembler.append_bits a bits)).
Proof.
  split.
  - repeat split; simpl; auto. now eexists.
  - intros H q j Hq. simpl in *. rewrite length_app. specialize (H _ _ Hq). lia.
Qed.

Lemma assemble_register_extends (a a' : Assembler.state) (arg : argument) :
  Assembler.assemble_register a arg = Ok a' ->
  extends a a' /\ (patches_inside a -> patches_inside a').
Proof.
  unfold Assembler.assemble_register. intros H.
  destruct arg as [id [[|c r]|]|t]; try discriminate;
    try (injection H as <-; apply append_bits_extends).
  destruct (Py.dict_get String.eqb Assembler.DataAccessTypes (String c r));
    [|discriminate].
  injection H as <-. apply append_bits_extends.
Qed.

Lemma assemble_constant_extends (a a' : Assembler.state) (arg : argument) :
  Assembler.assemble_constant a arg = Ok a' ->
  extends a a' /\ (patches_inside a -> patches_inside a').
Proof.
  unfold Assembler.assemble_constant. intros H.
  destruct arg as [id r|t]; [discriminate|].
  destruct (Py.int 0 t); [|discriminate].
  injection H as <-. apply append_bits_extends.
Qed.

Lemma assemble_label_extends (p : parser) (a a' : Assembler.state) (arg : argument) :
  patches_inside a ->
  Assembler.assemble_label p a arg = Ok a' ->
  extends a a' /\ patches_inside a'.
Proof.
  unfold Assembler.assemble_label. intros Hin H.
  destruct arg as [id r|t]; [discriminate|].
  destruct (Py.dict_get String.eqb (code_labels p) t) as [offset|]; [|discriminate].
  destruct (offset <? List.length (Assembler.offsets_list a)).
  - injection H as <-. destruct (append_bits_extends a
      (Py.str_rev (Py.format_b 32 (Z.of_nat (nth offset (Assembler.offsets_list a) 0))))).
    auto.
  - injection H as <-. split.
    + repeat split; simpl; auto.
      * now eexists.
      * intros q j Hq. apply dict_set_in_old; [exact Hq|].
        specialize (Hin _ _ Hq). lia.
      * intros q j Hq. apply dict_set_in in Hq. destruct Hq as [[-> _]|Hq]; auto.
    + intros q j Hq.
      cbn [Assembler.bytecode Assembler.append_bits Assembler.offset_patches] in *.
      rewrite length_app.
      pose proof (encode_lsb_length_ge 32 0 (Z.le_refl 0)) as Hge.
      unfold encode_lsb in Hge.
      apply dict_set_in in Hq. destruct Hq as [[-> _]|Hq]; [lia|].
      specialize (Hin _ _ Hq). lia.
Qed.

Lemma assemble_arguments_extends (p : parser) (kinds : list ascii) :
  forall (data : list argument) (a a' : Assembler.state),
    patches_inside a ->
    Assembler.assemble_arguments p a kinds data = Ok a' ->
    extends a a' /\ patches_inside a'.
Proof.
  induction kinds as [|kind kinds IH]; intros data a a' Hin H; simpl in H.
  - injection H as <-. split; [apply extends_refl | exact Hin].
  - destruct data as [|arg data].
    + injection H as <-. split; [apply extends_refl | exact Hin].
    + unfold bind in H.
      assert (forall a1,
                 (if Ascii.eqb kind "R" then Assembler.assemble_register a arg
                  else if Ascii.eqb kind "C" then Assembler.assemble_constant a arg
                  else if Ascii.eqb kind "L" then Assembler.assemble_label p a arg
                  else Ok a) = Ok a1 ->
                 extends a a1 /\ patches_inside a1) as Hstep.
      { intros a1 H1.
        destruct (Ascii.eqb kind "R").
        { destruct (assemble_register_extends _ _ _ H1); auto. }
        destruct (Ascii.eqb kind "C").
        { destruct (assemble_constant_extends _ _ _ H1); auto. }
        destruct (Ascii.eqb kind "L").
        { now apply (assemble_label_extends p a a1 arg). }
        injection H1 as <-. split; [apply extends_refl | exact Hin]. }
      destruct (if Ascii.eqb kind "R" then Assembler.assemble_register a arg
                else if Ascii.eqb kind "C" then Assembler.assemble_constant a arg
                else if Ascii.eqb kind "L" then Assembler.assemble_label p a arg
                else Ok a) as [a1|e]; [|discriminate].
      destruct (Hstep a1 eq_refl) as (He1 & Hi1).
      destruct (IH _ _ _ Hi1 H) as (He2 & Hi2).
      split; [eapply extends_trans; eauto | exact Hi2].
Qed.

Lemma site_ok_extends (a a' : Assembler.state) (i off j : nat) :
  site_ok a i off j -> extends a a' -> site_ok a' i off j.
Proof.
  intros (base & Hb & Hlen & Hcase) Hext.
  pose proof (extends_length _ _ Hext) as Hl.
  destruct Hext as ([m Hm] & Ho & Hk & Hn).
  exists base. rewrite Ho. split; [exact Hb|]. split; [lia|].
  destruct Hcase as [(Hji & (t & Ht & Hs) & Hp)|(Hij & Hin & Hp)].
  - left. split; [exact Hji|]. split.
    + exists t. split; [exact Ht|]. rewrite Hm, slice_app_l by lia. exact Hs.
    + intros q j' Hq. destruct (Hn _ _ Hq) as [H|H]; [eauto|]. right. lia.
  - right. split; [exact Hij|]. split; [auto|].
    intros q j' Hq. destruct (Hn _ _ Hq) as [H|H]; [eauto|]. right. right. lia.
Qed.

Lemma site_ok_new_offset (a : Assembler.state) (i off j o : nat) :
  site_ok a i off j ->
  site_ok {| Assembler.bytecode := Assembler.bytecode a;
             Assembler.offsets_list := Assembler.offsets_list a ++ [o];
             Assembler.offset_patches := Assembler.offset_patches a |} i off j.
Proof.
  intros (base & Hb & Hlen & Hcase).
  assert (forall k v, nth_error (Assembler.offsets_list a) k = Some v ->
                      nth_error (Assembler.offsets_list a ++ [o]) k = Some v) as Hpre.
  { intros k v Hk. rewrite nth_error_app1; [exact Hk|].
    apply nth_error_Some. congruence. }
  exists base. simpl. split; [auto|]. split; [exact Hlen|].
  destruct Hcase as [(Hji & (t & Ht & Hs) & Hp)|(Hij & Hin & Hp)].
  - left. split; [exact Hji|]. split; [|exact Hp]. exists t. auto.
  - right. auto.
Qed.

Lemma assemble_label_site (p : parser) (a a' : Assembler.state)
      (label : string) (i base off j : nat) :
  patches_inside a ->
  List.length (Assembler.offsets_list a) = S i ->
  nth_error (Assembler.offsets_list a) i = Some base ->
  List.length (Assembler.bytecode a) = base + off ->
  Py.dict_get String.eqb (code_labels p) label = Some j ->
  Assembler.assemble_label p a (StrArg label) = Ok a' ->
  site_ok a' i off j.
Proof.
  intros Hin Hlen Hb Hbc Hj H. unfold Assembler.assemble_label in H. rewrite Hj in H.
  destruct (Nat.ltb_spec j (List.length (Assembler.offsets_list a))) as [Hlt|Hge];
    injection H as <-; exists base;
    cbn [Assembler.bytecode Assembler.append_bits Assembler.offset_patches
         Assembler.offsets_list];
    (split; [exact Hb|]).
  - pose proof (encode_lsb_length_ge 32
                  (Z.of_nat (nth j (Assembler.offsets_list a) 0)) (Nat2Z.is_nonneg _)) as Hge.
    unfold encode_lsb in Hge. rewrite length_app. split; [lia|].
    left. split; [lia|]. split.
    + exists (nth j (Assembler.offsets_list a) 0). split.
      * now apply nth_error_nth'.
      * rewrite <- Hbc. apply slice_app_r.
    + intros q j' Hq. specialize (Hin _ _ Hq). left. lia.
  - pose proof (encode_lsb_length_ge 32 0 (Z.le_refl 0)) as Hge0.
    unfold encode_lsb in Hge0. rewrite length_app. split; [lia|].
    right. split; [lia|]. rewrite <- Hbc. split.
    + apply dict_set_in_new.
    + intros q j' Hq. apply dict_set_in in Hq. destruct Hq as [[-> ->]|Hq]; [now left|].
      specialize (Hin _ _ Hq). right. left. lia.
Qed.

End FirstPass.

Section Passes.

#[local] Open Scope nat_scope.

Variable p : parser.

Lemma assemble_instruction_invariant (pre : list instruction)
      (a a' : Assembler.state) (ins : instruction) :
  first_pass_invariant p pre a ->
  Assembler.assemble_instruction p a ins = Ok a' ->
  first_pass_invariant p (pre ++ [ins]) a'.
Proof.
  intros (Hlen & Hin & Hoff & Hsites) H.
  unfold Assembler.assemble_instruction in H.
  destruct (Py.dict_get String.eqb Assembler.Opcodes (opcode_name ins))
    as [opcode|] eqn:Hop; [|discriminate].
  set (a1 := {| Assembler.bytecode := Assembler.bytecode a;
                Assembler.offsets_list :=
                  Assembler.offsets_list a ++ [List.length (Assembler.bytecode a)];
                Assembler.offset_patches := Assembler.offset_patches a |}) in *.
  set (a2 := Assembler.append_bits a1 (Assembler.code opcode)) in *.
  assert (patches_inside a1) as Hpi1 by exact Hin.
  destruct (append_bits_extends a1 (Assembler.code opcode)) as (He12 & Hp12).
  fold a2 in He12, Hp12. specialize (Hp12 Hpi1).
  destruct (assemble_arguments_extends p _ _ _ _ Hp12 H) as (He2 & Hpi').
  pose proof (extends_trans _ _ _ He12 He2) as He1.
  pose proof (extends_length _ _ He1) as Hgrow.
  assert (Assembler.offsets_list a'
          = Assembler.offsets_list a ++ [List.length (Assembler.bytecode a)]) as Hoffs.
  { destruct He1 as (_ & Ho & _). exact Ho. }
  split; [|split; [|split]].
  - rewrite Hoffs, !length_app. simpl. lia.
  - exact Hpi'.
  - intros o Ho. rewrite Hoffs in Ho. apply in_app_or in Ho.
    simpl in Hgrow. destruct Ho as [Ho|[<-|[]]]; [|lia].
    specialize (Hoff _ Ho). lia.
  - intros i ins' off j Hnth Hsite.
    destruct (Nat.lt_ge_cases i (List.length pre)) as [Hi|Hi].
    + rewrite nth_error_app1 in Hnth by exact Hi.
      apply site_ok_extends with a1; [|exact He1].
      apply site_ok_new_offset. eauto.
    + rewrite nth_error_app2 in Hnth by exact Hi.
      destruct (i - List.length pre) as [|d] eqn:Hd; simpl in Hnth;
        [|destruct d; discriminate].
      injection Hnth as <-.
      assert (i = List.length pre) by lia. subst i. clear Hd Hi.
      unfold label_site in Hsite. rewrite Hop in Hsite.
      destruct (list_ascii_of_string (Assembler.args opcode)) as [|kind kinds];
        [discriminate|].
      destruct (arguments ins) as [|[id r|label] rest]; try discriminate.
      destruct (Ascii.eqb_spec kind "L") as [->|]; [|discriminate].
      destruct (Py.dict_get String.eqb (code_labels p) label) as [j'|] eqn:Hj;
        [|discriminate].
      injection Hsite as <- <-.
      change (Assembler.assemble_arguments p a2 ("L"%char :: kinds) (StrArg label :: rest))
        with (bind (Assembler.assemble_label p a2 (StrArg label))
                   (fun a3 => Assembler.assemble_arguments p a3 kinds rest)) in H.
      unfold bind in H.
      destruct (Assembler.assemble_label p a2 (StrArg label)) as [a3|] eqn:Hl;
        [|discriminate].
      destruct (assemble_label_extends p a2 a3 _ Hp12 Hl) as (He23 & Hpi3).
      destruct (assemble_arguments_extends p _ _ _ _ Hpi3 H) as (He3 & _).
      apply site_ok_extends with a3; [|exact He3].
      apply (assemble_label_site p a2 a3 label (List.length pre)
               (List.length (Assembler.bytecode a))
               (String.length (Assembler.code opcode)) j'); auto.
      * simpl. rewrite length_app. simpl. lia.
      * simpl. rewrite nth_error_app2 by lia.
        rewrite Hlen, Nat.sub_diag. reflexivity.
      * simpl. now rewrite length_app, length_list_of_string.
Qed.

Lemma assemble_section_invariant (l : list instruction) :
  forall (pre : list instruction) (a a' : Assembler.state),
    first_pass_invariant p pre a ->
    Assembler.assemble_section p a l = Ok a' ->
    first_pass_invariant p (pre ++ l) a'.
Proof.
  induction l as [|ins l IH]; intros pre a a' Hinv H; simpl in H.
  - injection H as <-. now rewrite app_nil_r.
  - unfold bind in H.
    destruct (Assembler.assemble_instruction p a ins) as [a1|] eqn:H1; [|discriminate].
    replace (pre ++ ins :: l) with ((pre ++ [ins]) ++ l)
      by (now rewrite <- app_assoc).
    apply (IH _ a1); [|exact H].
    now apply (assemble_instruction_invariant pre a).
Qed.

Lemma initial_invariant : first_pass_invariant p [] Assembler.initial.
Proof.
  repeat split.
  - intros q j [].
  - intros o [].
  - intros [|i] ins off j H; discriminate H.
Qed.

Lemma first_pass_sound (a : Assembler.state) :
  Assembler.assemble_section p Assembler.initial (code_section p) = Ok a ->
  first_pass_invariant p (code_section p) a.
Proof.
  intros H. apply (assemble_section_invariant _ [] _ _ initial_invariant H).
Qed.

(** [__offsets_list] holds, for each instruction, the length the buffer had
    when the instruction began: its bit offset. *)
Lemma assemble_arguments_offsets (kinds : list ascii) :
  forall (data : list argument) (a a' : Assembler.state),
    Assembler.assemble_arguments p a kinds data = Ok a' ->
    Assembler.offsets_list a' = Assembler.offsets_list a.
Proof.
  induction kinds as [|kind kinds IH]; intros data a a' H; simpl in H.
  - now injection H as <-.
  - destruct data as [|arg data]; [now injection H as <-|].
    unfold bind in H.
    destruct (Ascii.eqb kind "R").
    { destruct (Assembler.assemble_register a arg) as [a1|] eqn:H1; [|discriminate].
      rewrite (IH _ _ _ H). unfold Assembler.assemble_register in H1.
      destruct arg as [id [[|c r]|]|t]; try discriminate;
        try (now injection H1 as <-).
      destruct (Py.dict_get String.eqb Assembler.DataAccessTypes (String c r));
        [now injection H1 as <- | discriminate]. }
    destruct (Ascii.eqb kind "C").
    { destruct (Assembler.assemble_constant a arg) as [a1|] eqn:H1; [|discriminate].
      rewrite (IH _ _ _ H). unfold Assembler.assemble_constant in H1.
      destruct arg as [id r|t]; [discriminate|].
      destruct (Py.int 0 t); [now injection H1 as <- | discriminate]. }
    destruct (Ascii.eqb kind "L").
    { destruct (Assembler.assemble_label p a arg) as [a1|] eqn:H1; [|discriminate].
      rewrite (IH _ _ _ H). unfold Assembler.assemble_label in H1.
      destruct arg as [id r|t]; [discriminate|].
      destruct (Py.dict_get String.eqb (code_labels p) t); [|discriminate].
      destruct (_ <? _); now injection H1 as <-. }
    eauto.
Qed.

Lemma assemble_instruction_offsets (a a' : Assembler.state) (ins : instruction) :
  Assembler.assemble_instruction p a ins = Ok a' ->
  Assembler.offsets_list a'
  = Assembler.offsets_list a ++ [List.length (Assembler.bytecode a)].
Proof.
  unfold Assembler.assemble_instruction. intros H.
  destruct (Py.dict_get String.eqb Assembler.Opcodes (opcode_name ins)); [|discriminate].
  now rewrite (assemble_arguments_offsets _ _ _ _ H).
Qed.

Lemma assemble_section_offsets (l : list instruction) :
  forall a a',
    Assembler.assemble_section p a l = Ok a' ->
    exists more, Assembler.offsets_list a' = Assembler.offsets_list a ++ more.
Proof.
  induction l as [|ins l IH]; intros a a' H; simpl in H.
  - injection H as <-. exists []. now rewrite app_nil_r.
  - unfold bind in H.
    destruct (Assembler.assemble_instruction p a ins) as [a1|] eqn:H1; [|discriminate].
    destruct (IH _ _ H) as (more & ->).
    rewrite (assemble_instruction_offsets _ _ _ H1), <- app_assoc. eauto.
Qed.

Lemma offsets_list_records_starts (l1 l2 : list instruction) (ins : instruction) :
  forall a0 a,
    Assembler.assemble_section p a0 (l1 ++ ins :: l2) = Ok a ->
    exists a1,
      Assembler.assemble_section p a0 l1 = Ok a1
      /\ nth_error (Assembler.offsets_list a)
                   (List.length (Assembler.offsets_list a0) + List.length l1)
         = Some (List.length (Assembler.bytecode a1)).
Proof.
  induction l1 as [|i1 l1 IH]; intros a0 a H; simpl in H; unfold bind in H.
  - exists a0. split; [reflexivity|].
    destruct (Assembler.assemble_instruction p a0 ins) as [a'|] eqn:H1; [|discriminate].
    destruct (assemble_section_offsets _ _ _ H) as (more & ->).
    rewrite (assemble_instruction_offsets _ _ _ H1), <- app_assoc.
    rewrite nth_error_app2 by (simpl; lia).
    replace (_ + _ - _) with 0 by (simpl; lia). reflexivity.
  - destruct (Assembler.assemble_instruction p a0 i1) as [a'|] eqn:H1; [|discriminate].
    destruct (IH _ _ H) as (a1 & Ha1 & Hn).
    exists a1. simpl. unfold bind. rewrite H1. split; [exact Ha1|].
    rewrite (assemble_instruction_offsets _ _ _ H1), length_app in Hn.
    simpl in Hn. rewrite <- Hn. f_equal. lia.
Qed.

(** *** The second pass *)

Lemma patch_all_length (offsets : list nat) (patches : list (nat * nat)) :
  forall bc bc',
    Assembler.patch_all offsets patches bc = Ok bc' ->
    List.length bc' = List.length bc.
Proof.
  induction patches as [|[position offset] rest IH]; intros bc bc' H; simpl in H.
  - now injection H as <-.
  - destruct (nth_error offsets offset) as [address|]; [|discriminate].
    destruct (Assembler.write_bits bc position _) as [bc1|] eqn:Hw; [|discriminate].
    rewrite (IH _ _ H). now destruct (write_bits_nth _ _ _ _ Hw).
Qed.

Lemma patch_all_defined (offsets : list nat) (patches : list (nat * nat)) :
  forall bc bc' q j,
    Assembler.patch_all offsets patches bc = Ok bc' ->
    In (q, j) patches ->
    exists t, nth_error offsets j = Some t.
Proof.
  induction patches as [|[position offset] rest IH]; intros bc bc' q j H Hq; simpl in H.
  - destruct Hq.
  - destruct (nth_error offsets offset) as [address|] eqn:Ha; [|discriminate].
    destruct (Assembler.write_bits bc position _) as [bc1|]; [|discriminate].
    destruct Hq as [Hq|Hq]; [injection Hq as <- <-; eauto | eauto].
Qed.

Lemma patch_all_index_error (offsets : list nat) (patches : list (nat * nat)) :
  forall bc q j,
    In (q, j) patches ->
    nth_error offsets j = None ->
    Assembler.patch_all offsets patches bc = Raise IndexError.
Proof.
  induction patches as [|[position offset] rest IH]; intros bc q j Hq Hj; simpl.
  - destruct Hq.
  - destruct (nth_error offsets offset) as [address|] eqn:Ha; [|reflexivity].
    destruct (Assembler.write_bits bc position _) as [bc1|]; [|reflexivity].
    destruct Hq as [Hq|Hq]; [injection Hq as <- <-; congruence | eauto].
Qed.

Lemma patch_all_slice (offsets : list nat) (s j t : nat) :
  (forall o, In o offsets -> (Z.of_nat o < 2 ^ 32)%Z) ->
  nth_error offsets j = Some t ->
  forall patches bc bc',
    Assembler.patch_all offsets patches bc = Ok bc' ->
    (forall q j', In (q, j') patches -> (q = s /\ j' = j) \/ apart q s) ->
    In (s, j) patches \/ slice bc s 32 = encode_lsb 32 (Z.of_nat t) ->
    slice bc' s 32 = encode_lsb 32 (Z.of_nat t).
Proof.
  intros Hsmall Ht.
  induction patches as [|[position offset] rest IH]; intros bc bc' H Hp Hs; simpl in H.
  - injection H as <-. destruct Hs as [[]|Hs]; exact Hs.
  - destruct (nth_error offsets offset) as [address|] eqn:Ha; [|discriminate].
    destruct (Assembler.write_bits bc position _) as [bc1|] eqn:Hw; [|discriminate].
    fold (encode_lsb 32 (Z.of_nat address)) in Hw.
    assert (List.length (encode_lsb 32 (Z.of_nat address)) = 32) as Hlen.
    { apply encode_lsb_length; [|lia]. split; [lia|].
      apply Hsmall. eapply nth_error_In; eauto. }
    assert (forall q j', In (q, j') rest -> (q = s /\ j' = j) \/ apart q s) as Hp'
        by (intros; apply Hp; now right).
    apply (IH bc1 bc' H Hp').
    destruct (Hp position offset (or_introl eq_refl)) as [[-> ->]|Hapart].
    + right. rewrite Ha in Ht. injection Ht as <-.
      rewrite <- Hlen at 1. eapply write_bits_slice_same; eauto.
    + destruct Hs as [[Hs|Hs]|Hs].
      * injection Hs as -> ->. destruct Hapart; lia.
      * now left.
      * right. rewrite (write_bits_slice_other _ _ _ _ s 32 Hw); [exact Hs|].
        rewrite Hlen. destruct Hapart; [right|left]; lia.
Qed.

End Passes.

(** ** Label operands *)

Section Labels.

#[local] Open Scope nat_scope.

Lemma dict_get_in {V : Type} (d : list (string * V)) (k : string) (v : V) :
  Py.dict_get String.eqb d k = Some v -> In v (map snd d).
Proof.
  induction d as [|[k' v'] d IH]; simpl; [discriminate|].
  destruct (String.eqb k k'); [intros H; injection H as <-; now left | auto].
Qed.

(** In the opcode table a label is always the first argument, and no kind
    other than [R], [C], [L] occurs. *)
Lemma opcode_table_shape (name : string) (opcode : Assembler.Opcode) :
  Py.dict_get String.eqb Assembler.Opcodes name = Some opcode ->
  (forall k, nth_error (list_ascii_of_string (Assembler.args opcode)) k = Some "L"%char ->
             k = 0)
  /\ Forall (fun c => c = "R"%char \/ c = "C"%char \/ c = "L"%char)
            (list_ascii_of_string (Assembler.args opcode)).
Proof.
  intros H. apply dict_get_in in H. revert opcode H. apply Forall_forall.
  unfold Assembler.Opcodes. simpl map.
  repeat (apply Forall_cons;
          [split;
           [intros [|[|[|[|[|k]]]]] Hk; simpl in Hk; try discriminate Hk; reflexivity
           |simpl;
            repeat (apply Forall_cons;
                    [first [left; reflexivity | right; left; reflexivity
                           | right; right; reflexivity] |]);
            apply Forall_nil] |]).
  apply Forall_nil.
Qed.

Variables (p : parser) (ins : instruction) (opcode : Assembler.Opcode).
Variables (i k j : nat) (label : string).

Hypothesis Hins : nth_error (code_section p) i = Some ins.
Hypothesis Hopcode :
  Py.dict_get String.eqb Assembler.Opcodes (opcode_name ins) = Some opcode.
Hypothesis Hkind :
  nth_error (list_ascii_of_string (Assembler.args opcode)) k = Some "L"%char.
Hypothesis Harg : nth_error (arguments ins) k = Some (StrArg label).
Hypothesis Hlabel : Py.dict_get String.eqb (code_labels p) label = Some j.

Lemma label_operand_site :
  k = 0 /\ label_site p ins = Some (String.length (Assembler.code opcode), j).
Proof.
  destruct (opcode_table_shape _ _ Hopcode) as (Hfirst & _).
  pose proof (Hfirst _ Hkind) as Hk. split; [exact Hk|].
  rewrite Hk in Hkind, Harg. unfold label_site. rewrite Hopcode.
  destruct (list_ascii_of_string (Assembler.args opcode)) as [|c kinds];
    [discriminate|].
  injection Hkind as ->.
  destruct (arguments ins) as [|x rest]; [discriminate|].
  injection Harg as ->. simpl. now rewrite Hlabel.
Qed.

(** C1, as amended: in an image of fewer than 2^32 bits, every label
    operand (there is at most one per instruction, its first argument)
    occupies the 32 symbols after the opcode of its instruction, and these
    read, least significant bit first, as the bit offset of the instruction
    the label names, the offset itself and not an eighth of it; the
    reference may point backward ([j <= i]) or forward ([i < j]). *)
Theorem label_operand_holds_bit_offset (a : Assembler.state) :
  Assembler.assemble p = Ok a ->
  (Z.of_nat (List.length (Assembler.bytecode a)) < 2 ^ 32)%Z ->
  exists start target,
    k = 0
    /\ nth_error (Assembler.offsets_list a) i = Some start
    /\ nth_error (Assembler.offsets_list a) j = Some target
    /\ start + String.length (Assembler.code opcode) + 32
       <= List.length (Assembler.bytecode a)
    /\ lsb_value (slice (Assembler.bytecode a)
                        (start + String.length (Assembler.code opcode)) 32)
       = Z.of_nat target.
Proof.
  intros Hasm Hsmall.
  destruct label_operand_site as (Hk & Hsite).
  unfold Assembler.assemble, bind in Hasm.
  destruct (Assembler.assemble_section p Assembler.initial (code_section p))
    as [a1|] eqn:H1; [|discriminate].
  unfold Assembler.apply_patches, bind in Hasm.
  destruct (Assembler.patch_all _ _ _) as [bc|] eqn:H2; [|discriminate].
  injection Hasm as <-. simpl in *.
  pose proof (patch_all_length _ _ _ _ H2) as Hlen.
  destruct (first_pass_sound p a1 H1) as (_ & _ & Hoff & Hsites).
  destruct (Hsites _ _ _ _ Hins Hsite) as (base & Hb & Hin & Hcase).
  assert (forall o, In o (Assembler.offsets_list a1) -> (Z.of_nat o < 2 ^ 32)%Z)
    as Hoffs.
  { intros o Ho. specialize (Hoff _ Ho). lia. }
  assert (forall t, nth_error (Assembler.offsets_list a1) j = Some t ->
                    slice bc (base + String.length (Assembler.code opcode)) 32
                    = encode_lsb 32 (Z.of_nat t) ->
                    lsb_value (slice bc (base + String.length (Assembler.code opcode)) 32)
                    = Z.of_nat t) as Hread.
  { intros t _ ->. apply encode_lsb_value. lia. }
  exists base.
  destruct Hcase as [(Hji & (t & Ht & Hs) & Hp)|(Hij & Hpatch & Hp)].
  - exists t. repeat split; auto; [lia|].
    apply Hread; [exact Ht|].
    apply (patch_all_slice _ _ j t Hoffs Ht _ _ _ H2).
    + intros q j' Hq. right. eauto.
    + right. rewrite Hs. apply firstn_all2.
      rewrite encode_lsb_length; [lia| |lia].
      split; [lia|]. apply Hoffs. eapply nth_error_In; eauto.
  - destruct (patch_all_defined _ _ _ _ _ _ H2 Hpatch) as (t & Ht).
    exists t. repeat split; auto; [lia|].
    apply Hread; [exact Ht|].
    apply (patch_all_slice _ _ j t Hoffs Ht _ _ _ H2); [exact Hp | now left].
Qed.

(** C10: when the label names the position after the last instruction, the
    first pass leaves a patch whose target index is the length of
    [__offsets_list]; [__apply_patches] raises [IndexError], which [main]
    does not catch: no file, no message, and a status that is neither 2
    nor 3. *)
Theorem label_after_last_instruction_breaks_patching
        (input : string) (a : Assembler.state) :
  Parser.analyse (Lexer.analyse (readlines input)) = (p, None) ->
  Assembler.assemble_section p Assembler.initial (code_section p) = Ok a ->
  j = List.length (code_section p) ->
  Assembler.assemble p = Raise IndexError
  /\ main input = {| exit := Uncaught IndexError; stdout := []; output := None |}
  /\ exit_code (exit (main input)) <> 2%Z
  /\ exit_code (exit (main input)) <> 3%Z.
Proof.
  intros Hparse H1 Hj.
  destruct label_operand_site as (_ & Hsite).
  destruct (first_pass_sound p a H1) as (Hlen & _ & _ & Hsites).
  destruct (Hsites _ _ _ _ Hins Hsite) as (base & Hb & Hin & Hcase).
  assert (nth_error (Assembler.offsets_list a) j = None) as Hnone.
  { apply nth_error_None. lia. }
  assert (Assembler.assemble p = Raise IndexError) as Hasm.
  { unfold Assembler.assemble, bind. rewrite H1.
    unfold Assembler.apply_patches, bind.
    destruct Hcase as [(_ & (t & Ht & _) & _)|(_ & Hpatch & _)]; [congruence|].
    now rewrite (patch_all_index_error _ _ _ _ _ Hpatch Hnone). }
  assert (main input = {| exit := Uncaught IndexError; stdout := []; output := None |})
    as Hmain.
  { unfold main. rewrite Hparse. unfold Assembler.build. rewrite Hasm. reflexivity. }
  rewrite Hmain. split; [exact Hasm|]. split; [reflexivity|].
  split; simpl; lia.
Qed.

End Labels.

Lemma label_operand_witness :
  Parser.analyse (Lexer.analyse (readlines jumps_source)) = (jumps_parser, None)
  /\ Assembler.assemble jumps_parser = Ok jumps_image
  /\ (exists start target,
         0%nat = 0%nat
         /\ nth_error (Assembler.offsets_list jumps_image) 2 = Some start
         /\ nth_error (Assembler.offsets_list jumps_image) 1 = Some target
         /\ (start + 5 + 32 <= List.length (Assembler.bytecode jumps_image))%nat
         /\ lsb_value (slice (Assembler.bytecode jumps_image) (start + 5) 32)
            = Z.of_nat target)
  /\ (exists start target,
         0%nat = 0%nat
         /\ nth_error (Assembler.offsets_list jumps_image) 3 = Some start
         /\ nth_error (Assembler.offsets_list jumps_image) 5 = Some target
         /\ (start + 5 + 32 <= List.length (Assembler.bytecode jumps_image))%nat
         /\ lsb_value (slice (Assembler.bytecode jumps_image) (start + 5) 32)
            = Z.of_nat target).
Proof.
  split; [vm_compute; reflexivity|].
  split; [vm_compute; reflexivity|].
  split.
  - exact (label_operand_holds_bit_offset
             jumps_parser {| opcode_name := "jump"; arguments := [StrArg "back"] |}
             {| Assembler.code := "01101"; Assembler.args := "L" |}
             2 0 1 "back" eq_refl eq_refl eq_refl eq_refl eq_refl
             jumps_image eq_refl eq_refl).
  - exact (label_operand_holds_bit_offset
             jumps_parser {| opcode_name := "jump"; arguments := [StrArg "fwd"] |}
             {| Assembler.code := "01101"; Assembler.args := "L" |}
             3 0 5 "fwd" eq_refl eq_refl eq_refl eq_refl eq_refl
             jumps_image eq_refl eq_refl).
Defined.

(** C1, counterexample: the program is assembled without error; its second
    [hlt] starts at bit 5 and its last [hlt] at bit 89, and the operands of
    the two jumps hold 5 and 89, where the bit offsets divided by 8 are 0
    and 11. *)
Lemma label_operand_is_not_a_byte_offset :
  exit (main jumps_source) = Exit 0
  /\ Parser.analyse (Lexer.analyse (readlines jumps_source)) = (jumps_parser, None)
  /\ Assembler.assemble jumps_parser = Ok jumps_image
  /\ nth_error (Assembler.offsets_list jumps_image) 1 = Some 5%nat
  /\ lsb_value (slice (Assembler.bytecode jumps_image) 15 32) = 5
  /\ lsb_value (slice (Assembler.bytecode jumps_image) 15 32) <> spec_label_address 5
  /\ nth_error (Assembler.offsets_list jumps_image) 5 = Some 89%nat
  /\ lsb_value (slice (Assembler.bytecode jumps_image) 52 32) = 89
  /\ lsb_value (slice (Assembler.bytecode jumps_image) 52 32) <> spec_label_address 89.
Proof.
  repeat split; try (vm_compute; reflexivity); vm_compute; discriminate.
Qed.

Lemma label_after_last_instruction_witness :
  Parser.analyse (Lexer.analyse (readlines dangling_source)) = (dangling_parser, None)
  /\ Assembler.assemble_section dangling_parser Assembler.initial
                                (code_section dangling_parser)
     = Ok dangling_first_pass
  /\ Py.dict_get String.eqb (code_labels dangling_parser) "end"
     = Some (List.length (code_section dangling_parser))
  /\ Assembler.assemble dangling_parser = Raise IndexError
  /\ main dangling_source
     = {| exit := Uncaught IndexError; stdout := []; output := None |}
  /\ exit_code (exit (main dangling_source)) <> 2
  /\ exit_code (exit (main dangling_source)) <> 3.
Proof.
  split; [vm_compute; reflexivity|].
  split; [vm_compute; reflexivity|].
  split; [vm_compute; reflexivity|].
  exact (label_after_last_instruction_breaks_patching
           dangling_parser {| opcode_name := "jump"; arguments := [StrArg "end"] |}
           {| Assembler.code := "01101"; Assembler.args := "L" |}
           0 0 1 "end" eq_refl eq_refl eq_refl eq_refl eq_refl
           dangling_source dangling_first_pass eq_refl eq_refl eq_refl).
Defined.

(** ** The output file *)

Section Writer.

Lemma pack_I_spec (n : Z) (b : list Z) :
  Py.pack_I n = Some b -> 0 <= n < 2 ^ 32 /\ b = le32_bytes n.
Proof.
  unfold Py.pack_I. destruct (0 <=? n) eqn:H0; [|discriminate].
  destruct (n <? 2 ^ 32) eqn:H1; [|discriminate]. simpl.
  intros H. injection H as <-. split; [lia | reflexivity].
Qed.

Lemma le32_bytes_value (n : Z) : 0 <= n < 2 ^ 32 -> le32 (le32_bytes n) = n.
Proof.
  intros H. unfold le32, le32_bytes. cbn [nth].
  change (2 ^ 32) with 4294967296 in H.
  Z.div_mod_to_equations. lia.
Qed.

Lemma pack_B_spec (n : Z) (b : list Z) :
  Py.pack_B n = Some b -> 0 <= n <= 255 /\ b = [n].
Proof.
  unfold Py.pack_B. destruct (0 <=? n) eqn:H0; [|discriminate].
  destruct (n <=? 255) eqn:H1; [|discriminate]. simpl.
  intros H. injection H as <-. split; [lia | reflexivity].
Qed.

Lemma write_code_spec (bc : list ascii) (indices : list nat) :
  forall out out' e,
    Assembler.write_code bc indices out = (out', e) ->
    exists bs,
      out' = out ++ bs
      /\ (e = None ->
          Forall2 (fun i b => Assembler.chunk_value bc i = Some b /\ 0 <= b <= 255)
                  indices bs).
Proof.
  induction indices as [|i rest IH]; intros out out' e H; simpl in H.
  - injection H as <- <-. exists []. rewrite app_nil_r. split; [reflexivity|constructor].
  - destruct (Assembler.chunk_value bc i) as [byte|] eqn:Hc.
    + destruct (Py.pack_B byte) as [b|] eqn:Hb.
      * destruct (pack_B_spec _ _ Hb) as (Hr & ->).
        destruct (IH _ _ _ H) as (bs & -> & Hbs).
        exists (byte :: bs). rewrite <- app_assoc. split; [reflexivity|].
        intros He. constructor; auto.
      * injection H as <- <-. exists []. rewrite app_nil_r.
        split; [reflexivity | discriminate].
    + injection H as <- <-. exists []. rewrite app_nil_r.
      split; [reflexivity | discriminate].
Qed.

Lemma write_data_spec (data : list Z) :
  forall out out' e,
    Assembler.write_data data out = (out', e) ->
    exists bs,
      out' = out ++ bs
      /\ (e = None -> bs = data /\ Forall (fun b => 0 <= b <= 255) data).
Proof.
  induction data as [|d rest IH]; intros out out' e H; simpl in H.
  - injection H as <- <-. exists []. rewrite app_nil_r. repeat split; constructor.
  - destruct (Py.pack_B d) as [b|] eqn:Hb.
    + destruct (pack_B_spec _ _ Hb) as (Hr & ->).
      destruct (IH _ _ _ H) as (bs & -> & Hbs).
      exists (d :: bs). rewrite <- app_assoc. split; [reflexivity|].
      intros He. destruct (Hbs He) as (-> & HF). split; [reflexivity | now constructor].
    + injection H as <- <-. exists []. rewrite app_nil_r.
      split; [reflexivity | discriminate].
Qed.

(** What [write_file] leaves in the file once the three header fields are
    written. *)
Lemma write_file_header (bc : list ascii) (size : Z) (data : list Z)
      (bytes : list Z) (e : option exn) :
  Assembler.write_file bc size data = (bytes, e) ->
  (20 <= List.length bytes)%nat ->
  exists body,
    bytes = Assembler.magic
              ++ le32_bytes (Z.of_nat (List.length bc / 8))
              ++ le32_bytes size
              ++ le32_bytes (Z.of_nat (List.length data))
              ++ body
    /\ 0 <= Z.of_nat (List.length bc / 8) < 2 ^ 32
    /\ 0 <= size < 2 ^ 32
    /\ 0 <= Z.of_nat (List.length data) < 2 ^ 32.
Proof.
  unfold Assembler.write_file. intros H Hlen.
  destruct (Py.pack_I (Z.of_nat (List.length bc / 8))) as [b1|] eqn:H1;
    [|injection H as <- <-; simpl in Hlen; lia].
  destruct (pack_I_spec _ _ H1) as (R1 & ->).
  destruct (Py.pack_I size) as [b2|] eqn:H2;
    [|injection H as <- <-; simpl in Hlen; lia].
  destruct (pack_I_spec _ _ H2) as (R2 & ->).
  destruct (Py.pack_I (Z.of_nat (List.length data))) as [b3|] eqn:H3;
    [|injection H as <- <-; simpl in Hlen; lia].
  destruct (pack_I_spec _ _ H3) as (R3 & ->).
  destruct (Assembler.write_code bc _ _) as [out1 e1] eqn:Hc.
  destruct (write_code_spec _ _ _ _ _ Hc) as (cs & -> & _).
  destruct e1 as [e1|].
  - injection H as <- <-. exists cs. split; [reflexivity | auto].
  - destruct (write_data_spec _ _ _ _ H) as (ds & -> & _).
    exists (cs ++ ds). rewrite <- !app_assoc. split; [reflexivity | auto].
Qed.

(** C9: whenever [build] has written the header of a file, the [data_size]
    field (bytes 12 to 15) is at least the [data_initial_length] field
    (bytes 16 to 19), which is the number of data bytes of the program. *)
Theorem header_data_size_covers_data (p p' : parser) (o : Assembler.outcome)
        (bytes : list Z) :
  Assembler.build p = (p', o) ->
  Assembler.file o = Some bytes ->
  (20 <= List.length bytes)%nat ->
  le32 (slice bytes 12 4) >= le32 (slice bytes 16 4)
  /\ le32 (slice bytes 16 4) = Z.of_nat (List.length (data_section p))
  /\ data_size p' = Some (le32 (slice bytes 12 4)).
Proof.
  unfold Assembler.build. intros H Hf Hlen.
  destruct (Assembler.assemble p) as [a|]; [|injection H as <- <-; discriminate].
  destruct (data_size p) as [declared|]; [|injection H as <- <-; discriminate].
  destruct (Assembler.write_file _ _ _) as [out e] eqn:Hw.
  injection H as <- <-. simpl in Hf. injection Hf as ->.
  destruct (write_file_header _ _ _ _ _ Hw Hlen) as (body & -> & _ & R2 & R3).
  change (slice (Assembler.magic ++ le32_bytes _ ++ le32_bytes ?s ++ le32_bytes ?d ++ body) 12 4)
    with (le32_bytes s).
  change (slice (Assembler.magic ++ le32_bytes _ ++ le32_bytes ?s ++ le32_bytes ?d ++ body) 16 4)
    with (le32_bytes d).
  rewrite !le32_bytes_value by assumption. simpl.
  repeat split.
  destruct (Z.gtb_spec (Z.of_nat (List.length (data_section p))) declared); lia.
Qed.

End Writer.

Lemma header_witness :
  Assembler.build widened_parser = widened_build
  /\ Assembler.file (snd widened_build) = Some widened_bytes
  /\ (20 <= List.length widened_bytes)%nat
  /\ le32 (slice widened_bytes 12 4) >= le32 (slice widened_bytes 16 4)
  /\ le32 (slice widened_bytes 16 4) = Z.of_nat (List.length (data_section widened_parser))
  /\ data_size (fst widened_build) = Some (le32 (slice widened_bytes 12 4)).
Proof.
  split; [vm_compute; reflexivity|].
  split; [vm_compute; reflexivity|].
  split; [vm_compute; lia|].
  apply (header_data_size_covers_data widened_parser (fst widened_build)
           (snd widened_build) widened_bytes).
  - vm_compute; reflexivity.
  - vm_compute; reflexivity.
  - vm_compute; lia.
Defined.

(** ** The symbols of the bit buffer *)

Section Symbols.

Lemma bit_is_symbol (c : ascii) : is_bit c -> is_symbol c.
Proof. intros [-> | ->]; [left | right; left]; reflexivity. Qed.

Lemma list_of_string_app (s t : string) :
  list_ascii_of_string (s ++ t)%string
  = list_ascii_of_string s ++ list_ascii_of_string t.
Proof. induction s as [|c s IH]; simpl; [reflexivity | now rewrite IH]. Qed.

Lemma repeat_zero_symbols (n : nat) : Forall is_symbol (repeat "0"%char n).
Proof.
  apply Forall_forall. intros c Hc. apply repeat_spec in Hc. subst. now left.
Qed.

Lemma format_b_symbols (w : nat) (n : Z) :
  Forall is_symbol (list_ascii_of_string (Py.format_b w n)).
Proof.
  unfold Py.format_b. rewrite list_ascii_of_string_of_list_ascii.
  assert (forall q, Forall is_symbol (rev (Py.pos_bits q))) as Hq.
  { intros q. apply Forall_rev. eapply Forall_impl; [|apply pos_bits_are_bits].
    apply bit_is_symbol. }
  destruct n as [|q|q]; unfold Py.zfill; simpl Py.bin_digits.
  - apply Forall_app. split; [apply repeat_zero_symbols|].
    constructor; [now left | constructor].
  - apply Forall_app. split; [apply repeat_zero_symbols | apply Hq].
  - constructor; [right; now right|].
    apply Forall_app. split; [apply repeat_zero_symbols | apply Hq].
Qed.

Lemma str_rev_symbols (s : string) :
  Forall is_symbol (list_ascii_of_string s) ->
  Forall is_symbol (list_ascii_of_string (Py.str_rev s)).
Proof. intros H. rewrite list_of_str_rev. now apply Forall_rev. Qed.

Lemma append_bits_symbols (a : Assembler.state) (bits : string) :
  Forall is_symbol (Assembler.bytecode a) ->
  Forall is_symbol (list_ascii_of_string bits) ->
  Forall is_symbol (Assembler.bytecode (Assembler.append_bits a bits)).
Proof. intros Ha Hb. simpl. apply Forall_app. now split. Qed.

Lemma tables_are_binary :
  Forall (fun o => Forall is_symbol (list_ascii_of_string (Assembler.code o)))
         (map snd Assembler.Opcodes)
  /\ Forall (fun w => Forall is_symbol (list_ascii_of_string w))
            (map snd Assembler.DataAccessTypes).
Proof.
  split; simpl;
    repeat (apply Forall_cons;
            [simpl;
             repeat (apply Forall_cons;
                     [first [left; reflexivity | right; left; reflexivity] |]);
             apply Forall_nil |]);
    apply Forall_nil.
Qed.

Lemma assemble_register_symbols (a a' : Assembler.state) (arg : argument) :
  Forall is_symbol (Assembler.bytecode a) ->
  Assembler.assemble_register a arg = Ok a' ->
  Forall is_symbol (Assembler.bytecode a').
Proof.
  unfold Assembler.assemble_register. intros Ha H.
  assert (forall id, Forall is_symbol
                       (list_ascii_of_string (Py.str_rev (Py.format_b 4 id)))) as Hid
      by (intros; apply str_rev_symbols, format_b_symbols).
  assert (forall id, Forall is_symbol
                       (Assembler.bytecode
                          (Assembler.append_bits a
                             ("0" ++ Py.str_rev (Py.format_b 4 id))%string))) as Hval.
  { intros id. apply append_bits_symbols; [exact Ha|].
    constructor; [now left | apply Hid]. }
  destruct arg as [id [[|c r]|]|t]; try discriminate;
    try (injection H as <-; apply Hval).
  destruct (Py.dict_get String.eqb Assembler.DataAccessTypes (String c r))
    as [width|] eqn:Hw; [|discriminate].
  injection H as <-. apply append_bits_symbols; [exact Ha|].
  constructor; [right; now left|].
  rewrite list_of_string_app. apply Forall_app. split; [|apply Hid].
  apply str_rev_symbols.
  destruct tables_are_binary as (_ & Ht). rewrite Forall_forall in Ht.
  apply Ht. eapply dict_get_in; eauto.
Qed.

Lemma assemble_constant_symbols (a a' : Assembler.state) (arg : argument) :
  Forall is_symbol (Assembler.bytecode a) ->
  Assembler.assemble_constant a arg = Ok a' ->
  Forall is_symbol (Assembler.bytecode a').
Proof.
  unfold Assembler.assemble_constant. intros Ha H.
  destruct arg as [id r|t]; [discriminate|].
  destruct (Py.int 0 t); [|discriminate].
  injection H as <-. apply append_bits_symbols; [exact Ha|].
  apply str_rev_symbols, format_b_symbols.
Qed.

Lemma assemble_label_symbols (p : parser) (a a' : Assembler.state) (arg : argument) :
  Forall is_symbol (Assembler.bytecode a) ->
  Assembler.assemble_label p a arg = Ok a' ->
  Forall is_symbol (Assembler.bytecode a').
Proof.
  unfold Assembler.assemble_label. intros Ha H.
  destruct arg as [id r|t]; [discriminate|].
  destruct (Py.dict_get String.eqb (code_labels p) t) as [offset|]; [|discriminate].
  destruct (offset <? List.length (Assembler.offsets_list a))%nat;
    injection H as <-; (apply append_bits_symbols; [exact Ha|]);
    apply str_rev_symbols, format_b_symbols.
Qed.

Lemma assemble_arguments_symbols (p : parser) (kinds : list ascii) :
  forall (data : list argument) (a a' : Assembler.state),
    Forall is_symbol (Assembler.bytecode a) ->
    Assembler.assemble_arguments p a kinds data = Ok a' ->
    Forall is_symbol (Assembler.bytecode a').
Proof.
  induction kinds as [|kind kinds IH]; intros data a a' Ha H; simpl in H.
  - now injection H as <-.
  - destruct data as [|arg data]; [now injection H as <-|].
    unfold bind in H.
    destruct (Ascii.eqb kind "R").
    { destruct (Assembler.assemble_register a arg) as [a1|] eqn:H1; [|discriminate].
      eapply IH; [|exact H]. eapply assemble_register_symbols; eauto. }
    destruct (Ascii.eqb kind "C").
    { destruct (Assembler.assemble_constant a arg) as [a1|] eqn:H1; [|discriminate].
      eapply IH; [|exact H]. eapply assemble_constant_symbols; eauto. }
    destruct (Ascii.eqb kind "L").
    { destruct (Assembler.assemble_label p a arg) as [a1|] eqn:H1; [|discriminate].
      eapply IH; [|exact H]. eapply assemble_label_symbols; eauto. }
    eapply IH; eauto.
Qed.

Lemma assemble_section_symbols (p : parser) (l : list instruction) :
  forall a a',
    Forall is_symbol (Assembler.bytecode a) ->
    Assembler.assemble_section p a l = Ok a' ->
    Forall is_symbol (Assembler.bytecode a').
Proof.
  induction l as [|ins l IH]; intros a a' Ha H; simpl in H.
  - now injection H as <-.
  - unfold bind in H.
    destruct (Assembler.assemble_instruction p a ins) as [a1|] eqn:H1; [|discriminate].
    apply (IH a1); [|exact H].
    unfold Assembler.assemble_instruction in H1.
    destruct (Py.dict_get String.eqb Assembler.Opcodes (opcode_name ins))
      as [opcode|] eqn:Hop; [|discriminate].
    eapply assemble_arguments_symbols; [|exact H1].
    apply append_bits_symbols; [exact Ha|].
    destruct tables_are_binary as (Ht & _). rewrite Forall_forall in Ht.
    apply Ht. eapply dict_get_in; eauto.
Qed.

Lemma list_set_symbols {A : Type} (P : A -> Prop) (l : list A) :
  forall i x l', Py.list_set l i x = Some l' -> Forall P l -> P x -> Forall P l'.
Proof.
  induction l as [|y l IH]; intros i x l' H Hl Hx; simpl in H; [discriminate|].
  inversion Hl; subst.
  destruct i as [|i].
  - injection H as <-. now constructor.
  - destruct (Py.list_set l i x) as [r|] eqn:E; [|discriminate].
    injection H as <-. constructor; eauto.
Qed.

Lemma write_bits_symbols (bits : list ascii) :
  forall bc pos bc',
    Assembler.write_bits bc pos bits = Some bc' ->
    Forall is_symbol bc -> Forall is_symbol bits -> Forall is_symbol bc'.
Proof.
  induction bits as [|b bits IH]; intros bc pos bc' H Hbc Hbits; simpl in H.
  - now injection H as <-.
  - destruct (Py.list_set bc pos b) as [bc1|] eqn:E; [|discriminate].
    inversion Hbits; subst.
    eapply IH; eauto. eapply list_set_symbols; eauto.
Qed.

Lemma patch_all_symbols (offsets : list nat) (patches : list (nat * nat)) :
  forall bc bc',
    Assembler.patch_all offsets patches bc = Ok bc' ->
    Forall is_symbol bc -> Forall is_symbol bc'.
Proof.
  induction patches as [|[position offset] rest IH]; intros bc bc' H Hbc; simpl in H.
  - now injection H as <-.
  - destruct (nth_error offsets offset) as [address|]; [|discriminate].
    destruct (Assembler.write_bits bc position _) as [bc1|] eqn:Hw; [|discriminate].
    apply (IH bc1); [exact H|].
    eapply write_bits_symbols; eauto.
    apply str_rev_symbols, format_b_symbols.
Qed.

Lemma assemble_symbols (p : parser) (a : Assembler.state) :
  Assembler.assemble p = Ok a -> Forall is_symbol (Assembler.bytecode a).
Proof.
  unfold Assembler.assemble, bind. intros H.
  destruct (Assembler.assemble_section p Assembler.initial (code_section p))
    as [a1|] eqn:H1; [|discriminate].
  unfold Assembler.apply_patches, bind in H.
  destruct (Assembler.patch_all _ _ _) as [bc|] eqn:H2; [|discriminate].
  injection H as <-. simpl.
  eapply patch_all_symbols; [exact H2|].
  eapply assemble_section_symbols; [|exact H1]. constructor.
Qed.

Lemma pad_symbols (bc : list ascii) :
  Forall is_symbol bc -> Forall is_symbol (Assembler.pad bc).
Proof.
  intros H. unfold Assembler.pad.
  destruct (List.length bc mod 8 =? 0)%nat; [exact H|].
  apply Forall_app. split; [exact H | apply repeat_zero_symbols].
Qed.

End Symbols.

(** ** Packing the buffer into bytes *)

Section Packing.

Lemma msb_fold_nonneg (l : list ascii) (acc : Z) :
  0 <= acc -> 0 <= fold_left (fun acc c => 2 * acc + bit_of c) l acc.
Proof.
  revert acc. induction l as [|c l IH]; intros acc H; cbn [fold_left]; [exact H|].
  apply IH. unfold bit_of. destruct (Ascii.eqb c "1"); lia.
Qed.

Lemma scan_digits_symbols (l : list ascii) :
  Forall is_symbol l ->
  forall acc v rest,
    Py.scan_digits 2 (string_of_list_ascii l) false acc = Some (v, rest) ->
    Py.all_space rest = true ->
    v = fold_left (fun acc c => 2 * acc + bit_of c) l acc.
Proof.
  induction 1 as [|c l Hc Hl IH]; intros acc v rest H Hsp.
  - simpl in H. now injection H as <- <-.
  - destruct Hc as [-> | [-> | ->]].
    + change (Py.scan_digits 2 (string_of_list_ascii l) false (acc * 2 + 0)
              = Some (v, rest)) in H.
      rewrite (IH _ _ _ H Hsp). cbn [fold_left].
      replace (2 * acc + bit_of "0") with (acc * 2 + 0)
        by (change (bit_of "0") with 0; lia).
      reflexivity.
    + change (Py.scan_digits 2 (string_of_list_ascii l) false (acc * 2 + 1)
              = Some (v, rest)) in H.
      rewrite (IH _ _ _ H Hsp). cbn [fold_left].
      replace (2 * acc + bit_of "1") with (acc * 2 + 1)
        by (change (bit_of "1") with 1; lia).
      reflexivity.
    + change (Some (acc, String "-" (string_of_list_ascii l)) = Some (v, rest)) in H.
      injection H as <- <-. discriminate Hsp.
Qed.

Lemma int_magnitude_symbols (l : list ascii) (v : Z) :
  Forall is_symbol l ->
  Py.int_magnitude 2 (string_of_list_ascii l) = Some v ->
  v = msb_value l /\ 0 <= v.
Proof.
  intros Hl H.
  assert (Py.skip_prefix 2 (string_of_list_ascii l) = string_of_list_ascii l) as Hskip.
  { destruct Hl as [|c l Hc Hl]; [reflexivity|].
    destruct Hc as [-> | [-> | ->]]; try reflexivity.
    destruct Hl as [|c2 l Hc2 Hl]; [reflexivity|].
    destruct Hc2 as [-> | [-> | ->]]; reflexivity. }
  unfold Py.int_magnitude in H.
  change (Py.detect_base 2 (string_of_list_ascii l)) with (2, false) in H.
  cbv iota beta in H. rewrite Hskip in H.
  destruct (string_of_list_ascii l) as [|c s] eqn:Hs; [discriminate|].
  destruct (Py.is_digit_in 2 c); [|discriminate].
  rewrite <- Hs in H.
  destruct (Py.scan_digits 2 (string_of_list_ascii l) false 0) as [[v' rest]|] eqn:Hscan;
    [|discriminate].
  simpl in H. destruct (Py.all_space rest) eqn:Hsp; [|discriminate].
  injection H as <-.
  rewrite (scan_digits_symbols l Hl _ _ _ Hscan Hsp).
  split; [reflexivity | apply msb_fold_nonneg; lia].
Qed.

(** A group of symbols that [int(..., 2)] reads as a number that is not
    negative denotes this number, first symbol most significant; a sign in
    front of zeros counts as a zero. *)
Lemma int2_symbols (l : list ascii) (v : Z) :
  Forall is_symbol l ->
  Py.int 2 (string_of_list_ascii l) = Some v ->
  0 <= v ->
  v = msb_value l.
Proof.
  intros Hl H Hv.
  destruct Hl as [|c l Hc Hl]; [discriminate|].
  destruct Hc as [-> | [-> | ->]].
  - change (match Py.int_magnitude 2 (string_of_list_ascii ("0"%char :: l)) with
            | Some v => Some v | None => None end = Some v) in H.
    destruct (Py.int_magnitude 2 _) as [v'|] eqn:Hm; [|discriminate].
    injection H as <-. apply int_magnitude_symbols in Hm; [tauto|].
    constructor; [now left | exact Hl].
  - change (match Py.int_magnitude 2 (string_of_list_ascii ("1"%char :: l)) with
            | Some v => Some v | None => None end = Some v) in H.
    destruct (Py.int_magnitude 2 _) as [v'|] eqn:Hm; [|discriminate].
    injection H as <-. apply int_magnitude_symbols in Hm; [tauto|].
    constructor; [right; now left | exact Hl].
  - change (match Py.int_magnitude 2 (string_of_list_ascii l) with
            | Some v => Some (- v) | None => None end = Some v) in H.
    destruct (Py.int_magnitude 2 _) as [v'|] eqn:Hm; [|discriminate].
    injection H as <-. apply int_magnitude_symbols in Hm; [|exact Hl].
    destruct Hm as (Hm & Hpos). assert (v' = 0) as Hz by lia.
    rewrite Hz in Hm. rewrite Hz.
    unfold msb_value in *. cbn [fold_left].
    change (2 * 0 + bit_of "-") with 0. rewrite <- Hm. reflexivity.
Qed.

#[local] Open Scope nat_scope.

Lemma pad_spec (bc : list ascii) :
  Assembler.pad bc
  = bc ++ repeat "0"%char (8 * ((List.length bc + 7) / 8) - List.length bc)
  /\ List.length (Assembler.pad bc) = 8 * ((List.length bc + 7) / 8)
  /\ List.length (Assembler.pad bc) / 8 = (List.length bc + 7) / 8
  /\ (List.length (Assembler.pad bc) + 7) / 8 = (List.length bc + 7) / 8.
Proof.
  unfold Assembler.pad.
  pose proof (Nat.div_mod_eq (List.length bc) 8) as Hd.
  assert (8 <> 0) as H8 by lia.
  pose proof (Nat.mod_upper_bound (List.length bc) 8 H8) as Hm.
  pose proof (Nat.div_mod_eq (List.length bc + 7) 8) as Hd7.
  pose proof (Nat.mod_upper_bound (List.length bc + 7) 8 H8) as Hm7.
  destruct (Nat.eqb_spec (List.length bc mod 8) 0) as [E|E].
  - assert ((List.length bc + 7) / 8 = List.length bc / 8) as -> by lia.
    replace (8 * (List.length bc / 8) - List.length bc) with 0 by lia.
    cbn [repeat]. rewrite app_nil_r. repeat split; lia.
  - assert ((List.length bc + 7) / 8 = S (List.length bc / 8)) as -> by lia.
    replace (8 * S (List.length bc / 8) - List.length bc)
      with (8 - List.length bc mod 8) by lia.
    rewrite length_app, repeat_length.
    assert (List.length bc + (8 - List.length bc mod 8) = 8 * S (List.length bc / 8))
      as -> by lia.
    repeat split.
    + rewrite Nat.mul_comm. apply Nat.div_mul. lia.
    + pose proof (Nat.div_mod_eq (8 * S (List.length bc / 8) + 7) 8).
      pose proof (Nat.mod_upper_bound (8 * S (List.length bc / 8) + 7) 8 H8). lia.
Qed.

Lemma Forall2_nth_error {A B : Type} (P : A -> B -> Prop) (l : list A) (l' : list B) :
  Forall2 P l l' ->
  List.length l = List.length l'
  /\ forall k x, nth_error l k = Some x -> exists y, nth_error l' k = Some y /\ P x y.
Proof.
  induction 1 as [|x y l l' Hxy HF (IHl & IHn)]; simpl.
  - split; [reflexivity|]. intros [|k] x H; discriminate H.
  - split; [lia|]. intros [|k] z H; simpl in *.
    + injection H as <-. eauto.
    + eauto.
Qed.

Lemma nth_error_range8 (n k : nat) :
  k < (n + 7) / 8 -> nth_error (Assembler.range8 n) k = Some (8 * k).
Proof.
  intros H. unfold Assembler.range8.
  rewrite nth_error_map, nth_error_seq.
  destruct (Nat.ltb_spec k ((n + 7) / 8)); [reflexivity | lia].
Qed.

End Packing.

Section Layout.

Lemma Forall_slice {A : Type} (P : A -> Prop) (l : list A) (pos n : nat) :
  Forall P l -> Forall P (slice l pos n).
Proof.
  intros H. unfold slice.
  rewrite <- (firstn_skipn pos l) in H. apply Forall_app in H. destruct H as (_ & H).
  rewrite <- (firstn_skipn n (skipn pos l)) in H. apply Forall_app in H. tauto.
Qed.

Lemma write_file_success (bc : list ascii) (size : Z) (data bytes : list Z) :
  Forall is_symbol bc ->
  Assembler.write_file bc size data = (bytes, None) ->
  exists code_bytes,
    bytes = Assembler.magic
              ++ le32_bytes (Z.of_nat (List.length bc / 8))
              ++ le32_bytes size
              ++ le32_bytes (Z.of_nat (List.length data))
              ++ code_bytes ++ data
    /\ 0 <= Z.of_nat (List.length bc / 8) < 2 ^ 32
    /\ 0 <= size < 2 ^ 32
    /\ 0 <= Z.of_nat (List.length data) < 2 ^ 32
    /\ List.length code_bytes = ((List.length bc + 7) / 8)%nat
    /\ (forall k, (k < (List.length bc + 7) / 8)%nat ->
                  nth_error code_bytes k = Some (msb_value (slice bc (8 * k) 8)))
    /\ Forall (fun b => 0 <= b <= 255) data.
Proof.
  unfold Assembler.write_file. intros Hsym H.
  destruct (Py.pack_I (Z.of_nat (List.length bc / 8))) as [b1|] eqn:H1; [|discriminate].
  destruct (pack_I_spec _ _ H1) as (R1 & ->).
  destruct (Py.pack_I size) as [b2|] eqn:H2; [|discriminate].
  destruct (pack_I_spec _ _ H2) as (R2 & ->).
  destruct (Py.pack_I (Z.of_nat (List.length data))) as [b3|] eqn:H3; [|discriminate].
  destruct (pack_I_spec _ _ H3) as (R3 & ->).
  destruct (Assembler.write_code bc _ _) as [out1 e1] eqn:Hc.
  destruct (write_code_spec _ _ _ _ _ Hc) as (cs & -> & Hcs).
  destruct e1 as [e1|]; [discriminate|].
  destruct (write_data_spec _ _ _ _ H) as (ds & -> & Hds).
  destruct (Hds eq_refl) as (-> & Hbytes).
  destruct (Forall2_nth_error _ _ _ (Hcs eq_refl)) as (Hlen & Hnth).
  unfold Assembler.range8 in Hlen. rewrite length_map, length_seq in Hlen.
  exists cs. repeat split; try lia; try assumption.
  intros k Hk.
  destruct (Hnth _ _ (nth_error_range8 _ _ Hk)) as (y & Hy & Hv & Hr).
  rewrite Hy. f_equal. unfold Assembler.chunk_value in Hv.
  apply int2_symbols; [|exact Hv|lia].
  now apply (Forall_slice is_symbol bc (8 * k) 8).
Qed.

(** What a [build] that raises nothing has done. *)
Lemma build_success (p p' : parser) (o : Assembler.outcome) :
  Assembler.build p = (p', o) ->
  Assembler.raised o = None ->
  exists a declared code_bytes,
    Assembler.assemble p = Ok a
    /\ data_size p = Some declared
    /\ Assembler.file o
       = Some (Assembler.magic
                 ++ le32_bytes (Z.of_nat ((List.length (Assembler.bytecode a) + 7) / 8))
                 ++ le32_bytes (Z.max declared (Z.of_nat (List.length (data_section p))))
                 ++ le32_bytes (Z.of_nat (List.length (data_section p)))
                 ++ code_bytes ++ data_section p)
    /\ 0 <= Z.of_nat ((List.length (Assembler.bytecode a) + 7) / 8) < 2 ^ 32
    /\ 0 <= Z.max declared (Z.of_nat (List.length (data_section p))) < 2 ^ 32
    /\ 0 <= Z.of_nat (List.length (data_section p)) < 2 ^ 32
    /\ List.length code_bytes = ((List.length (Assembler.bytecode a) + 7) / 8)%nat
    /\ (forall k, (k < (List.length (Assembler.bytecode a) + 7) / 8)%nat ->
                  nth_error code_bytes k
                  = Some (msb_value
                            (slice (Assembler.bytecode a
                                      ++ repeat "0"%char
                                           (8 * ((List.length (Assembler.bytecode a) + 7) / 8)
                                            - List.length (Assembler.bytecode a)))
                                   (8 * k) 8)))
    /\ Forall (fun b => 0 <= b <= 255) (data_section p).
Proof.
  unfold Assembler.build. intros H Hr.
  destruct (Assembler.assemble p) as [a|] eqn:Ha; [|injection H as <- <-; discriminate].
  destruct (data_size p) as [declared|]; [|injection H as <- <-; discriminate].
  destruct (Assembler.write_file _ _ _) as [out e] eqn:Hw.
  injection H as <- <-. simpl in Hr. subst e.
  pose proof (pad_symbols _ (assemble_symbols _ _ Ha)) as Hsym.
  destruct (write_file_success _ _ _ _ Hsym Hw)
    as (cs & -> & R1 & R2 & R3 & Hlen & Hnth & Hdata).
  destruct (pad_spec (Assembler.bytecode a)) as (Hpad & _ & Hdiv & Hceil).
  rewrite Hceil in Hlen, Hnth. rewrite Hdiv in R1. rewrite Hpad in Hnth.
  assert ((if Z.of_nat (List.length (data_section p)) >? declared
           then Z.of_nat (List.length (data_section p)) else declared)
          = Z.max declared (Z.of_nat (List.length (data_section p)))) as Hmax.
  { destruct (Z.gtb_spec (Z.of_nat (List.length (data_section p))) declared); lia. }
  rewrite Hmax in *.
  exists a, declared, cs.
  split; [reflexivity|]. split; [reflexivity|]. split.
  { cbn [Assembler.file]. rewrite Hdiv. reflexivity. }
  repeat split; try lia; assumption.
Qed.

(** C8: a run that ends normally has written, in this order, the magic
    [ESET-VM2], the number of code bytes (the number of emitted symbols
    divided by 8 and rounded up), the data size, the number of data bytes,
    each as four bytes with the least significant first, then the code
    bytes, each the value of 8 successive symbols of the zero-padded buffer
    with the first one most significant, then the data bytes. *)
Theorem output_file_layout (input : string) :
  exit (main input) = Exit 0 ->
  exists p a declared code_bytes,
    Parser.analyse (Lexer.analyse (readlines input)) = (p, None)
    /\ Assembler.assemble p = Ok a
    /\ data_size p = Some declared
    /\ Assembler.magic
       = map (fun c => Z.of_nat (nat_of_ascii c)) (list_ascii_of_string "ESET-VM2")
    /\ output (main input)
       = Some (Assembler.magic
                 ++ le32_bytes (Z.of_nat ((List.length (Assembler.bytecode a) + 7) / 8))
                 ++ le32_bytes (Z.max declared (Z.of_nat (List.length (data_section p))))
                 ++ le32_bytes (Z.of_nat (List.length (data_section p)))
                 ++ code_bytes ++ data_section p)
    /\ 0 <= Z.of_nat ((List.length (Assembler.bytecode a) + 7) / 8) < 2 ^ 32
    /\ 0 <= Z.max declared (Z.of_nat (List.length (data_section p))) < 2 ^ 32
    /\ 0 <= Z.of_nat (List.length (data_section p)) < 2 ^ 32
    /\ List.length code_bytes = ((List.length (Assembler.bytecode a) + 7) / 8)%nat
    /\ (forall k, (k < (List.length (Assembler.bytecode a) + 7) / 8)%nat ->
                  nth_error code_bytes k
                  = Some (msb_value
                            (slice (Assembler.bytecode a
                                      ++ repeat "0"%char
                                           (8 * ((List.length (Assembler.bytecode a) + 7) / 8)
                                            - List.length (Assembler.bytecode a)))
                                   (8 * k) 8)))
    /\ Forall (fun b => 0 <= b <= 255) (data_section p).
Proof.
  unfold main. intros H.
  destruct (Parser.analyse (Lexer.analyse (readlines input))) as [p [e|]].
  - destruct e; discriminate H.
  - destruct (Assembler.build p) as [p' o] eqn:Hb.
    destruct (Assembler.raised o) as [e|] eqn:Hr.
    + destruct e; discriminate H.
    + destruct (build_success _ _ _ Hb Hr)
        as (a & declared & cs & Ha & Hd & Hf & R1 & R2 & R3 & Hlen & Hnth & Hdata).
      exists p, a, declared, cs.
      split; [reflexivity|]. split; [exact Ha|]. split; [exact Hd|].
      split; [reflexivity|]. split; [exact Hf|].
      repeat split; try lia; assumption.
Qed.

End Layout.

Lemma output_file_layout_witness :
  exit (main widened_source) = Exit 0
  /\ stdout (main widened_source)
     = ["Warning: bad .dataSize, was 2 but used 4, expanding"; "All ok"]%string
  /\ exists p a declared code_bytes,
    Parser.analyse (Lexer.analyse (readlines widened_source)) = (p, None)
    /\ Assembler.assemble p = Ok a
    /\ data_size p = Some declared
    /\ Assembler.magic
       = map (fun c => Z.of_nat (nat_of_ascii c)) (list_ascii_of_string "ESET-VM2")
    /\ output (main widened_source)
       = Some (Assembler.magic
                 ++ le32_bytes (Z.of_nat ((List.length (Assembler.bytecode a) + 7) / 8))
                 ++ le32_bytes (Z.max declared (Z.of_nat (List.length (data_section p))))
                 ++ le32_bytes (Z.of_nat (List.length (data_section p)))
                 ++ code_bytes ++ data_section p)
    /\ 0 <= Z.of_nat ((List.length (Assembler.bytecode a) + 7) / 8) < 2 ^ 32
    /\ 0 <= Z.max declared (Z.of_nat (List.length (data_section p))) < 2 ^ 32
    /\ 0 <= Z.of_nat (List.length (data_section p)) < 2 ^ 32
    /\ List.length code_bytes = ((List.length (Assembler.bytecode a) + 7) / 8)%nat
    /\ (forall k, (k < (List.length (Assembler.bytecode a) + 7) / 8)%nat ->
                  nth_error code_bytes k
                  = Some (msb_value
                            (slice (Assembler.bytecode a
                                      ++ repeat "0"%char
                                           (8 * ((List.length (Assembler.bytecode a) + 7) / 8)
                                            - List.length (Assembler.bytecode a)))
                                   (8 * k) 8)))
    /\ Forall (fun b => 0 <= b <= 255) (data_section p).
Proof.
  split; [vm_compute; reflexivity|].
  split; [vm_compute; reflexivity|].
  apply (output_file_layout widened_source). vm_compute; reflexivity.
Defined.

(** ** Parse errors *)

Section ParseErrors.

Lemma analyse_loop_app (pre rest : list Lexer.item) :
  forall p,
    Parser.analyse_loop p (pre ++ rest)
    = match Parser.analyse_loop p pre with
      | (p', None) => Parser.analyse_loop p' rest
      | (p', Some e) => (p', Some e)
      end.
Proof.
  induction pre as [|[[n line] tokens] pre IH]; intros p; simpl; [reflexivity|].
  destruct (Parser.parse_line (Parser.set_last_parsed p n line) tokens) as [p' [e|]];
    [reflexivity | apply IH].
Qed.

Lemma parse_data_line_no (tokens : list string) :
  forall p p' e,
    Parser.parse_data p tokens = (p', e) ->
    last_parsed_line_no p' = last_parsed_line_no p.
Proof.
  induction tokens as [|entry rest IH]; intros p p' e H; simpl in H.
  - now injection H as <- <-.
  - destruct (Py.int 16 entry) as [value|]; [|now injection H as <- <-].
    destruct (value >? 255); [now injection H as <- <-|].
    now rewrite (IH _ _ _ H).
Qed.

(** A line that fails leaves its number in [last_parsed_line_no]. *)
Lemma parse_line_raises_line_no (p p' : parser) (tokens : list string) (e : exn) :
  Parser.parse_line p tokens = (p', Some e) ->
  last_parsed_line_no p' = last_parsed_line_no p.
Proof.
  unfold Parser.parse_line. intros H.
  destruct tokens as [|t0 rest]; [now injection H as <- <-|].
  destruct (Py.startswith "." t0).
  { unfold Parser.parse_section in H.
    destruct (String.eqb t0 ".dataSize").
    { destruct (data_size p); [now injection H as <- <-|].
      destruct rest as [|t1 rest']; [now injection H as <- <-|].
      destruct (Py.int 10 t1); [discriminate | now injection H as <- <-]. }
    destruct (String.eqb t0 ".code"); [discriminate|].
    destruct (String.eqb t0 ".data"); [discriminate|].
    now injection H as <- <-. }
  destruct ((List.length (t0 :: rest) =? 1)%nat && Py.endswith ":" t0).
  { unfold Parser.parse_label in H.
    destruct (parse_mode p) as [[|]|].
    - destruct (Py.dict_mem String.eqb (data_labels p) (Py.drop_last t0));
        [now injection H as <- <- | discriminate].
    - destruct (Py.dict_mem String.eqb (code_labels p) (Py.drop_last t0));
        [now injection H as <- <- | discriminate].
    - now injection H as <- <-. }
  destruct (parse_mode p) as [[|]|].
  - eapply parse_data_line_no; eauto.
  - unfold Parser.parse_code in H.
    destruct (Py.dict_get String.eqb Assembler.Opcodes t0) as [opcode|];
      [|now injection H as <- <-].
    destruct (negb _); [now injection H as <- <-|].
    destruct (Parser.parse_arguments _ _); [discriminate | now injection H as <- <-].
  - now injection H as <- <-.
Qed.

(** What [main] does with a [Parser.Error]. *)
Lemma main_reports_parser_error (input : string) (pre post : list Lexer.item)
      (n : Z) (line : string) (tokens : list string) (p p' : parser) (msg : string) :
  Lexer.analyse (readlines input) = pre ++ (n, line, tokens) :: post ->
  Parser.analyse pre = (p, None) ->
  Parser.parse_line (Parser.set_last_parsed p n line) tokens
  = (p', Some (ParserError msg)) ->
  main input
  = {| exit := Exit 2;
       stdout := [("Parser error on line " ++ Py.format_d n ++ ": " ++ msg)%string];
       output := None |}.
Proof.
  intros Hlex Hpre Hline. unfold main, Parser.analyse. rewrite Hlex, analyse_loop_app.
  unfold Parser.analyse in Hpre. rewrite Hpre. simpl. rewrite Hline.
  unfold Parser.raises.
  now rewrite (parse_line_raises_line_no _ _ _ _ Hline).
Qed.

End ParseErrors.

Section RegisterIds.

Lemma dec_digit_cases (c : ascii) : Py.is_dec_digit c = true -> In c dec_digits.
Proof.
  destruct c as [[] [] [] [] [] [] [] []]; intros H; vm_compute in H;
    try discriminate H; unfold dec_digits; simpl; tauto.
Qed.

Lemma span_digits_all (s : string) :
  forall d t,
    Py.span_digits s = (d, t) ->
    Forall (fun c => In c dec_digits) (list_ascii_of_string d).
Proof.
  induction s as [|c s IH]; intros d t H; simpl in H.
  - injection H as <- <-. constructor.
  - destruct (Py.is_dec_digit c) eqn:Hc.
    + destruct (Py.span_digits s) as [d' t'] eqn:Hs. injection H as <- <-.
      simpl. constructor; [now apply dec_digit_cases | eauto].
    + injection H as <- <-. constructor.
Qed.

Lemma scan_dec_digits (l : list ascii) :
  Forall (fun c => In c dec_digits) l ->
  forall acc, exists v,
    Py.scan_digits 10 (string_of_list_ascii l) false acc = Some (v, ""%string).
Proof.
  induction 1 as [|c l Hc Hl IH]; intros acc.
  - exists acc. reflexivity.
  - unfold dec_digits in Hc. simpl in Hc.
    repeat (destruct Hc as [<-|Hc]; [apply IH|]). destruct Hc.
Qed.

Lemma int10_digits (d : string) :
  d <> ""%string ->
  Forall (fun c => In c dec_digits) (list_ascii_of_string d) ->
  exists v, Py.int 10 d = Some v.
Proof.
  intros Hne Hd. destruct d as [|c s]; [congruence|]. clear Hne.
  destruct (scan_dec_digits _ Hd 0) as (v & Hv).
  rewrite string_of_list_ascii_of_string in Hv.
  exists v. inversion Hd as [|c' l' Hc Hl]; subst.
  assert (Py.skip_prefix 10 (String c s) = String c s) as Hskip.
  { unfold dec_digits in Hc. simpl in Hc.
    repeat (destruct Hc as [<-|Hc]; [try reflexivity; destruct s; reflexivity|]).
    destruct Hc. }
  assert (Py.int_magnitude 10 (String c s) = Some v) as Hm.
  { unfold Py.int_magnitude.
    change (Py.detect_base 10 (String c s)) with (10, false).
    cbv iota beta. rewrite Hskip.
    assert (Py.is_digit_in 10 c = true) as ->.
    { unfold dec_digits in Hc. simpl in Hc.
      repeat (destruct Hc as [<-|Hc]; [reflexivity|]). destruct Hc. }
    rewrite Hv. reflexivity. }
  unfold dec_digits in Hc. simpl in Hc.
  assert (forall c0, c0 = c ->
            Py.int 10 (String c0 s)
            = match Py.int_magnitude 10 (String c0 s) with
              | Some v => Some v
              | None => None
              end) as Hsign.
  { intros c0 E.
    repeat (destruct Hc as [Hc|Hc]; [rewrite E, <- Hc; reflexivity|]).
    destruct Hc. }
  now rewrite (Hsign c eq_refl), Hm.
Qed.

Lemma match_bracketed_digits (s d : string) :
  Py.match_bracketed s = Some d ->
  d <> ""%string /\ Forall (fun c => In c dec_digits) (list_ascii_of_string d).
Proof.
  unfold Py.match_bracketed. intros H.
  destruct (Py.lstrip s) as [|c1 s1]; [discriminate|].
  destruct (Ascii.eqb c1 "["); [|discriminate].
  destruct (Py.lstrip s1) as [|c2 s2]; [discriminate|].
  destruct (Ascii.eqb c2 "r"); [|discriminate].
  destruct (Py.span_digits s2) as [d' s3] eqn:Hs.
  destruct d' as [|c d']; [discriminate|]. simpl in H.
  destruct (Py.lstrip s3) as [|c3 s4]; [discriminate|].
  destruct (Ascii.eqb c3 "]"); [|discriminate].
  injection H as <-. split; [discriminate | eapply span_digits_all; eauto].
Qed.

Lemma match_register_ref_digits (keys : list string) (s k d : string) :
  Py.match_register_ref keys s = Some (k, d) ->
  d <> ""%string /\ Forall (fun c => In c dec_digits) (list_ascii_of_string d).
Proof.
  induction keys as [|key keys IH]; simpl; [discriminate|].
  destruct (Py.strip_prefix key s) as [r|]; [|exact IH].
  destruct (Py.match_bracketed r) as [d'|] eqn:Hb; [|exact IH].
  intros H. injection H as <- <-. eapply match_bracketed_digits; eauto.
Qed.

(** The text of group [id] always converts to an integer. *)
Lemma match_register_int (arg id : string) (ref : option string) :
  Parser.match_register arg = Some (id, ref) -> exists v, Py.int 10 id = Some v.
Proof.
  unfold Parser.match_register. intros H.
  destruct (Py.match_register_val arg) as [d|] eqn:Hv.
  - injection H as <- <-. unfold Py.match_register_val in Hv.
    destruct arg as [|c r]; [discriminate|].
    destruct (Ascii.eqb c "r"); [|discriminate].
    destruct (Py.span_digits r) as [d' t] eqn:Hs.
    destruct d' as [|c' d']; [discriminate|]. simpl in Hv. injection Hv as <-.
    apply int10_digits; [discriminate | eapply span_digits_all; eauto].
  - destruct (Py.match_register_ref _ arg) as [[k d]|] eqn:Hr; [|discriminate].
    injection H as <- <-.
    destruct (match_register_ref_digits _ _ _ _ Hr). now apply int10_digits.
Qed.

Lemma parse_argument_error (kind : ascii) (arg : string) (e : exn) :
  kind = "R"%char \/ kind = "C"%char \/ kind = "L"%char ->
  Parser.parse_argument kind arg = Raise e ->
  exists msg, e = ParserError msg.
Proof.
  intros [-> | [-> | ->]] H; try discriminate H.
  unfold Parser.parse_argument in H.
  change (Ascii.eqb "R" "R") with true in H. cbv iota in H.
  destruct (Parser.match_register arg) as [[id ref]|] eqn:Hm;
    [|injection H as <-; eauto].
  destruct (match_register_int _ _ _ Hm) as (v & Hv). rewrite Hv in H.
  destruct (v >? 16); [injection H as <-; eauto | discriminate].
Qed.

Lemma parse_arguments_too_big (kinds : list ascii) :
  Forall (fun c => c = "R"%char \/ c = "C"%char \/ c = "L"%char) kinds ->
  forall (data : list string) (k : nat) (arg id : string) (ref : option string) (v : Z),
    nth_error kinds k = Some "R"%char ->
    nth_error data k = Some arg ->
    Parser.match_register arg = Some (id, ref) ->
    Py.int 10 id = Some v ->
    v > 16 ->
    exists msg, Parser.parse_arguments kinds data = Raise (ParserError msg).
Proof.
  induction 1 as [|kind kinds Hkind Hkinds IH];
    intros data k arg id ref v Hk Hd Hm Hv Hbig.
  - destruct k; discriminate Hk.
  - destruct data as [|arg0 data]; [destruct k; discriminate Hd|].
    cbn [Parser.parse_arguments]. unfold bind.
    destruct k as [|k]; simpl in Hk, Hd.
    + injection Hk as ->. injection Hd as ->.
      unfold Parser.parse_argument.
      change (Ascii.eqb "R" "R") with true. cbv iota.
      rewrite Hm, Hv.
      destruct (Z.gtb_spec v 16); [eauto | lia].
    + destruct (Parser.parse_argument kind arg0) as [a0|e] eqn:H0.
      * destruct (IH data k arg id ref v Hk Hd Hm Hv Hbig) as (msg & ->). eauto.
      * destruct (parse_argument_error _ _ _ Hkind H0) as (msg & ->). eauto.
Qed.

Lemma dict_get_key {V : Type} (d : list (string * V)) (k : string) (v : V) :
  Py.dict_get String.eqb d k = Some v -> In k (map fst d).
Proof.
  induction d as [|[k' v'] d IH]; simpl; [discriminate|].
  destruct (String.eqb_spec k k'); [intros _; now left | auto].
Qed.

Lemma opcode_names_plain (t : string) (opcode : Assembler.Opcode) :
  Py.dict_get String.eqb Assembler.Opcodes t = Some opcode ->
  Py.startswith "." t = false.
Proof.
  intros H. apply dict_get_key in H. revert t H. apply Forall_forall.
  simpl. repeat (apply Forall_cons; [reflexivity|]). apply Forall_nil.
Qed.

Lemma offending_line_raises (p : parser) (tokens : list string) :
  offending p tokens ->
  exists msg, Parser.parse_line p tokens = (p, Some (ParserError msg)).
Proof.
  intros H. destruct H as [t Hdot Hcolon Hmode Hdup | t Hdot Hcolon Hmode Hdup
                          | t rest Hdot Hcolon Hmode Hop
                          | t rest opcode k arg id ref v Hmode Hop Hk Harg Hm Hv Hbig];
    unfold Parser.parse_line.
  - rewrite Hdot, Hcolon. simpl. unfold Parser.parse_label.
    rewrite Hmode, Hdup. eexists; reflexivity.
  - rewrite Hdot, Hcolon. simpl. unfold Parser.parse_label.
    rewrite Hmode, Hdup. eexists; reflexivity.
  - rewrite Hdot.
    assert ((List.length (t :: rest) =? 1)%nat && Py.endswith ":" t = false) as ->.
    { destruct rest as [|r rest]; [now rewrite Hcolon, andb_false_r | reflexivity]. }
    rewrite Hmode. unfold Parser.parse_code. rewrite Hop. eexists; reflexivity.
  - rewrite (opcode_names_plain _ _ Hop).
    assert ((List.length (t :: rest) =? 1)%nat && Py.endswith ":" t = false) as ->.
    { destruct rest as [|r rest]; [destruct k; discriminate Harg | reflexivity]. }
    rewrite Hmode. unfold Parser.parse_code. rewrite Hop.
    destruct (negb _); [eexists; reflexivity|].
    destruct (opcode_table_shape _ _ Hop) as (_ & Hshape).
    destruct (parse_arguments_too_big _ Hshape _ _ _ _ _ _ Hk Harg Hm Hv Hbig)
      as (msg & ->).
    eexists; reflexivity.
Qed.

End RegisterIds.

(** C7: when the first line the parser cannot accept defines a label a
    second time, names an unknown opcode, or has a register id above 16,
    the run prints [Parser error on line <N>: <msg>] with the number of that
    line, ends with status 2, and never opens the output file. *)
Theorem offending_line_is_a_parse_error
        (input : string) (pre post : list Lexer.item)
        (n : Z) (line : string) (tokens : list string) (p : parser) :
  Lexer.analyse (readlines input) = pre ++ (n, line, tokens) :: post ->
  Parser.analyse pre = (p, None) ->
  offending p tokens ->
  exists msg,
    main input
    = {| exit := Exit 2;
         stdout := [("Parser error on line " ++ Py.format_d n ++ ": " ++ msg)%string];
         output := None |}.
Proof.
  intros Hlex Hpre Hoff.
  assert (offending (Parser.set_last_parsed p n line) tokens) as Hoff'.
  { destruct Hoff;
      [apply duplicate_code_label | apply duplicate_data_label
       | apply unknown_opcode | eapply register_too_big]; eauto. }
  destruct (offending_line_raises _ _ Hoff') as (msg & Hline).
  exists msg. eapply main_reports_parser_error; eauto.
Qed.

Lemma offending_line_witness :
  (exists msg,
      main twice_source
      = {| exit := Exit 2;
           stdout := [("Parser error on line " ++ Py.format_d 4 ++ ": " ++ msg)%string];
           output := None |})
  /\ (exists msg,
         main twice_data_source
         = {| exit := Exit 2;
              stdout := [("Parser error on line " ++ Py.format_d 4 ++ ": " ++ msg)%string];
              output := None |})
  /\ (exists msg,
         main nop_source
         = {| exit := Exit 2;
              stdout := [("Parser error on line " ++ Py.format_d 2 ++ ": " ++ msg)%string];
              output := None |})
  /\ (exists msg,
         main r17_source
         = {| exit := Exit 2;
              stdout := [("Parser error on line " ++ Py.format_d 2 ++ ": " ++ msg)%string];
              output := None |}).
Proof.
  split; [|split; [|split]].
  - apply (offending_line_is_a_parse_error
             twice_source
             [(1, ".code", [".code"]); (2, "lbl:", ["lbl:"]); (3, "hlt", ["hlt"])]%string
             [(5, "hlt", ["hlt"])]%string
             4 "lbl:" ["lbl:"]%string twice_parser).
    + vm_compute; reflexivity.
    + vm_compute; reflexivity.
    + apply duplicate_code_label; reflexivity.
  - apply (offending_line_is_a_parse_error
             twice_data_source
             [(1, ".data", [".data"]); (2, "x:", ["x:"]); (3, "00", ["00"])]%string
             [] 4 "x:" ["x:"]%string twice_data_parser).
    + vm_compute; reflexivity.
    + vm_compute; reflexivity.
    + apply duplicate_data_label; reflexivity.
  - apply (offending_line_is_a_parse_error
             nop_source [(1, ".code", [".code"])]%string [] 2 "nop" ["nop"]%string
             code_mode_parser).
    + vm_compute; reflexivity.
    + vm_compute; reflexivity.
    + apply unknown_opcode; [reflexivity | reflexivity | reflexivity | reflexivity].
  - apply (offending_line_is_a_parse_error
             r17_source [(1, ".code", [".code"])]%string [] 2 "mov r17, byte[r2]"
             ["mov"; "r17,"; "byte[r2]"]%string code_mode_parser).
    + vm_compute; reflexivity.
    + vm_compute; reflexivity.
    + apply (register_too_big code_mode_parser "mov" ["r17,"; "byte[r2]"]%string
               {| Assembler.code := "000"; Assembler.args := "RR" |}
               0 "r17" "17" None 17); reflexivity.
Defined.


(** * Further properties of the code *)

(** ** The lexer *)

Section LexerItems.

Lemma analyse_from_spec (lines : list string) :
  forall (base n : Z) (line : string) (tokens : list string),
    In (n, line, tokens) (Lexer.analyse_from base lines)
    <-> exists k,
          n = base + Z.of_nat k + 1
          /\ nth_error lines k = Some line
          /\ tokens = Py.split (Py.before "#" line)
          /\ tokens <> [].
Proof.
  induction lines as [|l lines IH]; intros base n line tokens; simpl.
  - split; [intros [] | intros ([|k] & _ & H & _); discriminate H].
  - assert (In (n, line, tokens) (Lexer.analyse_from (base + 1) lines)
            <-> exists k, n = base + Z.of_nat (S k) + 1
                          /\ nth_error lines k = Some line
                          /\ tokens = Py.split (Py.before "#" line)
                          /\ tokens <> []) as Htail.
    { rewrite IH. split; intros (k & Hn & H); exists k; (split; [lia | exact H]). }
    destruct (Py.split (Py.before "#" l)) as [|t ts] eqn:Hl.
    + rewrite Htail. split.
      * intros (k & H). exists (S k). exact H.
      * intros ([|k] & Hn & Hk & Ht & Hne); [|exists k; auto].
        simpl in Hk. injection Hk as <-. congruence.
    + simpl. rewrite Htail. split.
      * intros [H|(k & H)]; [|exists (S k); exact H].
        injection H as <- <- <-. exists 0%nat.
        repeat split; [simpl; lia | now rewrite Hl | discriminate].
      * intros ([|k] & Hn & Hk & Ht & Hne); [left | right; exists k; auto].
        simpl in Hk. injection Hk as <-. subst. simpl. rewrite Hl.
        f_equal. f_equal. lia.
Qed.

Lemma analyse_from_numbers (lines : list string) :
  forall base,
    Forall (fun it => base < fst (fst it)) (Lexer.analyse_from base lines)
    /\ StronglySorted Z.lt (map (fun it => fst (fst it)) (Lexer.analyse_from base lines)).
Proof.
  induction lines as [|l lines IH]; intros base; simpl.
  - split; constructor.
  - destruct (IH (base + 1)) as (Hlow & Hsorted).
    assert (Forall (fun it : Lexer.item => base < fst (fst it))
                   (Lexer.analyse_from (base + 1) lines)) as Hlow'.
    { eapply Forall_impl; [|exact Hlow]. simpl. intros; lia. }
    destruct (Py.split (Py.before "#" l)) as [|t ts]; [now split|].
    split.
    + constructor; [simpl; lia | exact Hlow'].
    + simpl. constructor; [exact Hsorted|].
      apply Forall_map. exact Hlow.
Qed.

(** The lexer yields exactly the lines that hold a token outside of a
    comment, each with its position in the file counted from 1 (blank and
    comment lines count), and yields them in increasing order. *)
Theorem lexer_yields_numbered_lines (lines : list string) :
  (forall n line tokens,
      In (n, line, tokens) (Lexer.analyse lines)
      <-> exists k,
            n = Z.of_nat k + 1
            /\ nth_error lines k = Some line
            /\ tokens = Py.split (Py.before "#" line)
            /\ tokens <> [])
  /\ StronglySorted Z.lt (map (fun it => fst (fst it)) (Lexer.analyse lines)).
Proof.
  split.
  - intros n line tokens. unfold Lexer.analyse. rewrite analyse_from_spec.
    split; intros (k & Hn & H); exists k; (split; [lia | exact H]).
  - apply analyse_from_numbers.
Qed.

End LexerItems.

Section LexerTokens.

Lemma split_from_tokens (s : string) :
  forall cur t,
    Forall (fun c => Py.is_space c = false) (chars cur) ->
    In t (Py.split_from s cur) ->
    t <> ""%string
    /\ forall c, In c (chars t) ->
                 Py.is_space c = false /\ (In c (chars cur) \/ In c (chars s)).
Proof.
  induction s as [|c r IH]; intros cur t Hcur Ht; simpl in Ht.
  - destruct cur as [|c0 cur]; simpl in Ht; [destruct Ht|].
    destruct Ht as [<-|[]]. split; [discriminate|].
    intros c Hc. rewrite Forall_forall in Hcur. auto.
  - destruct (Py.is_space c) eqn:Hsp.
    + assert (In t (Py.split_from r "") ->
              t <> ""%string
              /\ forall c0, In c0 (chars t) ->
                            Py.is_space c0 = false
                            /\ (In c0 (chars cur) \/ In c0 (chars (String c r)))) as Hrest.
      { intros H. destruct (IH ""%string t (Forall_nil _) H) as (Hne & Hch).
        split; [exact Hne|]. intros c0 Hc0. destruct (Hch c0 Hc0) as (Hs & [[]|Hin]).
        split; [exact Hs|]. right. now right. }
      destruct cur as [|c0 cur]; simpl in Ht; [now apply Hrest|].
      destruct Ht as [<-|Ht]; [|now apply Hrest].
      split; [discriminate|]. intros c1 Hc1. rewrite Forall_forall in Hcur. auto.
    + assert (Forall (fun c0 => Py.is_space c0 = false) (chars (cur ++ String c ""))) as Hcur'.
      { unfold chars. rewrite list_of_string_app. apply Forall_app. split; [exact Hcur|].
        constructor; [exact Hsp | constructor]. }
      destruct (IH _ t Hcur' Ht) as (Hne & Hch). split; [exact Hne|].
      intros c0 Hc0. destruct (Hch c0 Hc0) as (Hs & Hin). split; [exact Hs|].
      unfold chars in Hin. rewrite list_of_string_app in Hin.
      destruct Hin as [Hin|Hin]; [|right; now right].
      apply in_app_or in Hin. destruct Hin as [Hin|[<-|[]]]; [now left | right; now left].
Qed.

Lemma before_chars (sep : ascii) (s : string) (c : ascii) :
  In c (chars (Py.before sep s)) -> In c (chars s) /\ c <> sep.
Proof.
  induction s as [|d s IH]; simpl; [intros []|].
  destruct (Ascii.eqb_spec d sep) as [->|Hd]; simpl; [intros []|].
  intros [<-|H]; [split; [now left | exact Hd]|].
  destruct (IH H). split; [now right | assumption].
Qed.

(** Every token the lexer hands to the parser is a non-empty piece of its
    line, free of blanks and of the comment character, and no item comes
    without a token. *)
Theorem lexer_tokens_are_clean (lines : list string)
        (n : Z) (line : string) (tokens : list string) :
  In (n, line, tokens) (Lexer.analyse lines) ->
  tokens <> []
  /\ Forall (fun t => t <> ""%string
                      /\ forall c, In c (chars t) ->
                                   Py.is_space c = false
                                   /\ c <> "#"%char
                                   /\ In c (chars line)) tokens.
Proof.
  intros H. unfold Lexer.analyse in H. apply analyse_from_spec in H.
  destruct H as (k & _ & _ & -> & Hne). split; [exact Hne|].
  apply Forall_forall. intros t Ht. unfold Py.split in Ht.
  destruct (split_from_tokens _ ""%string t (Forall_nil _) Ht) as (Hnt & Hch).
  split; [exact Hnt|]. intros c Hc.
  destruct (Hch c Hc) as (Hs & [[]|Hin]).
  destruct (before_chars _ _ _ Hin). auto.
Qed.

Lemma lexer_tokens_witness :
  In (2, "  jump  end # go"%string, ["jump"; "end"]%string)
     (Lexer.analyse ["# header"; "  jump  end # go"]%string)
  /\ ["jump"; "end"]%string <> []
  /\ Forall (fun t => t <> ""%string
                      /\ forall c, In c (chars t) ->
                                   Py.is_space c = false
                                   /\ c <> "#"%char
                                   /\ In c (chars "  jump  end # go")) ["jump"; "end"]%string.
Proof.
  split; [left; reflexivity|].
  apply (lexer_tokens_are_clean ["# header"; "  jump  end # go"]%string 2).
  left; reflexivity.
Defined.

End LexerTokens.

(** ** What the parser maintains *)

Section IntegerSigns.

Lemma digit_value_nonneg (c : ascii) (d : Z) : Py.digit_value c = Some d -> 0 <= d.
Proof.
  unfold Py.digit_value.
  set (n := Z.of_nat (nat_of_ascii c)).
  destruct ((48 <=? n) && (n <=? 57)) eqn:E1.
  { intros H. injection H as <-. apply andb_prop in E1. destruct E1 as (A & _).
    apply Z.leb_le in A. lia. }
  destruct ((97 <=? n) && (n <=? 122)) eqn:E2.
  { intros H. injection H as <-. apply andb_prop in E2. destruct E2 as (A & _).
    apply Z.leb_le in A. lia. }
  destruct ((65 <=? n) && (n <=? 90)) eqn:E3; [|discriminate].
  intros H. injection H as <-. apply andb_prop in E3. destruct E3 as (A & _).
  apply Z.leb_le in A. lia.
Qed.

Lemma scan_digits_nonneg (base : Z) (s : string) :
  0 <= base ->
  forall prev acc v rest,
    0 <= acc ->
    Py.scan_digits base s prev acc = Some (v, rest) ->
    0 <= v.
Proof.
  intros Hb. induction s as [|c r IH]; intros prev acc v rest Hacc H; simpl in H.
  - destruct prev; [discriminate|]. now injection H as <- <-.
  - destruct (Ascii.eqb c "_").
    + destruct prev; [discriminate | eauto].
    + destruct (Py.digit_value c) as [d|] eqn:Hd.
      * pose proof (digit_value_nonneg _ _ Hd).
        destruct (d <? base).
        -- eapply IH; [|exact H]. nia.
        -- destruct prev; [discriminate|]. now injection H as <- <-.
      * destruct prev; [discriminate|]. now injection H as <- <-.
Qed.

Lemma int_magnitude_nonneg (base : Z) (s : string) (v : Z) :
  0 <= base -> Py.int_magnitude base s = Some v -> 0 <= v.
Proof.
  intros Hb. unfold Py.int_magnitude.
  destruct (Py.detect_base base s) as [b zero_only] eqn:Hdet.
  assert (0 <= b) as Hb'.
  { unfold Py.detect_base in Hdet.
    destruct (base =? 0); [|injection Hdet as <- _; exact Hb].
    destruct s as [|c0 s0]; [injection Hdet as <- _; lia|].
    destruct (Ascii.eqb_spec c0 "0") as [->|Hc].
    - destruct s0 as [|c1 s1]; [injection Hdet as <- _; lia|].
      destruct (Ascii.eqb c1 "x" || Ascii.eqb c1 "X"); [injection Hdet as <- _; lia|].
      destruct (Ascii.eqb c1 "o" || Ascii.eqb c1 "O"); [injection Hdet as <- _; lia|].
      destruct (Ascii.eqb c1 "b" || Ascii.eqb c1 "B"); injection Hdet as <- _; lia.
    - assert (b = 10) as ->; [|lia].
      destruct c0 as [[] [] [] [] [] [] [] []];
        try (now injection Hdet as <- _); now elim Hc. }
  destruct (Py.skip_prefix b s) as [|c r] eqn:Hs; [discriminate|].
  destruct (Py.is_digit_in b c); [|discriminate].
  destruct (Py.scan_digits b (String c r) false 0) as [[v' rest]|] eqn:Hscan;
    [|discriminate].
  destruct (zero_only && negb (v' =? 0)); [discriminate|].
  destruct (Py.all_space rest); [|discriminate].
  intros H. injection H as <-.
  eapply scan_digits_nonneg; [exact Hb' | | exact Hscan]. lia.
Qed.

(** [int] yields a negative number only for a text whose first character
    after the blanks is a minus sign. *)
Lemma int_nonneg (base : Z) (s : string) (v : Z) :
  0 <= base ->
  Py.startswith "-" (Py.lstrip s) = false ->
  Py.int base s = Some v ->
  0 <= v.
Proof.
  intros Hb Hminus. unfold Py.int.
  pose proof (int_magnitude_nonneg base) as Hm.
  set (m := Py.int_magnitude base) in *.
  destruct (Py.lstrip s) as [|c r].
  - cbv beta iota zeta. destruct (m ""%string) as [v'|] eqn:E; [|discriminate].
    intros H. injection H as <-. eauto.
  - destruct c as [[] [] [] [] [] [] [] []]; try discriminate Hminus;
      cbv beta iota zeta;
      match goal with
      | |- match m ?t with _ => _ end = _ -> _ =>
          destruct (m t) as [v'|] eqn:E; [|discriminate];
          intros H; injection H as <-; eauto
      end.
Qed.

End IntegerSigns.

Section ParserInvariant.

Lemma dict_mem_false (d : list (string * nat)) (k : string) :
  Py.dict_mem String.eqb d k = false ->
  ~ In k (map fst d) /\ forall v, Py.dict_set String.eqb d k v = d ++ [(k, v)].
Proof.
  unfold Py.dict_mem. induction d as [|[k' v'] d IH]; simpl.
  - intros _. split; [tauto | reflexivity].
  - destruct (String.eqb_spec k k') as [->|Hk]; [discriminate|].
    intros H. destruct (IH H) as (Hn & Hs). split.
    + intros [E|E]; [congruence | tauto].
    + intros v. now rewrite Hs.
Qed.

Lemma NoDup_snoc {A : Type} (l : list A) (x : A) :
  NoDup l -> ~ In x l -> NoDup (l ++ [x]).
Proof.
  induction 1 as [|y l Hy Hl IH]; intros Hx; simpl.
  - constructor; [tauto | constructor].
  - constructor.
    + intros Hin. apply in_app_or in Hin. simpl in *. destruct Hin as [?|[?|[]]]; [tauto|].
      subst. tauto.
    + apply IH. simpl in Hx. tauto.
Qed.

Lemma labels_in_range_grow (labels : list (string * nat)) (size size' : nat) :
  (size <= size')%nat -> labels_in_range labels size -> labels_in_range labels size'.
Proof.
  intros Hs (Hnd & Hr). split; [exact Hnd|].
  eapply Forall_impl; [|exact Hr]. simpl. intros; lia.
Qed.

Lemma labels_in_range_add (labels : list (string * nat)) (k : string) (size : nat) :
  Py.dict_mem String.eqb labels k = false ->
  labels_in_range labels size ->
  labels_in_range (Py.dict_set String.eqb labels k size) size.
Proof.
  intros Hk (Hnd & Hr). destruct (dict_mem_false _ _ Hk) as (Hn & Hs).
  rewrite Hs. split.
  - rewrite map_app. simpl. apply NoDup_snoc; assumption.
  - apply Forall_app. split; [exact Hr|]. constructor; [simpl; lia | constructor].
Qed.

Lemma match_register_ref_key (keys : list string) (s k d : string) :
  Py.match_register_ref keys s = Some (k, d) -> In k keys.
Proof.
  induction keys as [|key keys IH]; simpl; [discriminate|].
  destruct (Py.strip_prefix key s) as [r|]; [|auto].
  destruct (Py.match_bracketed r) as [d'|]; [|auto].
  intros H. injection H as <- <-. now left.
Qed.

Lemma match_register_shape (arg id : string) (ref : option string) :
  Parser.match_register arg = Some (id, ref) ->
  id <> ""%string
  /\ Forall (fun c => In c dec_digits) (list_ascii_of_string id)
  /\ (ref = None
      \/ exists w, ref = Some w /\ In w (map fst Assembler.DataAccessTypes)).
Proof.
  unfold Parser.match_register. intros H.
  destruct (Py.match_register_val arg) as [d|] eqn:Hv.
  - injection H as <- <-. unfold Py.match_register_val in Hv.
    destruct arg as [|c r]; [discriminate|].
    destruct (Ascii.eqb c "r"); [|discriminate].
    destruct (Py.span_digits r) as [d' t] eqn:Hs.
    destruct d' as [|c' d']; [discriminate|]. simpl in Hv. injection Hv as <-.
    split; [discriminate|]. split; [eapply span_digits_all; eauto | now left].
  - destruct (Py.match_register_ref _ arg) as [[k d]|] eqn:Hr; [|discriminate].
    injection H as <- <-.
    destruct (match_register_ref_digits _ _ _ _ Hr) as (Hne & Hd).
    split; [exact Hne|]. split; [exact Hd|].
    right. exists k. split; [reflexivity | eapply match_register_ref_key; eauto].
Qed.

Lemma digits_have_no_sign (id : string) :
  id <> ""%string ->
  Forall (fun c => In c dec_digits) (list_ascii_of_string id) ->
  Py.startswith "-" (Py.lstrip id) = false.
Proof.
  intros Hne Hd. destruct id as [|c s]; [congruence|].
  inversion Hd as [|c' l' Hc Hl]; subst.
  unfold dec_digits in Hc. simpl in Hc.
  repeat (destruct Hc as [<-|Hc]; [reflexivity|]). destruct Hc.
Qed.

Lemma parse_argument_well_formed (kind : ascii) (text : string) (arg : argument) :
  Parser.parse_argument kind text = Ok arg -> well_formed_argument kind arg.
Proof.
  unfold Parser.parse_argument. intros H.
  destruct (Ascii.eqb_spec kind "R") as [->|HR].
  - destruct (Parser.match_register text) as [[id ref]|] eqn:Hm; [|discriminate].
    destruct (match_register_shape _ _ _ Hm) as (Hne & Hd & Href).
    destruct (Py.int 10 id) as [v|] eqn:Hv; [|discriminate].
    destruct (Z.gtb_spec v 16); [discriminate|].
    injection H as <-. simpl. split; [reflexivity|]. split; [|exact Href].
    split; [|lia].
    apply (int_nonneg 10 id v); [lia | now apply digits_have_no_sign | exact Hv].
  - destruct (Ascii.eqb_spec kind "C") as [->|HC]; [injection H as <-; now left|].
    destruct (Ascii.eqb_spec kind "L") as [->|HL]; [injection H as <-; now right|].
    discriminate.
Qed.

Lemma parse_arguments_well_formed (kinds : list ascii) :
  forall (data : list string) (l : list argument),
    List.length data = List.length kinds ->
    Parser.parse_arguments kinds data = Ok l ->
    Forall2 well_formed_argument kinds l.
Proof.
  induction kinds as [|kind kinds IH]; intros data l Hlen H.
  - simpl in H. injection H as <-. constructor.
  - destruct data as [|text data]; [discriminate Hlen|].
    cbn [Parser.parse_arguments] in H. unfold bind in H.
    destruct (Parser.parse_argument kind text) as [a|] eqn:Ha; [|discriminate].
    destruct (Parser.parse_arguments kinds data) as [r|] eqn:Hr; [|discriminate].
    injection H as <-. constructor.
    + eapply parse_argument_well_formed; eauto.
    + apply (IH data); [simpl in Hlen; lia | exact Hr].
Qed.

Lemma parse_data_invariant (tokens : list string) :
  forall p p' e,
    parser_invariant p ->
    Parser.parse_data p tokens = (p', e) ->
    parser_invariant p'.
Proof.
  induction tokens as [|entry rest IH]; intros p p' e Hinv H; simpl in H.
  - now injection H as <- _.
  - destruct (Py.int 16 entry) as [value|]; [|now injection H as <- _].
    destruct (Z.gtb_spec value 255); [now injection H as <- _|].
    apply (IH (Parser.set_data_section p (data_section p ++ [value])) p' e);
      [|exact H].
    destruct Hinv as (Hc & Hd & Hcl & Hdl). unfold parser_invariant. simpl.
    split; [exact Hc|]. split; [|split; [exact Hcl|]].
    + apply Forall_app. split; [exact Hd|]. constructor; [lia | constructor].
    + eapply labels_in_range_grow; [|exact Hdl]. rewrite length_app. lia.
Qed.

Lemma parse_line_invariant (p p' : parser) (tokens : list string) (e : option exn) :
  parser_invariant p ->
  Parser.parse_line p tokens = (p', e) ->
  parser_invariant p'.
Proof.
  intros Hinv H. unfold Parser.parse_line in H.
  destruct tokens as [|t0 rest]; [now injection H as <- _|].
  destruct (Py.startswith "." t0).
  { unfold Parser.parse_section in H.
    destruct (String.eqb t0 ".dataSize").
    { destruct (data_size p); [now injection H as <- _|].
      destruct rest as [|t1 rest']; [now injection H as <- _|].
      destruct (Py.int 10 t1); now injection H as <- _. }
    destruct (String.eqb t0 ".code"); [now injection H as <- _|].
    destruct (String.eqb t0 ".data"); now injection H as <- _. }
  destruct ((List.length (t0 :: rest) =? 1)%nat && Py.endswith ":" t0).
  { unfold Parser.parse_label in H.
    destruct Hinv as (Hc & Hd & Hcl & Hdl).
    destruct (parse_mode p) as [[|]|].
    - destruct (Py.dict_mem String.eqb (data_labels p) (Py.drop_last t0)) eqn:Hm;
        injection H as <- _; [unfold parser_invariant; tauto|].
      unfold parser_invariant. simpl.
      split; [exact Hc|]. split; [exact Hd|]. split; [exact Hcl|].
      apply (labels_in_range_add _ _ _ Hm Hdl).
    - destruct (Py.dict_mem String.eqb (code_labels p) (Py.drop_last t0)) eqn:Hm;
        injection H as <- _; [unfold parser_invariant; tauto|].
      unfold parser_invariant. simpl.
      split; [exact Hc|]. split; [exact Hd|]. split; [|exact Hdl].
      apply (labels_in_range_add _ _ _ Hm Hcl).
    - injection H as <- _. unfold parser_invariant; tauto. }
  destruct (parse_mode p) as [[|]|].
  - eapply parse_data_invariant; eauto.
  - unfold Parser.parse_code in H.
    destruct (Py.dict_get String.eqb Assembler.Opcodes t0) as [opcode|] eqn:Hop;
      [|now injection H as <- _].
    destruct (Nat.eqb_spec (List.length (Parser.translate_argument_tokens rest))
                           (String.length (Assembler.args opcode))) as [Hlen|Hlen];
      simpl in H; [|now injection H as <- _].
    destruct (Parser.parse_arguments _ _) as [l|] eqn:Hl; [|now injection H as <- _].
    injection H as <- _.
    destruct Hinv as (Hc & Hd & Hcl & Hdl). unfold parser_invariant. simpl.
    split; [|split; [exact Hd|split; [|exact Hdl]]].
    + apply Forall_app. split; [exact Hc|]. constructor; [|constructor].
      exists opcode. simpl. split; [exact Hop|].
      eapply parse_arguments_well_formed; [|exact Hl].
      now rewrite length_list_of_string.
    + eapply labels_in_range_grow; [|exact Hcl]. rewrite length_app. lia.
  - now injection H as <- _.
Qed.

Lemma analyse_loop_invariant (items : list Lexer.item) :
  forall p p' e,
    parser_invariant p ->
    Parser.analyse_loop p items = (p', e) ->
    parser_invariant p'.
Proof.
  induction items as [|[[n line] tokens] items IH]; intros p p' e Hinv H; simpl in H.
  - now injection H as <- _.
  - destruct (Parser.parse_line (Parser.set_last_parsed p n line) tokens)
      as [p1 [e1|]] eqn:H1.
    + injection H as <- _. eapply parse_line_invariant; [|exact H1]. exact Hinv.
    + eapply IH; [|exact H]. eapply parse_line_invariant; [|exact H1]. exact Hinv.
Qed.

Lemma init_invariant : parser_invariant Parser.init.
Proof. repeat split; constructor. Qed.

End ParserInvariant.

(** Whatever the lines are, and whether [analyse] returns or raises, every
    instruction in [code_section] has a mnemonic of the opcode table and as
    many arguments as the table lists, each of the stored form of its kind:
    a register id from 0 to 16 with no width or one of the four width
    names, or a text for a constant or a label. *)
Theorem parsed_instructions_are_well_formed (items : list Lexer.item) :
  Forall well_formed_instruction (code_section (fst (Parser.analyse items))).
Proof.
  destruct (Parser.analyse items) as [p e] eqn:H.
  apply (analyse_loop_invariant items Parser.init p e init_invariant H).
Qed.

Lemma dict_get_pair {V : Type} (d : list (string * V)) (k : string) (v : V) :
  Py.dict_get String.eqb d k = Some v -> In (k, v) d.
Proof.
  induction d as [|[k' v'] d IH]; simpl; [discriminate|].
  destruct (String.eqb_spec k k') as [->|Hk]; [|auto].
  intros H. injection H as <-. now left.
Qed.

(** Label names are distinct within the code section and within the data
    section, and a label never points past the end of its section: a code
    label is at most the number of instructions, a data label at most the
    number of data bytes. *)
Theorem parsed_labels_are_distinct_and_in_range
        (items : list Lexer.item) (p : parser) (e : option exn) :
  Parser.analyse items = (p, e) ->
  NoDup (map fst (code_labels p))
  /\ NoDup (map fst (data_labels p))
  /\ (forall l j, Py.dict_get String.eqb (code_labels p) l = Some j ->
                  (j <= List.length (code_section p))%nat)
  /\ (forall l j, Py.dict_get String.eqb (data_labels p) l = Some j ->
                  (j <= List.length (data_section p))%nat).
Proof.
  intros H.
  destruct (analyse_loop_invariant items Parser.init p e init_invariant H)
    as (_ & _ & (Hc1 & Hc2) & (Hd1 & Hd2)).
  rewrite Forall_forall in Hc2, Hd2.
  repeat split; try assumption.
  - intros l j Hl. apply (Hc2 (l, j)). now apply dict_get_pair.
  - intros l j Hl. apply (Hd2 (l, j)). now apply dict_get_pair.
Qed.

Lemma parsed_labels_witness :
  Parser.analyse (Lexer.analyse (readlines jumps_source)) = (jumps_parser, None)
  /\ code_labels jumps_parser = [("back"%string, 1%nat); ("fwd"%string, 5%nat)]
  /\ NoDup (map fst (code_labels jumps_parser))
  /\ NoDup (map fst (data_labels jumps_parser))
  /\ (forall l j, Py.dict_get String.eqb (code_labels jumps_parser) l = Some j ->
                  (j <= List.length (code_section jumps_parser))%nat)
  /\ (forall l j, Py.dict_get String.eqb (data_labels jumps_parser) l = Some j ->
                  (j <= List.length (data_section jumps_parser))%nat).
Proof.
  split; [vm_compute; reflexivity|]. split; [vm_compute; reflexivity|].
  apply (parsed_labels_are_distinct_and_in_range
           (Lexer.analyse (readlines jumps_source)) jumps_parser None).
  vm_compute; reflexivity.
Defined.

Section LabelsStay.

Lemma dict_set_keeps (d : list (string * nat)) (k k' : string) (v v' : nat) :
  Py.dict_mem String.eqb d k = false ->
  Py.dict_get String.eqb d k' = Some v' ->
  Py.dict_get String.eqb (Py.dict_set String.eqb d k v) k' = Some v'.
Proof.
  unfold Py.dict_mem. induction d as [|[k0 v0] d IH]; simpl; [discriminate|].
  destruct (String.eqb_spec k k0) as [->|Hk]; [discriminate|].
  intros Hm. simpl. destruct (String.eqb k' k0); [auto | now apply IH].
Qed.

Lemma dict_set_get (d : list (string * nat)) (k : string) (v : nat) :
  Py.dict_get String.eqb (Py.dict_set String.eqb d k v) k = Some v.
Proof.
  induction d as [|[k0 v0] d IH]; simpl; [now rewrite String.eqb_refl|].
  destruct (String.eqb_spec k k0) as [->|Hk]; simpl.
  - now rewrite String.eqb_refl.
  - destruct (String.eqb_spec k k0); [congruence | exact IH].
Qed.

Lemma parse_data_keeps_code (tokens : list string) :
  forall p p' e,
    Parser.parse_data p tokens = (p', e) ->
    code_labels p' = code_labels p /\ code_section p' = code_section p
    /\ parse_mode p' = parse_mode p.
Proof.
  induction tokens as [|entry rest IH]; intros p p' e H; simpl in H.
  - injection H as <- _. auto.
  - destruct (Py.int 16 entry) as [value|]; [|injection H as <- _; auto].
    destruct (value >? 255); [injection H as <- _; auto|].
    destruct (IH _ _ _ H) as (A & B & C). simpl in *. auto.
Qed.

Lemma parse_line_keeps_code_labels (p p' : parser) (tokens : list string)
      (e : option exn) (l : string) (j : nat) :
  Parser.parse_line p tokens = (p', e) ->
  Py.dict_get String.eqb (code_labels p) l = Some j ->
  Py.dict_get String.eqb (code_labels p') l = Some j.
Proof.
  intros H Hl. unfold Parser.parse_line in H.
  destruct tokens as [|t0 rest]; [now injection H as <- _|].
  destruct (Py.startswith "." t0).
  { unfold Parser.parse_section in H.
    destruct (String.eqb t0 ".dataSize").
    { destruct (data_size p); [now injection H as <- _|].
      destruct rest as [|t1 rest']; [now injection H as <- _|].
      destruct (Py.int 10 t1); now injection H as <- _. }
    destruct (String.eqb t0 ".code"); [now injection H as <- _|].
    destruct (String.eqb t0 ".data"); now injection H as <- _. }
  destruct ((List.length (t0 :: rest) =? 1)%nat && Py.endswith ":" t0).
  { unfold Parser.parse_label in H.
    destruct (parse_mode p) as [[|]|].
    - destruct (Py.dict_mem String.eqb (data_labels p) (Py.drop_last t0));
        now injection H as <- _.
    - destruct (Py.dict_mem String.eqb (code_labels p) (Py.drop_last t0)) eqn:Hm;
        injection H as <- _; [exact Hl|].
      simpl. now apply dict_set_keeps.
    - now injection H as <- _. }
  destruct (parse_mode p) as [[|]|].
  - destruct (parse_data_keeps_code _ _ _ _ H) as (-> & _). exact Hl.
  - unfold Parser.parse_code in H.
    destruct (Py.dict_get String.eqb Assembler.Opcodes t0) as [opcode|];
      [|now injection H as <- _].
    destruct (negb _); [now injection H as <- _|].
    destruct (Parser.parse_arguments _ _); now injection H as <- _.
  - now injection H as <- _.
Qed.

Lemma analyse_loop_keeps_code_labels (items : list Lexer.item) :
  forall p p' e l j,
    Parser.analyse_loop p items = (p', e) ->
    Py.dict_get String.eqb (code_labels p) l = Some j ->
    Py.dict_get String.eqb (code_labels p') l = Some j.
Proof.
  induction items as [|[[n line] tokens] items IH]; intros p p' e l j H Hl; simpl in H.
  - now injection H as <- _.
  - destruct (Parser.parse_line (Parser.set_last_parsed p n line) tokens)
      as [p1 [e1|]] eqn:H1.
    + injection H as <- _. eapply parse_line_keeps_code_labels; [exact H1 | exact Hl].
    + eapply IH; [exact H|]. eapply parse_line_keeps_code_labels; [exact H1 | exact Hl].
Qed.

(** A label line accepted in the code section binds the name, for the rest
    of the parse, to the number of instructions parsed before it: the index
    of the instruction that follows the label. *)
Theorem code_label_denotes_next_instruction
        (pre post : list Lexer.item) (n : Z) (line t : string)
        (p0 p1 p : parser) (e : option exn) :
  Parser.analyse pre = (p0, None) ->
  parse_mode p0 = Some Code ->
  Py.startswith "." t = false ->
  Py.endswith ":" t = true ->
  Parser.parse_line (Parser.set_last_parsed p0 n line) [t] = (p1, None) ->
  Parser.analyse (pre ++ (n, line, [t]) :: post) = (p, e) ->
  Py.dict_get String.eqb (code_labels p) (Py.drop_last t)
  = Some (List.length (code_section p0)).
Proof.
  intros Hpre Hmode Hdot Hcolon Hline H.
  unfold Parser.analyse in *. rewrite analyse_loop_app, Hpre in H.
  cbn [Parser.analyse_loop] in H. rewrite Hline in H.
  apply (analyse_loop_keeps_code_labels _ _ _ _ _ _ H).
  unfold Parser.parse_line in Hline. rewrite Hdot, Hcolon in Hline. simpl in Hline.
  unfold Parser.parse_label in Hline. simpl in Hline. rewrite Hmode in Hline.
  destruct (Py.dict_mem String.eqb (code_labels p0) (Py.drop_last t)); [discriminate|].
  injection Hline as <-. simpl. apply dict_set_get.
Qed.

End LabelsStay.

Lemma code_label_witness :
  Py.dict_get String.eqb
    (code_labels
       (fst (Parser.analyse
               (List.app
                  [(1, ".code", [".code"]); (2, "hlt", ["hlt"])]%string
                  [(3, "back:", ["back:"]); (4, "jump back", ["jump"; "back"])]%string))))
    (Py.drop_last "back:")
  = Some (List.length
            (code_section
               (fst (Parser.analyse
                       [(1, ".code", [".code"]); (2, "hlt", ["hlt"])]%string)))).
Proof.
  apply (code_label_denotes_next_instruction
           [(1, ".code", [".code"]); (2, "hlt", ["hlt"])]%string
           [(4, "jump back", ["jump"; "back"])]%string
           3 "back:" "back:"
           (fst (Parser.analyse [(1, ".code", [".code"]); (2, "hlt", ["hlt"])]%string))
           (fst (Parser.parse_line
                   (Parser.set_last_parsed
                      (fst (Parser.analyse
                              [(1, ".code", [".code"]); (2, "hlt", ["hlt"])]%string))
                      3 "back:")
                   ["back:"%string]))
           _
           (snd (Parser.analyse
                   (List.app
                      [(1, ".code", [".code"]); (2, "hlt", ["hlt"])]%string
                      [(3, "back:", ["back:"]); (4, "jump back", ["jump"; "back"])]%string))));
    vm_compute; reflexivity.
Defined.

Section DataBytes.

Lemma lstrip_clean (t : string) :
  (forall c, In c (chars t) -> Py.is_space c = false) -> Py.lstrip t = t.
Proof.
  destruct t as [|c t]; [reflexivity|]. intros H. simpl.
  now rewrite (H c (or_introl eq_refl)).
Qed.

Lemma parse_data_nonneg (tokens : list string) :
  Forall (fun t => Py.startswith "-" (Py.lstrip t) = false) tokens ->
  forall p p' e,
    Forall (fun b => 0 <= b) (data_section p) ->
    Parser.parse_data p tokens = (p', e) ->
    Forall (fun b => 0 <= b) (data_section p').
Proof.
  induction 1 as [|entry rest Ht Hrest IH]; intros p p' e Hp H; simpl in H.
  - now injection H as <- _.
  - destruct (Py.int 16 entry) as [value|] eqn:Hv; [|now injection H as <- _].
    destruct (value >? 255); [now injection H as <- _|].
    eapply IH; [|exact H].
    simpl. apply Forall_app. split; [exact Hp|].
    constructor; [|constructor].
    apply (int_nonneg 16 entry value); [lia | exact Ht | exact Hv].
Qed.

Lemma parse_line_nonneg (p p' : parser) (tokens : list string) (e : option exn) :
  Forall (fun t => Py.startswith "-" (Py.lstrip t) = false) tokens ->
  Forall (fun b => 0 <= b) (data_section p) ->
  Parser.parse_line p tokens = (p', e) ->
  Forall (fun b => 0 <= b) (data_section p').
Proof.
  intros Ht Hp H. unfold Parser.parse_line in H.
  destruct tokens as [|t0 rest]; [now injection H as <- _|].
  destruct (Py.startswith "." t0).
  { unfold Parser.parse_section in H.
    destruct (String.eqb t0 ".dataSize").
    { destruct (data_size p); [now injection H as <- _|].
      destruct rest as [|t1 rest']; [now injection H as <- _|].
      destruct (Py.int 10 t1); now injection H as <- _. }
    destruct (String.eqb t0 ".code"); [now injection H as <- _|].
    destruct (String.eqb t0 ".data"); now injection H as <- _. }
  destruct ((List.length (t0 :: rest) =? 1)%nat && Py.endswith ":" t0).
  { unfold Parser.parse_label in H.
    destruct (parse_mode p) as [[|]|].
    - destruct (Py.dict_mem String.eqb (data_labels p) (Py.drop_last t0));
        now injection H as <- _.
    - destruct (Py.dict_mem String.eqb (code_labels p) (Py.drop_last t0));
        now injection H as <- _.
    - now injection H as <- _. }
  destruct (parse_mode p) as [[|]|].
  - eapply parse_data_nonneg; eauto.
  - unfold Parser.parse_code in H.
    destruct (Py.dict_get String.eqb Assembler.Opcodes t0) as [opcode|];
      [|now injection H as <- _].
    destruct (negb _); [now injection H as <- _|].
    destruct (Parser.parse_arguments _ _); now injection H as <- _.
  - now injection H as <- _.
Qed.

Lemma analyse_loop_nonneg (items : list Lexer.item) :
  Forall (fun it => Forall (fun t => Py.startswith "-" (Py.lstrip t) = false) (snd it))
         items ->
  forall p p' e,
    Forall (fun b => 0 <= b) (data_section p) ->
    Parser.analyse_loop p items = (p', e) ->
    Forall (fun b => 0 <= b) (data_section p').
Proof.
  induction 1 as [|[[n line] tokens] items Ht Hitems IH]; intros p p' e Hp H; simpl in H.
  - now injection H as <- _.
  - destruct (Parser.parse_line (Parser.set_last_parsed p n line) tokens)
      as [p1 [e1|]] eqn:H1.
    + injection H as <- _. eapply parse_line_nonneg; [exact Ht | | exact H1]. exact Hp.
    + eapply IH; [|exact H]. eapply parse_line_nonneg; [exact Ht | | exact H1]. exact Hp.
Qed.

(** If no token of the source begins with a minus sign, every element of
    [data_section] is a byte, from 0 to 255, whether [analyse] returns or
    raises. *)
Theorem data_bytes_in_range_without_minus (lines : list string) :
  (forall n line tokens t,
      In (n, line, tokens) (Lexer.analyse lines) ->
      In t tokens ->
      Py.startswith "-" t = false) ->
  Forall (fun b => 0 <= b <= 255)
         (data_section (fst (Parser.analyse (Lexer.analyse lines)))).
Proof.
  intros Hminus.
  destruct (Parser.analyse (Lexer.analyse lines)) as [p e] eqn:H. simpl.
  destruct (analyse_loop_invariant _ Parser.init p e init_invariant H) as (_ & Hhi & _).
  assert (Forall (fun b => 0 <= b) (data_section p)) as Hlo.
  { apply (analyse_loop_nonneg (Lexer.analyse lines)) with (p := Parser.init) (e := e);
      [|constructor|exact H].
    apply Forall_forall. intros [[n line] tokens] Hit. simpl.
    apply Forall_forall. intros t Ht.
    unfold Lexer.analyse in Hit. pose proof Hit as Hit'.
    apply analyse_from_spec in Hit'. destruct Hit' as (k & _ & _ & Htok & _).
    rewrite lstrip_clean; [eapply Hminus; eauto|].
    intros c Hc. subst tokens. unfold Py.split in Ht.
    destruct (split_from_tokens _ ""%string t (Forall_nil _) Ht) as (_ & Hch).
    now destruct (Hch c Hc). }
  rewrite Forall_forall in *. intros b Hb. split; auto.
Qed.

Lemma data_bytes_witness :
  Forall (fun b => 0 <= b <= 255)
         (data_section (fst (Parser.analyse
                               (Lexer.analyse [".data"; "DE AD"; "0x1f +7"]%string)))).
Proof.
  apply (data_bytes_in_range_without_minus [".data"; "DE AD"; "0x1f +7"]%string).
  intros n line tokens t Hit Ht.
  vm_compute in Hit.
  repeat (destruct Hit as [Hit|Hit];
          [injection Hit as <- <- <-;
           repeat (destruct Ht as [<-|Ht]; [reflexivity|]); destruct Ht|]).
  destruct Hit.
Defined.

End DataBytes.

(** ** How a run can end *)

Section Failures.

Lemma width_key_found (w : string) :
  In w (map fst Assembler.DataAccessTypes) ->
  exists c r bits,
    w = String c r
    /\ Py.dict_get String.eqb Assembler.DataAccessTypes w = Some bits.
Proof.
  simpl. intros H.
  repeat (destruct H as [<-|H]; [do 3 eexists; split; reflexivity|]). destruct H.
Qed.

Lemma assemble_register_total (a : Assembler.state) (kind : ascii) (id : Z)
      (ref : option string) :
  well_formed_argument kind (RegArg id ref) ->
  exists a', Assembler.assemble_register a (RegArg id ref) = Ok a'.
Proof.
  intros (_ & _ & [->|(w & -> & Hw)]); [eexists; reflexivity|].
  destruct (width_key_found _ Hw) as (c & r & bits & -> & Hbits).
  unfold Assembler.assemble_register. rewrite Hbits. eexists; reflexivity.
Qed.

Lemma assemble_arguments_failures (p : parser) (kinds : list ascii)
      (args : list argument) :
  Forall2 well_formed_argument kinds args ->
  forall a e,
    Assembler.assemble_arguments p a kinds args = Raise e ->
    first_pass_failure p args e.
Proof.
  induction 1 as [|kind arg kinds args Hwf Hrest IH]; intros a e H.
  - discriminate H.
  - cbn [Assembler.assemble_arguments] in H. unfold bind in H.
    assert (forall e', first_pass_failure p args e' ->
                       first_pass_failure p (arg :: args) e') as Hlift.
    { intros e' [(-> & t & Ht & Hi)|(l & Hl & Hg & ->)].
      - left. split; [reflexivity|]. exists t. split; [now right | exact Hi].
      - right. exists l. split; [now right | auto]. }
    destruct arg as [id ref|text].
    + destruct Hwf as (-> & Hwf).
      destruct (assemble_register_total a "R" id ref (conj eq_refl Hwf)) as (a' & Ha).
      change (Ascii.eqb "R" "R") with true in H. cbv iota in H. rewrite Ha in H.
      apply Hlift. eapply IH; exact H.
    + destruct Hwf as [-> | ->].
      * change (Ascii.eqb "C" "R") with false in H.
        change (Ascii.eqb "C" "C") with true in H. cbv iota in H.
        unfold Assembler.assemble_constant in H.
        destruct (Py.int 0 text) as [v|] eqn:Hv.
        -- apply Hlift. eapply IH; exact H.
        -- injection H as <-. left. split; [reflexivity|].
           exists text. split; [now left | exact Hv].
      * change (Ascii.eqb "L" "R") with false in H.
        change (Ascii.eqb "L" "C") with false in H.
        change (Ascii.eqb "L" "L") with true in H. cbv iota in H.
        unfold Assembler.assemble_label in H.
        destruct (Py.dict_get String.eqb (code_labels p) text) as [offset|] eqn:Hl.
        -- apply Hlift.
           destruct (offset <? List.length (Assembler.offsets_list a))%nat;
             eapply IH; exact H.
        -- injection H as <-. right. exists text. split; [now left | auto].
Qed.

Lemma assemble_section_failures (p : parser) (l : list instruction) :
  Forall well_formed_instruction l ->
  forall a e,
    Assembler.assemble_section p a l = Raise e ->
    exists ins, In ins l /\ first_pass_failure p (arguments ins) e.
Proof.
  induction 1 as [|ins l Hwf Hl IH]; intros a e H; simpl in H; [discriminate|].
  unfold bind in H.
  destruct (Assembler.assemble_instruction p a ins) as [a1|e1] eqn:H1.
  - destruct (IH _ _ H) as (ins' & Hin & Hf). exists ins'. split; [now right | exact Hf].
  - injection H as <-. exists ins. split; [now left|].
    unfold Assembler.assemble_instruction in H1.
    destruct Hwf as (opcode & Hop & Hargs). rewrite Hop in H1.
    eapply assemble_arguments_failures; eauto.
Qed.

Lemma patch_all_failures (offsets : list nat) (patches : list (nat * nat)) :
  forall bc e, Assembler.patch_all offsets patches bc = Raise e -> e = IndexError.
Proof.
  induction patches as [|[position offset] rest IH]; intros bc e H; simpl in H.
  - discriminate.
  - destruct (nth_error offsets offset); [|now injection H as <-].
    destruct (Assembler.write_bits bc position _); [eauto | now injection H as <-].
Qed.

Lemma write_file_failures (bc : list ascii) (size : Z) (data bytes : list Z) (e : exn) :
  Assembler.write_file bc size data = (bytes, Some e) ->
  e = StructError \/ e = ValueError.
Proof.
  assert (forall idx out out', Assembler.write_code bc idx out = (out', Some e) ->
                               e = StructError \/ e = ValueError) as Hcode.
  { induction idx as [|i idx IH]; intros out out' H; simpl in H; [discriminate|].
    destruct (Assembler.chunk_value bc i); [|injection H as _ <-; now right].
    destruct (Py.pack_B z); [eauto | injection H as _ <-; now left]. }
  assert (forall d out out', Assembler.write_data d out = (out', Some e) ->
                             e = StructError \/ e = ValueError) as Hdata.
  { induction d as [|b d IH]; intros out out' H; simpl in H; [discriminate|].
    destruct (Py.pack_B b); [eauto | injection H as _ <-; now left]. }
  unfold Assembler.write_file. intros H.
  destruct (Py.pack_I _); [|injection H as _ <-; now left].
  destruct (Py.pack_I size); [|injection H as _ <-; now left].
  destruct (Py.pack_I _); [|injection H as _ <-; now left].
  destruct (Assembler.write_code bc _ _) as [out1 [e1|]] eqn:Hc.
  - injection H as _ <-. eauto.
  - eauto.
Qed.

(** What can leave [build] when the program comes from the parser. *)
Lemma build_failures (p p' : parser) (o : Assembler.outcome) (e : exn) :
  Forall well_formed_instruction (code_section p) ->
  Assembler.build p = (p', o) ->
  Assembler.raised o = Some e ->
  (Assembler.file o = None
   /\ Assembler.printed o = []
   /\ ((exists ins, In ins (code_section p) /\ first_pass_failure p (arguments ins) e)
       \/ e = IndexError \/ e = TypeError))
  \/ (Assembler.file o <> None /\ (e = StructError \/ e = ValueError)).
Proof.
  intros Hwf H Hr. unfold Assembler.build in H.
  destruct (Assembler.assemble p) as [a|e0] eqn:Ha.
  - destruct (data_size p) as [declared|].
    + destruct (Assembler.write_file _ _ _) as [bytes e1] eqn:Hw.
      injection H as _ <-. simpl in Hr. subst e1. right.
      split; [discriminate | eapply write_file_failures; eauto].
    + injection H as _ <-. simpl in Hr. injection Hr as <-. left. auto.
  - injection H as _ <-. simpl in Hr. injection Hr as <-. left.
    split; [reflexivity|]. split; [reflexivity|].
    unfold Assembler.assemble, bind in Ha.
    destruct (Assembler.assemble_section p Assembler.initial (code_section p))
      as [a1|e1] eqn:H1.
    + unfold Assembler.apply_patches, bind in Ha.
      destruct (Assembler.patch_all _ _ _) as [bc|e2] eqn:H2; [discriminate|].
      injection Ha as <-. right. left. eapply patch_all_failures; eauto.
    + injection Ha as <-. left. eapply assemble_section_failures; eauto.
Qed.

Lemma parse_arguments_failures (kinds : list ascii) :
  Forall (fun c => c = "R"%char \/ c = "C"%char \/ c = "L"%char) kinds ->
  forall data e,
    Parser.parse_arguments kinds data = Raise e -> exists msg, e = ParserError msg.
Proof.
  induction 1 as [|kind kinds Hkind Hkinds IH]; intros data e H.
  - discriminate H.
  - destruct data as [|text data]; [discriminate H|].
    cbn [Parser.parse_arguments] in H. unfold bind in H.
    destruct (Parser.parse_argument kind text) as [a0|e0] eqn:H0.
    + destruct (Parser.parse_arguments kinds data) as [r|e1] eqn:H1; [discriminate|].
      injection H as <-. eauto.
    + injection H as <-. eapply parse_argument_error; eauto.
Qed.

(** What can leave [analyse]. *)
Lemma parse_line_failures (p p' : parser) (tokens : list string) (e : exn) :
  Parser.parse_line p tokens = (p', Some e) ->
  (exists msg, e = ParserError msg) \/ e = IndexError \/ e = ValueError.
Proof.
  unfold Parser.parse_line. intros H.
  destruct tokens as [|t0 rest]; [injection H as _ <-; auto|].
  destruct (Py.startswith "." t0).
  { unfold Parser.parse_section in H.
    destruct (String.eqb t0 ".dataSize").
    { destruct (data_size p); [injection H as _ <-; eauto|].
      destruct rest as [|t1 rest']; [injection H as _ <-; auto|].
      destruct (Py.int 10 t1); [discriminate | injection H as _ <-; auto]. }
    destruct (String.eqb t0 ".code"); [discriminate|].
    destruct (String.eqb t0 ".data"); [discriminate|].
    injection H as _ <-. eauto. }
  destruct ((List.length (t0 :: rest) =? 1)%nat && Py.endswith ":" t0).
  { unfold Parser.parse_label in H.
    destruct (parse_mode p) as [[|]|].
    - destruct (Py.dict_mem String.eqb (data_labels p) (Py.drop_last t0));
        [injection H as _ <-; eauto | discriminate].
    - destruct (Py.dict_mem String.eqb (code_labels p) (Py.drop_last t0));
        [injection H as _ <-; eauto | discriminate].
    - injection H as _ <-. eauto. }
  destruct (parse_mode p) as [[|]|].
  - clear - H. revert p H. induction (t0 :: rest) as [|entry l IH]; intros p H; simpl in H.
    + discriminate.
    + destruct (Py.int 16 entry) as [value|]; [|injection H as _ <-; auto].
      destruct (value >? 255); [injection H as _ <-; eauto | eauto].
  - unfold Parser.parse_code in H.
    destruct (Py.dict_get String.eqb Assembler.Opcodes t0) as [opcode|] eqn:Hop;
      [|injection H as _ <-; eauto].
    destruct (negb _); [injection H as _ <-; eauto|].
    destruct (Parser.parse_arguments _ _) as [l|e0] eqn:Hl; [discriminate|].
    injection H as _ <-. left.
    destruct (opcode_table_shape _ _ Hop) as (_ & Hshape).
    eapply parse_arguments_failures; eauto.
  - injection H as _ <-. eauto.
Qed.

Lemma analyse_loop_raises (items : list Lexer.item) :
  forall p p' e,
    Parser.analyse_loop p items = (p', Some e) ->
    exists pre n line tokens post p0,
      items = pre ++ (n, line, tokens) :: post
      /\ Parser.analyse_loop p pre = (p0, None)
      /\ Parser.parse_line (Parser.set_last_parsed p0 n line) tokens = (p', Some e).
Proof.
  induction items as [|[[n line] tokens] items IH]; intros p p' e H; simpl in H.
  - discriminate.
  - destruct (Parser.parse_line (Parser.set_last_parsed p n line) tokens)
      as [p1 [e1|]] eqn:H1.
    + injection H as <- <-. exists [], n, line, tokens, items, p.
      repeat split. exact H1.
    + destruct (IH _ _ _ H) as (pre & n' & line' & tokens' & post & p0 & -> & Hpre & Hl).
      exists ((n, line, tokens) :: pre), n', line', tokens', post, p0.
      repeat split; [|exact Hl]. simpl. now rewrite H1.
Qed.

End Failures.

(** On a program that comes from the parser, the two passes of [build] can
    only fail in three ways: a constant that [int(text, 0)] refuses
    ([ValueError]), a label that was never defined ([Assembler.Error] with
    the message [Undefined code label <name>]), or the [IndexError] of the
    patch step; never a missing opcode or width, never a mismatch between
    an argument and its kind. *)
Theorem assemble_failures_of_parsed_programs
        (items : list Lexer.item) (p : parser) (e0 : option exn) (e : exn) :
  Parser.analyse items = (p, e0) ->
  Assembler.assemble p = Raise e ->
  e = IndexError
  \/ exists ins, In ins (code_section p) /\ first_pass_failure p (arguments ins) e.
Proof.
  intros Hp Ha.
  assert (Forall well_formed_instruction (code_section p)) as Hwf.
  { apply (analyse_loop_invariant items Parser.init p e0 init_invariant Hp). }
  unfold Assembler.assemble, bind in Ha.
  destruct (Assembler.assemble_section p Assembler.initial (code_section p))
    as [a1|e1] eqn:H1.
  - unfold Assembler.apply_patches, bind in Ha.
    destruct (Assembler.patch_all _ _ _) as [bc|e2] eqn:H2; [discriminate|].
    injection Ha as <-. left. eapply patch_all_failures; eauto.
  - injection Ha as <-. right. eapply assemble_section_failures; eauto.
Qed.

Lemma assemble_failures_witness :
  Assembler.assemble
    (fst (Parser.analyse (Lexer.analyse [".code"; "loadConst 1e3, r0"]%string)))
  = Raise ValueError
  /\ (ValueError = IndexError
      \/ exists ins,
           In ins (code_section
                     (fst (Parser.analyse
                             (Lexer.analyse [".code"; "loadConst 1e3, r0"]%string))))
           /\ first_pass_failure
                (fst (Parser.analyse
                        (Lexer.analyse [".code"; "loadConst 1e3, r0"]%string)))
                (arguments ins) ValueError).
Proof.
  split; [vm_compute; reflexivity|].
  apply (assemble_failures_of_parsed_programs
           (Lexer.analyse [".code"; "loadConst 1e3, r0"]%string)
           (fst (Parser.analyse (Lexer.analyse [".code"; "loadConst 1e3, r0"]%string)))
           None ValueError);
    vm_compute; reflexivity.
Defined.

Section UndefinedLabel.

Lemma assemble_section_app (p : parser) (l1 l2 : list instruction) :
  forall a,
    Assembler.assemble_section p a (l1 ++ l2)
    = bind (Assembler.assemble_section p a l1)
           (fun a1 => Assembler.assemble_section p a1 l2).
Proof.
  induction l1 as [|ins l1 IH]; intros a; simpl; [reflexivity|].
  unfold bind at 1 3. destruct (Assembler.assemble_instruction p a ins); [apply IH|].
  reflexivity.
Qed.

(** A jump, call or thread start whose label is defined nowhere in the code
    section stops the run, once the instructions before it are assembled:
    [main] prints [Assembler error: Undefined code label <name>], exits
    with status 3 and leaves the output path untouched. *)
Theorem undefined_label_is_reported
        (input : string) (p : parser) (l1 l2 : list instruction)
        (ins : instruction) (opcode : Assembler.Opcode) (kinds : list ascii)
        (label : string) (rest : list argument) (a1 : Assembler.state) :
  Parser.analyse (Lexer.analyse (readlines input)) = (p, None) ->
  code_section p = l1 ++ ins :: l2 ->
  Assembler.assemble_section p Assembler.initial l1 = Ok a1 ->
  Py.dict_get String.eqb Assembler.Opcodes (opcode_name ins) = Some opcode ->
  list_ascii_of_string (Assembler.args opcode) = "L"%char :: kinds ->
  arguments ins = StrArg label :: rest ->
  Py.dict_get String.eqb (code_labels p) label = None ->
  main input
  = {| exit := Exit 3;
       stdout := [("Assembler error: Undefined code label " ++ label)%string];
       output := None |}.
Proof.
  intros Hp Hcode H1 Hop Hkinds Hargs Hlabel.
  assert (Assembler.assemble p
          = Raise (AssemblerError ("Undefined code label " ++ label)%string)) as Ha.
  { unfold Assembler.assemble. rewrite Hcode, assemble_section_app, H1.
    cbn [bind Assembler.assemble_section].
    unfold Assembler.assemble_instruction. rewrite Hop, Hkinds, Hargs.
    cbn [Assembler.assemble_arguments].
    change (Ascii.eqb "L" "R") with false. change (Ascii.eqb "L" "C") with false.
    change (Ascii.eqb "L" "L") with true. cbv iota.
    unfold Assembler.assemble_label. rewrite Hlabel. reflexivity. }
  unfold main. rewrite Hp. unfold Assembler.build. rewrite Ha. reflexivity.
Qed.

Lemma undefined_label_witness :
  main (source [".dataSize 0"; ".code"; "hlt"; "jump nowhere"; "hlt"])
  = {| exit := Exit 3;
       stdout := [("Assembler error: Undefined code label " ++ "nowhere")%string];
       output := None |}.
Proof.
  apply (undefined_label_is_reported
           (source [".dataSize 0"; ".code"; "hlt"; "jump nowhere"; "hlt"])
           (fst (Parser.analyse
                   (Lexer.analyse
                      (readlines (source [".dataSize 0"; ".code"; "hlt";
                                          "jump nowhere"; "hlt"])))))
           [{| opcode_name := "hlt"; arguments := [] |}]
           [{| opcode_name := "hlt"; arguments := [] |}]
           {| opcode_name := "jump"; arguments := [StrArg "nowhere"] |}
           {| Assembler.code := "01101"; Assembler.args := "L" |}
           [] "nowhere" []
           {| Assembler.bytecode := ["1"; "0"; "1"; "1"; "0"]%char;
              Assembler.offsets_list := [0%nat];
              Assembler.offset_patches := [] |});
    vm_compute; reflexivity.
Defined.

End UndefinedLabel.

Section Outcomes.

Lemma analyse_failures (items : list Lexer.item) (p : parser) (e : exn) :
  Parser.analyse items = (p, Some e) ->
  (exists msg, e = ParserError msg) \/ e = IndexError \/ e = ValueError.
Proof.
  intros H. unfold Parser.analyse in H.
  destruct (analyse_loop_raises _ _ _ _ H)
    as (pre & n & line & tokens & post & p0 & _ & _ & Hl).
  eapply parse_line_failures; eauto.
Qed.

(** The ways a run can end.  Status 0 comes with a file and [All ok] as the
    last line printed; status 2 and status 3 come with one line of message
    and without any file; everything else is a traceback of [IndexError],
    [ValueError], [TypeError] or [struct.error], and a file is left behind
    by such a run only when the writer itself died ([ValueError] or
    [struct.error]). *)
Theorem run_outcomes (input : string) :
  (exit (main input) = Exit 0
   /\ output (main input) <> None
   /\ exists w, stdout (main input) = w ++ ["All ok"%string])
  \/ (exit (main input) = Exit 2
      /\ output (main input) = None
      /\ exists n msg,
           stdout (main input)
           = [("Parser error on line " ++ Py.format_d n ++ ": " ++ msg)%string])
  \/ (exit (main input) = Exit 3
      /\ output (main input) = None
      /\ exists label,
           stdout (main input)
           = [("Assembler error: Undefined code label " ++ label)%string])
  \/ (exists e,
         exit (main input) = Uncaught e
         /\ (e = IndexError \/ e = ValueError \/ e = TypeError \/ e = StructError)
         /\ (output (main input) <> None -> e = ValueError \/ e = StructError)).
Proof.
  unfold main.
  destruct (Parser.analyse (Lexer.analyse (readlines input))) as [p [e|]] eqn:Hp.
  - destruct (analyse_failures _ _ _ Hp) as [(msg & ->)|[-> | ->]]; simpl.
    + right. left. split; [reflexivity|]. split; [reflexivity|].
      exists (last_parsed_line_no p), msg. reflexivity.
    + right. right. right. exists IndexError. repeat split; auto. intros H; now elim H.
    + right. right. right. exists ValueError. repeat split; auto.
  - assert (Forall well_formed_instruction (code_section p)) as Hwf.
    { apply (analyse_loop_invariant _ Parser.init p None init_invariant Hp). }
    destruct (Assembler.build p) as [p' o] eqn:Hb.
    destruct (Assembler.raised o) as [e|] eqn:Hr.
    + destruct (build_failures _ _ _ _ Hwf Hb Hr)
        as [(Hf & Hpr & [(ins & _ & Hfail)|[-> | ->]])|(Hf & [-> | ->])].
      * destruct Hfail as [(-> & _)|(label & _ & _ & ->)]; simpl.
        -- right. right. right. exists ValueError. repeat split; auto.
        -- right. right. left. rewrite Hf, Hpr.
           split; [reflexivity|]. split; [reflexivity|]. exists label. reflexivity.
      * simpl. right. right. right. exists IndexError.
        repeat split; auto. rewrite Hf. intros H; now elim H.
      * simpl. right. right. right. exists TypeError.
        repeat split; auto. rewrite Hf. intros H; now elim H.
      * simpl. right. right. right. exists StructError. repeat split; auto.
      * simpl. right. right. right. exists ValueError. repeat split; auto.
    + left. simpl. split; [reflexivity|].
      destruct (build_success _ _ _ Hb Hr) as (a & d & cs & _ & _ & -> & _).
      split; [discriminate | eauto].
Qed.

(** When a run ends with status 2, the number in the message is the
    position, counted from 1, of a line of the source, and the message is
    the one the parser raised on the tokens of that very line. *)
Theorem parser_error_names_a_source_line (input : string) :
  exit (main input) = Exit 2 ->
  exists k line msg p0 p',
    nth_error (readlines input) k = Some line
    /\ stdout (main input)
       = [("Parser error on line " ++ Py.format_d (Z.of_nat k + 1) ++ ": " ++ msg)%string]
    /\ Parser.parse_line p0 (Py.split (Py.before "#" line))
       = (p', Some (ParserError msg)).
Proof.
  unfold main.
  destruct (Parser.analyse (Lexer.analyse (readlines input))) as [p [e|]] eqn:Hp.
  - intros Hexit.
    destruct e; try discriminate Hexit. simpl.
    unfold Parser.analyse in Hp.
    destruct (analyse_loop_raises _ _ _ _ Hp)
      as (pre & n & line & tokens & post & p0 & Hitems & _ & Hl).
    assert (In (n, line, tokens) (Lexer.analyse (readlines input))) as Hin.
    { rewrite Hitems. apply in_or_app. right. now left. }
    unfold Lexer.analyse in Hin. apply analyse_from_spec in Hin.
    destruct Hin as (k & Hn & Hk & Htok & _).
    exists k, line, msg, (Parser.set_last_parsed p0 n line), p.
    split; [exact Hk|]. split.
    + rewrite (parse_line_raises_line_no _ _ _ _ Hl). simpl.
      replace (Z.of_nat k + 1) with n by lia. reflexivity.
    + rewrite <- Htok. exact Hl.
  - destruct (Assembler.build p) as [p' o].
    destruct (Assembler.raised o) as [e|]; [|discriminate].
    destruct e; discriminate.
Qed.

Lemma parser_error_witness :
  exit (main twice_source) = Exit 2
  /\ exists k line msg p0 p',
       nth_error (readlines twice_source) k = Some line
       /\ stdout (main twice_source)
          = [("Parser error on line " ++ Py.format_d (Z.of_nat k + 1) ++ ": " ++ msg)%string]
       /\ Parser.parse_line p0 (Py.split (Py.before "#" line))
          = (p', Some (ParserError msg)).
Proof.
  split; [vm_compute; reflexivity|].
  apply (parser_error_names_a_source_line twice_source). vm_compute; reflexivity.
Defined.

End Outcomes.

(** ** Instruction offsets *)

Section Offsets.

#[local] Open Scope nat_scope.

Lemma opcode_codes_not_empty (name : string) (opcode : Assembler.Opcode) :
  Py.dict_get String.eqb Assembler.Opcodes name = Some opcode ->
  3 <= String.length (Assembler.code opcode) <= 6.
Proof.
  intros H. apply dict_get_in in H. revert opcode H. apply Forall_forall.
  simpl. repeat (apply Forall_cons; [simpl; lia|]). apply Forall_nil.
Qed.

Lemma append_bits_grows (a a1 : Assembler.state) (s : string) :
  Ok (Assembler.append_bits a s) = Ok a1 ->
  List.length (Assembler.bytecode a) <= List.length (Assembler.bytecode a1).
Proof. intros H. injection H as <-. simpl. rewrite length_app. lia. Qed.

Lemma assemble_arguments_grows (p : parser) (kinds : list ascii) :
  forall (data : list argument) (a a' : Assembler.state),
    Assembler.assemble_arguments p a kinds data = Ok a' ->
    List.length (Assembler.bytecode a) <= List.length (Assembler.bytecode a').
Proof.
  induction kinds as [|kind kinds IH]; intros data a a' H; simpl in H.
  - injection H as <-. lia.
  - destruct data as [|arg data]; [injection H as <-; lia|].
    unfold bind in H.
    destruct (Ascii.eqb kind "R").
    { destruct (Assembler.assemble_register a arg) as [a1|] eqn:H1; [|discriminate].
      specialize (IH _ _ _ H). unfold Assembler.assemble_register in H1.
      destruct arg as [id ref|t]; [|discriminate].
      destruct ref as [[|c r]|];
        try (apply append_bits_grows in H1; lia).
      destruct (Py.dict_get String.eqb Assembler.DataAccessTypes (String c r)) as [w|];
        [|discriminate].
      apply append_bits_grows in H1. lia. }
    destruct (Ascii.eqb kind "C").
    { destruct (Assembler.assemble_constant a arg) as [a1|] eqn:H1; [|discriminate].
      specialize (IH _ _ _ H). unfold Assembler.assemble_constant in H1.
      destruct arg as [id r|t]; [discriminate|].
      destruct (Py.int 0 t) as [v|]; [|discriminate].
      apply append_bits_grows in H1. lia. }
    destruct (Ascii.eqb kind "L").
    { destruct (Assembler.assemble_label p a arg) as [a1|] eqn:H1; [|discriminate].
      specialize (IH _ _ _ H). unfold Assembler.assemble_label in H1.
      destruct arg as [id r|t]; [discriminate|].
      destruct (Py.dict_get String.eqb (code_labels p) t) as [offset|]; [|discriminate].
      destruct (_ <? _); apply append_bits_grows in H1; simpl in H1; lia. }
    eauto.
Qed.

Lemma assemble_instruction_grows (p : parser) (a a' : Assembler.state)
      (ins : instruction) :
  Assembler.assemble_instruction p a ins = Ok a' ->
  List.length (Assembler.bytecode a) + 3 <= List.length (Assembler.bytecode a').
Proof.
  unfold Assembler.assemble_instruction. intros H.
  destruct (Py.dict_get String.eqb Assembler.Opcodes (opcode_name ins))
    as [opcode|] eqn:Hop; [|discriminate].
  apply assemble_arguments_grows in H. simpl in H.
  rewrite length_app, length_list_of_string in H.
  pose proof (opcode_codes_not_empty _ _ Hop). lia.
Qed.

Lemma StronglySorted_snoc (l : list nat) (x : nat) :
  StronglySorted lt l -> Forall (fun o => o < x) l -> StronglySorted lt (l ++ [x]).
Proof.
  induction 1 as [|y l Hl IH Hy]; intros Hx; simpl.
  - constructor; constructor.
  - inversion Hx; subst. constructor; [auto|].
    apply Forall_app. split; [exact Hy | constructor; [assumption | constructor]].
Qed.

Lemma assemble_section_offsets_sorted (p : parser) (l : list instruction) :
  forall a a',
    StronglySorted lt (Assembler.offsets_list a) ->
    Forall (fun o => o < List.length (Assembler.bytecode a)) (Assembler.offsets_list a) ->
    Assembler.assemble_section p a l = Ok a' ->
    StronglySorted lt (Assembler.offsets_list a')
    /\ Forall (fun o => o < List.length (Assembler.bytecode a')) (Assembler.offsets_list a')
    /\ List.length (Assembler.offsets_list a')
       = List.length (Assembler.offsets_list a) + List.length l
    /\ List.length (Assembler.bytecode a) + 3 * List.length l
       <= List.length (Assembler.bytecode a').
Proof.
  induction l as [|ins l IH]; intros a a' Hs Hb H; simpl in H.
  - injection H as <-. repeat split; auto; simpl; lia.
  - unfold bind in H.
    destruct (Assembler.assemble_instruction p a ins) as [a1|] eqn:H1; [|discriminate].
    pose proof (assemble_instruction_grows _ _ _ _ H1) as Hg.
    pose proof (assemble_instruction_offsets _ _ _ _ H1) as Ho.
    destruct (IH a1 a') as (A & B & C & D); [| |exact H|].
    + rewrite Ho. apply StronglySorted_snoc; assumption.
    + rewrite Ho. apply Forall_app. split.
      * eapply Forall_impl; [|exact Hb]. simpl. intros; lia.
      * constructor; [lia | constructor].
    + repeat split; auto.
      * rewrite C, Ho, length_app. simpl. lia.
      * simpl. lia.
Qed.

(** After a successful [assemble] there is one offset per instruction, the
    first is 0, they increase strictly (by at least the three bits of the
    shortest opcode), and each lies inside the buffer: two instructions
    never share an address. *)
Theorem instruction_offsets_increase (p : parser) (a : Assembler.state) :
  Assembler.assemble p = Ok a ->
  List.length (Assembler.offsets_list a) = List.length (code_section p)
  /\ StronglySorted lt (Assembler.offsets_list a)
  /\ Forall (fun o => o < List.length (Assembler.bytecode a)) (Assembler.offsets_list a)
  /\ (code_section p <> [] -> nth_error (Assembler.offsets_list a) 0 = Some 0)
  /\ 3 * List.length (code_section p) <= List.length (Assembler.bytecode a).
Proof.
  unfold Assembler.assemble, bind. intros H.
  destruct (Assembler.assemble_section p Assembler.initial (code_section p))
    as [a1|] eqn:H1; [|discriminate].
  unfold Assembler.apply_patches, bind in H.
  destruct (Assembler.patch_all _ _ _) as [bc|] eqn:H2; [|discriminate].
  injection H as <-. cbn [Assembler.offsets_list Assembler.bytecode].
  rewrite (patch_all_length _ _ _ _ H2).
  destruct (assemble_section_offsets_sorted p _ Assembler.initial a1
              (SSorted_nil _) (Forall_nil _) H1)
    as (A & B & C & D).
  simpl in C, D.
  repeat split; auto; try lia.
  intros Hne. destruct (code_section p) as [|ins l] eqn:Hc; [congruence|].
  destruct (offsets_list_records_starts p [] l ins Assembler.initial a1 H1)
    as (a0 & Ha0 & Hn).
  simpl in Ha0. injection Ha0 as <-. exact Hn.
Qed.

Lemma instruction_offsets_witness :
  Assembler.assemble jumps_parser = Ok jumps_image
  /\ Assembler.offsets_list jumps_image = [0; 5; 10; 47; 84; 89]
  /\ List.length (Assembler.offsets_list jumps_image)
     = List.length (code_section jumps_parser)
  /\ StronglySorted lt (Assembler.offsets_list jumps_image)
  /\ Forall (fun o => o < List.length (Assembler.bytecode jumps_image))
            (Assembler.offsets_list jumps_image)
  /\ (code_section jumps_parser <> [] ->
      nth_error (Assembler.offsets_list jumps_image) 0 = Some 0)
  /\ 3 * List.length (code_section jumps_parser)
     <= List.length (Assembler.bytecode jumps_image).
Proof.
  split; [vm_compute; reflexivity|]. split; [vm_compute; reflexivity|].
  apply (instruction_offsets_increase jumps_parser jumps_image).
  vm_compute; reflexivity.
Defined.

End Offsets.

(** ** Arguments of an instruction line *)

Section RegisterText.

Lemma dec_digit_true (c : ascii) : In c dec_digits -> Py.is_dec_digit c = true.
Proof.
  unfold dec_digits. simpl. intros H.
  repeat (destruct H as [<-|H]; [reflexivity|]). destruct H.
Qed.

Lemma span_digits_app (d t : string) :
  Forall (fun c => In c dec_digits) (list_ascii_of_string d) ->
  match t with
  | String c _ => Py.is_dec_digit c = false
  | EmptyString => True
  end ->
  Py.span_digits (d ++ t) = (d, t).
Proof.
  intros Hd Ht. induction d as [|c d IH]; simpl.
  - destruct t as [|c t]; [reflexivity|]. simpl. now rewrite Ht.
  - inversion Hd as [|c' l' Hc Hl]; subst.
    rewrite (dec_digit_true _ Hc), (IH Hl). reflexivity.
Qed.

(** The register pattern is matched at the start of the argument only:
    whatever follows the digits of [r<digits>] is ignored, so that the
    argument [r<digits><rest>] is read as register [<digits>]. *)
Theorem register_argument_ignores_its_tail (d t : string) :
  d <> ""%string ->
  Forall (fun c => In c dec_digits) (list_ascii_of_string d) ->
  match t with
  | String c _ => Py.is_dec_digit c = false
  | EmptyString => True
  end ->
  Parser.match_register (String "r" (d ++ t)) = Some (d, None)
  /\ Parser.parse_argument "R" (String "r" (d ++ t))
     = Parser.parse_argument "R" (String "r" d).
Proof.
  intros Hne Hd Ht.
  assert (forall t', match t' with
                     | String c _ => Py.is_dec_digit c = false
                     | EmptyString => True
                     end ->
                     Parser.match_register (String "r" (d ++ t')) = Some (d, None)) as Hm.
  { intros t' Ht'. unfold Parser.match_register, Py.match_register_val.
    change (Ascii.eqb "r" "r") with true. cbv iota.
    rewrite (span_digits_app d t' Hd Ht').
    destruct d as [|c d']; [congruence | reflexivity]. }
  split; [apply Hm, Ht|].
  pose proof (Hm ""%string I) as Hm0.
  assert (d ++ "" = d)%string as Hnil by (clear; induction d; simpl; congruence).
  rewrite Hnil in Hm0.
  unfold Parser.parse_argument. now rewrite (Hm t Ht), Hm0.
Qed.

Lemma register_tail_witness :
  Parser.match_register (String "r" ("1" ++ "O, r2")) = Some ("1"%string, None)
  /\ Parser.parse_argument "R" (String "r" ("1" ++ "O, r2"))
     = Parser.parse_argument "R" (String "r" "1")
  /\ Parser.parse_argument "R" "r1O, r2" = Ok (RegArg 1 None).
Proof.
  destruct (register_argument_ignores_its_tail "1" "O, r2") as (A & B).
  - discriminate.
  - constructor; [right; left; reflexivity | constructor].
  - reflexivity.
  - split; [exact A|]. split; [exact B | reflexivity].
Defined.

End RegisterText.

Section Commas.

#[local] Open Scope nat_scope.

Lemma split_commas_length (s : string) :
  forall cur, List.length (Py.split_commas s cur) = S (commas s).
Proof.
  induction s as [|c s IH]; intros cur; [reflexivity|].
  cbn [Py.split_commas]. unfold commas, chars.
  cbn [list_ascii_of_string filter]. rewrite (Ascii.eqb_sym "," c).
  destruct (Ascii.eqb c ","); cbn [List.length]; rewrite IH; reflexivity.
Qed.

Lemma trim_pieces_length (l : list string) :
  forall first, List.length (Py.trim_pieces first l) = List.length l.
Proof.
  induction l as [|x l IH]; intros first; [reflexivity|].
  destruct l as [|y l]; [reflexivity|].
  change (Py.trim_pieces first (x :: y :: l))
    with (Py.rstrip (if first then x else Py.lstrip x) :: Py.trim_pieces false (y :: l)).
  change (S (List.length (Py.trim_pieces false (y :: l))) = S (List.length (y :: l))).
  now rewrite IH.
Qed.

Lemma translate_argument_tokens_length (tokens : list string) :
  List.length (Parser.translate_argument_tokens tokens)
  = match tokens with
    | [] => 0
    | _ => S (commas (Py.join " " tokens))
    end.
Proof.
  destruct tokens as [|t ts]; [reflexivity|].
  unfold Parser.translate_argument_tokens, Py.re_split_commas.
  now rewrite trim_pieces_length, split_commas_length.
Qed.

(** An instruction line is accepted only when the text after the mnemonic
    holds one comma less than the opcode takes arguments (and nothing at
    all for an opcode without arguments); any other line with a known
    mnemonic is refused with [Bad opcode argument count], whatever its
    arguments look like. *)
Theorem argument_count_is_comma_count
        (p : parser) (name : string) (rest : list string) (opcode : Assembler.Opcode)
        (given : nat) :
  Py.dict_get String.eqb Assembler.Opcodes name = Some opcode ->
  given = match rest with
          | [] => 0
          | _ => S (commas (Py.join " " rest))
          end ->
  (given <> String.length (Assembler.args opcode) ->
   Parser.parse_code p (name :: rest)
   = (p, Some (ParserError "Bad opcode argument count")))
  /\ (forall p', Parser.parse_code p (name :: rest) = (p', None) ->
                 given = String.length (Assembler.args opcode)).
Proof.
  intros Hop Hgiven. unfold Parser.parse_code. rewrite Hop.
  rewrite translate_argument_tokens_length, <- Hgiven.
  destruct (Nat.eqb_spec given (String.length (Assembler.args opcode))) as [E|E]; simpl.
  - split; [congruence | auto].
  - split; [reflexivity | discriminate].
Qed.

Lemma argument_count_witness :
  Parser.parse_code code_mode_parser ["hlt"; "r1"]%string
  = (code_mode_parser, Some (ParserError "Bad opcode argument count"))
  /\ Parser.parse_code code_mode_parser ["mov"; "r1,"; "r2,"]%string
     = (code_mode_parser, Some (ParserError "Bad opcode argument count")).
Proof.
  split.
  - apply (argument_count_is_comma_count code_mode_parser "hlt" ["r1"]%string
             {| Assembler.code := "10110"; Assembler.args := "" |} 1 eq_refl eq_refl).
    vm_compute. discriminate.
  - apply (argument_count_is_comma_count code_mode_parser "mov" ["r1,"; "r2,"]%string
             {| Assembler.code := "000"; Assembler.args := "RR" |} 3 eq_refl eq_refl).
    vm_compute. discriminate.
Defined.

End Commas.

(** ** The code of a register argument *)

Section RegisterCode.

Lemma app_same_length {A : Type} (x y r s : list A) :
  List.length x = List.length y -> x ++ r = y ++ s -> x = y /\ r = s.
Proof.
  revert y. induction x as [|u x IH]; intros [|v y] Hl H; simpl in *;
    try discriminate; [auto|].
  injection H as -> H. destruct (IH y) as (-> & ->); [lia | exact H | auto].
Qed.

Lemma width_codes (w : string) :
  In w (map fst Assembler.DataAccessTypes) ->
  exists bits,
    Py.dict_get String.eqb Assembler.DataAccessTypes w = Some bits
    /\ String.length bits = 2%nat
    /\ w <> ""%string.
Proof.
  simpl. intros H.
  repeat (destruct H as [<-|H];
          [eexists; split; [reflexivity | split; [reflexivity | discriminate]]|]).
  destruct H.
Qed.

Lemma width_codes_differ (w1 w2 bits : string) :
  In w1 (map fst Assembler.DataAccessTypes) ->
  In w2 (map fst Assembler.DataAccessTypes) ->
  Py.dict_get String.eqb Assembler.DataAccessTypes w1 = Some bits ->
  Py.dict_get String.eqb Assembler.DataAccessTypes w2 = Some bits ->
  w1 = w2.
Proof.
  simpl. intros H1 H2.
  repeat (destruct H1 as [<-|H1];
          [repeat (destruct H2 as [<-|H2];
                   [intros E1 E2; vm_compute in E1, E2;
                    first [reflexivity | congruence]|]);
           destruct H2|]).
  destruct H1.
Qed.

Lemma register_bits (a a' : Assembler.state) (id : Z) (ref : option string) :
  0 <= id <= 15 ->
  ref = None \/ (exists w, ref = Some w /\ In w (map fst Assembler.DataAccessTypes)) ->
  Assembler.assemble_register a (RegArg id ref) = Ok a' ->
  exists head,
    Assembler.bytecode a' = Assembler.bytecode a ++ head ++ encode_lsb 4 id
    /\ List.length (encode_lsb 4 id) = 4%nat
    /\ match ref with
       | None => head = ["0"%char]
       | Some w =>
           exists bits,
             Py.dict_get String.eqb Assembler.DataAccessTypes w = Some bits
             /\ head = "1"%char :: rev (list_ascii_of_string bits)
             /\ List.length (rev (list_ascii_of_string bits)) = 2%nat
       end.
Proof.
  intros Hid Href H.
  destruct Href as [->|(w & -> & Hw)].
  - destruct (register_field_widths a id "byte" "00" Hid eq_refl) as (Hv & _ & Hl & _);
      [discriminate|].
    rewrite Hv in H. injection H as <-. exists ["0"%char]. simpl.
    rewrite list_ascii_of_string_of_list_ascii. auto.
  - destruct (width_codes _ Hw) as (bits & Hb & Hlen & Hne).
    destruct (register_field_widths a id w bits Hid Hb Hne) as (_ & Hr & Hl & _).
    rewrite Hr in H. injection H as <-.
    exists ("1"%char :: rev (list_ascii_of_string bits)). simpl.
    rewrite list_of_string_app, list_of_str_rev, list_ascii_of_string_of_list_ascii.
    split; [reflexivity|]. split; [exact Hl|].
    exists bits. repeat split; auto.
    now rewrite length_rev, length_list_of_string.
Qed.

(** For ids up to 15, what [__assemble_register] appends determines the
    argument and where its code ends: if two arguments are assembled from
    the same state and the buffers agree once continued in some way, then
    the ids and the widths are the same and so are the continuations. *)
Theorem register_code_is_prefix_free
        (a a1 a2 : Assembler.state) (id1 id2 : Z) (ref1 ref2 : option string)
        (r1 r2 : list ascii) :
  0 <= id1 <= 15 ->
  0 <= id2 <= 15 ->
  ref1 = None \/ (exists w, ref1 = Some w /\ In w (map fst Assembler.DataAccessTypes)) ->
  ref2 = None \/ (exists w, ref2 = Some w /\ In w (map fst Assembler.DataAccessTypes)) ->
  Assembler.assemble_register a (RegArg id1 ref1) = Ok a1 ->
  Assembler.assemble_register a (RegArg id2 ref2) = Ok a2 ->
  Assembler.bytecode a1 ++ r1 = Assembler.bytecode a2 ++ r2 ->
  id1 = id2 /\ ref1 = ref2 /\ r1 = r2.
Proof.
  intros Hid1 Hid2 Href1 Href2 H1 H2 Heq.
  destruct (register_bits _ _ _ _ Hid1 Href1 H1) as (h1 & B1 & L1 & F1).
  destruct (register_bits _ _ _ _ Hid2 Href2 H2) as (h2 & B2 & L2 & F2).
  rewrite B1, B2, <- !app_assoc in Heq. apply app_inv_head in Heq.
  assert (forall e1 e2, List.length e1 = 4%nat -> List.length e2 = 4%nat ->
                        e1 ++ r1 = e2 ++ r2 ->
                        lsb_value e1 = id1 -> lsb_value e2 = id2 ->
                        id1 = id2 /\ r1 = r2) as Hid.
  { intros e1 e2 A1 A2 E V1 V2.
    destruct (app_same_length e1 e2 r1 r2) as (-> & ->); [lia | exact E|].
    split; [congruence | reflexivity]. }
  pose proof (encode_lsb_value 4 id1 (proj1 Hid1)) as V1.
  pose proof (encode_lsb_value 4 id2 (proj1 Hid2)) as V2.
  destruct ref1 as [w1|], ref2 as [w2|].
  - destruct F1 as (b1 & D1 & -> & N1), F2 as (b2 & D2 & -> & N2).
    simpl in Heq. injection Heq as Heq.
    destruct (app_same_length _ _ _ _ (eq_trans N1 (eq_sym N2)) Heq) as (Hw & Hrest).
    destruct (Hid _ _ L1 L2 Hrest V1 V2) as (-> & ->).
    split; [reflexivity|]. split; [|reflexivity]. f_equal.
    assert (b1 = b2) as ->.
    { rewrite <- (string_of_list_ascii_of_string b1), <- (string_of_list_ascii_of_string b2).
      f_equal. rewrite <- (rev_involutive (list_ascii_of_string b1)), Hw.
      apply rev_involutive. }
    destruct Href1 as [E|(w & E & Hw1)]; [discriminate|]. injection E as <-.
    destruct Href2 as [E|(w & E & Hw2)]; [discriminate|]. injection E as <-.
    eapply width_codes_differ; eauto.
  - destruct F1 as (b1 & D1 & -> & N1). subst h2. discriminate Heq.
  - destruct F2 as (b2 & D2 & -> & N2). subst h1. discriminate Heq.
  - subst h1 h2. simpl in Heq. injection Heq as Heq.
    destruct (Hid _ _ L1 L2 Heq V1 V2) as (-> & ->). auto.
Qed.

Lemma register_code_witness :
  Assembler.assemble_register Assembler.initial (RegArg 3 (Some "dword"%string))
  = Ok (Assembler.append_bits Assembler.initial "1011100")
  /\ (3 = 3 /\ Some "dword"%string = Some "dword"%string
      /\ ["0"; "1"]%char = ["0"; "1"]%char).
Proof.
  split; [reflexivity|].
  apply (register_code_is_prefix_free
           Assembler.initial
           (Assembler.append_bits Assembler.initial "1011100")
           (Assembler.append_bits Assembler.initial "1011100")
           3 3 (Some "dword"%string) (Some "dword"%string)
           ["0"; "1"]%char ["0"; "1"]%char);
    try lia; try reflexivity;
    right; exists "dword"%string; (split; [reflexivity | simpl; tauto]).
Defined.

End RegisterCode.

(** ** Programs that assemble *)

Section Success.

#[local] Open Scope nat_scope.

Lemma tables_are_bits :
  Forall (fun o => Forall is_bit (list_ascii_of_string (Assembler.code o))
                   /\ String.length (Assembler.code o)
                      + args_width (list_ascii_of_string (Assembler.args o)) <= 75)
         (map snd Assembler.Opcodes)
  /\ Forall (fun w => Forall is_bit (list_ascii_of_string w) /\ String.length w = 2)
            (map snd Assembler.DataAccessTypes).
Proof.
  split; simpl;
    repeat (apply Forall_cons;
            [split;
             [simpl;
              repeat (apply Forall_cons;
                      [first [left; reflexivity | right; reflexivity] |]);
              apply Forall_nil
             |first [reflexivity | apply Nat.leb_le; reflexivity]] |]);
    apply Forall_nil.
Qed.

Lemma encode_lsb_short (w w' : nat) (n : Z) :
  (0 <= n < 2 ^ Z.of_nat w')%Z -> w <= w' -> 1 <= w' ->
  List.length (encode_lsb w n) <= w'.
Proof.
  intros Hn Hw Hw'. rewrite encode_lsb_nonneg by lia.
  pose proof (bin_digits_length n w' Hn Hw').
  rewrite length_app, length_rev, repeat_length. lia.
Qed.

Lemma append_bits_bytecode (a : Assembler.state) (s : string) :
  Assembler.bytecode (Assembler.append_bits a s)
  = Assembler.bytecode a ++ list_ascii_of_string s.
Proof. reflexivity. Qed.

Section Arguments.

Variable p : parser.

Let N : nat := List.length (code_section p).

Lemma append_bits_sound (a : Assembler.state) (s : string) :
  sound_state N a ->
  Forall is_bit (list_ascii_of_string s) ->
  sound_state N (Assembler.append_bits a s).
Proof.
  intros (A & B & C) Hs. split; [|split]; simpl; auto.
  apply Forall_app. now split.
Qed.

Lemma assemble_arguments_ok (kinds : list ascii) (args : list argument) :
  Forall2 well_formed_argument kinds args ->
  Forall2 (resolved_argument p) kinds args ->
  forall a,
    sound_state N a ->
    exists a',
      Assembler.assemble_arguments p a kinds args = Ok a'
      /\ sound_state N a'
      /\ List.length (Assembler.bytecode a')
         <= List.length (Assembler.bytecode a) + args_width kinds.
Proof.
  induction 1 as [|kind arg kinds args Hwf Hrest IH]; intros Hres a Ha.
  - exists a. simpl. repeat split; try apply Ha. lia.
  - inversion Hres as [|k' a' ks' as' Hr Hrs]; subst.
    assert (forall a1 w,
               sound_state N a1 ->
               List.length (Assembler.bytecode a1)
               <= List.length (Assembler.bytecode a) + w ->
               w <= kind_width kind ->
               exists a',
                 Assembler.assemble_arguments p a1 kinds args = Ok a'
                 /\ sound_state N a'
                 /\ List.length (Assembler.bytecode a')
                    <= List.length (Assembler.bytecode a) + args_width (kind :: kinds))
      as Hnext.
    { intros a1 w H1 Hl Hw. destruct (IH Hrs a1 H1) as (a' & E & S' & L').
      exists a'. split; [exact E|]. split; [exact S'|]. simpl. lia. }
    cbn [Assembler.assemble_arguments]. unfold bind.
    destruct arg as [id ref|text].
    + destruct Hwf as (-> & Hid & Href).
      change (Ascii.eqb "R" "R") with true. cbv iota.
      assert (Forall is_bit (encode_lsb 4 id)) as Hbits by (apply encode_lsb_bits; lia).
      assert (List.length (encode_lsb 4 id) <= 5) as Hlen.
      { apply encode_lsb_short; [|lia|lia]. change (2 ^ Z.of_nat 5)%Z with 32%Z. lia. }
      unfold Assembler.assemble_register.
      destruct Href as [->|(w & -> & Hw)].
      * eapply (Hnext _ (1 + List.length (encode_lsb 4 id))).
        -- apply append_bits_sound; [exact Ha|].
           constructor; [now left | exact Hbits].
        -- rewrite append_bits_bytecode, length_app. simpl. unfold encode_lsb. lia.
        -- change (kind_width "R") with 8. lia.
      * destruct (width_key_found _ Hw) as (c & r & bits & -> & Hb). rewrite Hb.
        destruct tables_are_bits as (_ & Ht). rewrite Forall_forall in Ht.
        destruct (Ht bits (dict_get_in _ _ _ Hb)) as (Hwb & Hwl).
        eapply (Hnext _ (3 + List.length (encode_lsb 4 id))).
        -- apply append_bits_sound; [exact Ha|].
           constructor; [now right|].
           rewrite list_of_string_app. apply Forall_app. split; [|exact Hbits].
           rewrite list_of_str_rev. now apply Forall_rev.
        -- rewrite append_bits_bytecode, length_app. simpl.
           rewrite list_of_string_app, length_app, list_of_str_rev, length_rev,
             length_list_of_string, Hwl.
           unfold encode_lsb. lia.
        -- change (kind_width "R") with 8. lia.
    + destruct Hr as (HC & HL). destruct Hwf as [-> | ->].
      * change (Ascii.eqb "C" "R") with false. change (Ascii.eqb "C" "C") with true.
        cbv iota. destruct (HC eq_refl) as (v & Hv & Hrange).
        unfold Assembler.assemble_constant. rewrite Hv.
        eapply (Hnext _ 64).
        -- apply append_bits_sound; [exact Ha|]. apply (encode_lsb_bits 64 v). lia.
        -- rewrite append_bits_bytecode, length_app.
           pose proof (encode_lsb_length 64 v) as Hl. unfold encode_lsb in Hl.
           rewrite Hl; [lia | exact Hrange | lia].
        -- change (kind_width "C") with 64. lia.
      * change (Ascii.eqb "L" "R") with false. change (Ascii.eqb "L" "C") with false.
        change (Ascii.eqb "L" "L") with true. cbv iota.
        destruct (HL eq_refl) as (j & Hj & Hrange).
        unfold Assembler.assemble_label. rewrite Hj.
        destruct Ha as (A & B & C).
        destruct (Nat.ltb_spec j (List.length (Assembler.offsets_list a))) as [Hlt|Hge].
        -- assert (Z.of_nat (nth j (Assembler.offsets_list a) O) < 2 ^ 32)%Z as Hsmall.
           { rewrite Forall_forall in C. apply C. now apply nth_In. }
           eapply (Hnext _ 32).
           ++ apply append_bits_sound; [repeat split; assumption|].
              apply (encode_lsb_bits 32). lia.
           ++ rewrite append_bits_bytecode, length_app.
              pose proof (encode_lsb_length 32 (Z.of_nat (nth j (Assembler.offsets_list a) O)))
                as Hl.
              unfold encode_lsb in Hl. rewrite Hl; [lia | lia | lia].
           ++ change (kind_width "L") with 32. lia.
        -- eapply (Hnext _ 32).
           ++ apply append_bits_sound; [|apply (encode_lsb_bits 32); lia].
              split; [exact A|]. split; [|exact C]. simpl.
              intros q j' Hq. apply dict_set_in in Hq.
              destruct Hq as [(_ & ->)|Hq]; [lia | eauto].
           ++ rewrite append_bits_bytecode, length_app. simpl. lia.
           ++ change (kind_width "L") with 32. lia.
Qed.

Lemma assemble_section_ok (l : list instruction) :
  Forall well_formed_instruction l ->
  Forall (resolved_instruction p) l ->
  forall a,
    sound_state N a ->
    (Z.of_nat (List.length (Assembler.bytecode a)) + 75 * Z.of_nat (List.length l)
     < 2 ^ 32)%Z ->
    exists a',
      Assembler.assemble_section p a l = Ok a'
      /\ sound_state N a'
      /\ List.length (Assembler.bytecode a')
         <= List.length (Assembler.bytecode a) + 75 * List.length l.
Proof.
  induction 1 as [|ins l Hwf Hl IH]; intros Hres a Ha Hbound.
  - exists a. simpl. repeat split; try apply Ha. lia.
  - inversion Hres as [|i' l' Hr Hrs]; subst.
    destruct Hwf as (opcode & Hop & Hargs).
    destruct tables_are_bits as (Ht & _). rewrite Forall_forall in Ht.
    destruct (Ht opcode (dict_get_in _ _ _ Hop)) as (Hcode & Hwidth).
    set (a1 := {| Assembler.bytecode := Assembler.bytecode a;
                  Assembler.offsets_list :=
                    Assembler.offsets_list a ++ [List.length (Assembler.bytecode a)];
                  Assembler.offset_patches := Assembler.offset_patches a |}).
    assert (sound_state N (Assembler.append_bits a1 (Assembler.code opcode))) as H2.
    { apply append_bits_sound; [|exact Hcode].
      destruct Ha as (A & B & C). split; [exact A|]. split; [exact B|]. simpl.
      apply Forall_app. split; [exact C|]. constructor; [|constructor].
      simpl List.length in Hbound. lia. }
    destruct (assemble_arguments_ok _ _ Hargs (Hr opcode Hop) _ H2)
      as (a3 & E3 & S3 & L3).
    rewrite append_bits_bytecode, length_app, length_list_of_string in L3.
    simpl Assembler.bytecode in L3.
    destruct (IH Hrs a3 S3) as (a' & E & S' & L').
    { simpl List.length in Hbound. lia. }
    exists a'. split; [|split; [exact S'|simpl List.length; lia]].
    simpl. unfold bind, Assembler.assemble_instruction. rewrite Hop.
    fold a1. rewrite E3. exact E.
Qed.

End Arguments.

End Success.

Section SuccessOfBuild.

#[local] Open Scope nat_scope.

Lemma list_set_ok {A : Type} (l : list A) (i : nat) (x : A) :
  i < List.length l -> exists l', Py.list_set l i x = Some l'.
Proof.
  revert i. induction l as [|y l IH]; intros i H; simpl in H; [lia|].
  destruct i as [|i]; simpl; [eauto|].
  destruct (IH i) as (l' & ->); [lia | eauto].
Qed.

Lemma write_bits_ok (bits : list ascii) :
  forall bc pos,
    pos + List.length bits <= List.length bc ->
    exists bc', Assembler.write_bits bc pos bits = Some bc'.
Proof.
  induction bits as [|b bits IH]; intros bc pos H; simpl; [eauto|].
  simpl in H. destruct (list_set_ok bc pos b) as (bc1 & E); [lia|].
  rewrite E. apply IH. destruct (list_set_nth _ _ _ _ E) as (Hl & _). lia.
Qed.

Lemma write_bits_forall (P : ascii -> Prop) (bits : list ascii) :
  forall bc pos bc',
    Assembler.write_bits bc pos bits = Some bc' ->
    Forall P bc -> Forall P bits -> Forall P bc'.
Proof.
  induction bits as [|b bits IH]; intros bc pos bc' H Hbc Hbits; simpl in H.
  - now injection H as <-.
  - destruct (Py.list_set bc pos b) as [bc1|] eqn:E; [|discriminate].
    inversion Hbits; subst.
    eapply IH; eauto. eapply list_set_symbols; eauto.
Qed.

Lemma patch_all_ok (offsets : list nat) :
  Forall (fun o => (Z.of_nat o < 2 ^ 32)%Z) offsets ->
  forall patches bc,
    (forall q j, In (q, j) patches ->
                 j < List.length offsets /\ q + 32 <= List.length bc) ->
    Forall is_bit bc ->
    exists bc',
      Assembler.patch_all offsets patches bc = Ok bc'
      /\ List.length bc' = List.length bc
      /\ Forall is_bit bc'.
Proof.
  intros Hoffs. induction patches as [|[position offset] rest IH]; intros bc Hp Hbc.
  - exists bc. auto.
  - destruct (Hp position offset (or_introl eq_refl)) as (Hj & Hq).
    simpl. destruct (nth_error offsets offset) as [address|] eqn:Ha.
    2:{ apply nth_error_None in Ha. lia. }
    fold (encode_lsb 32 (Z.of_nat address)).
    assert (List.length (encode_lsb 32 (Z.of_nat address)) = 32) as Hlen.
    { apply encode_lsb_length; [|lia]. split; [lia|].
      rewrite Forall_forall in Hoffs. apply Hoffs. eapply nth_error_In; eauto. }
    destruct (write_bits_ok (encode_lsb 32 (Z.of_nat address)) bc position) as (bc1 & E);
      [lia|].
    rewrite E. destruct (write_bits_nth _ _ _ _ E) as (Hl1 & _).
    destruct (IH bc1) as (bc' & E' & Hl' & Hb').
    + intros q j Hin. destruct (Hp q j (or_intror Hin)). lia.
    + eapply write_bits_forall; [exact E | exact Hbc|]. apply encode_lsb_bits. lia.
    + exists bc'. repeat split; [exact E' | lia | exact Hb'].
Qed.

Lemma scan_digits_bits (l : list ascii) :
  Forall is_bit l ->
  forall acc,
    Py.scan_digits 2 (string_of_list_ascii l) false acc
    = Some (fold_left (fun acc c => (2 * acc + bit_of c)%Z) l acc, ""%string).
Proof.
  induction 1 as [|c l Hc Hl IH]; intros acc; [reflexivity|].
  destruct Hc as [-> | ->].
  - change (Py.scan_digits 2 (string_of_list_ascii ("0"%char :: l)) false acc)
      with (Py.scan_digits 2 (string_of_list_ascii l) false (acc * 2 + 0)%Z).
    rewrite IH. cbn [fold_left]. change (bit_of "0") with 0%Z.
    do 2 f_equal. f_equal. lia.
  - change (Py.scan_digits 2 (string_of_list_ascii ("1"%char :: l)) false acc)
      with (Py.scan_digits 2 (string_of_list_ascii l) false (acc * 2 + 1)%Z).
    rewrite IH. cbn [fold_left]. change (bit_of "1") with 1%Z.
    do 2 f_equal. f_equal. lia.
Qed.

(** A non-empty group of binary digits is always read by [int(..., 2)]. *)
Lemma int2_bits (l : list ascii) :
  l <> [] -> Forall is_bit l ->
  Py.int 2 (string_of_list_ascii l) = Some (msb_value l).
Proof.
  intros Hne Hl.
  assert (Py.int_magnitude 2 (string_of_list_ascii l) = Some (msb_value l)) as Hm.
  { assert (Py.skip_prefix 2 (string_of_list_ascii l) = string_of_list_ascii l) as Hskip.
    { destruct Hl as [|c l Hc Hl]; [reflexivity|].
      destruct Hc as [-> | ->]; try reflexivity.
      destruct Hl as [|c2 l Hc2 Hl]; [reflexivity|].
      destruct Hc2 as [-> | ->]; reflexivity. }
    unfold Py.int_magnitude.
    change (Py.detect_base 2 (string_of_list_ascii l)) with (2%Z, false).
    cbv iota beta. rewrite Hskip, (scan_digits_bits l Hl 0%Z).
    destruct l as [|c l]; [congruence|].
    inversion Hl as [|c' l' Hc Hl']; subst.
    destruct Hc as [-> | ->]; reflexivity. }
  destruct l as [|c l]; [congruence|].
  inversion Hl as [|c' l' Hc Hl']; subst.
  destruct Hc as [-> | ->].
  - change (match Py.int_magnitude 2 (string_of_list_ascii ("0"%char :: l)) with
            | Some v => Some v | None => None end = Some (msb_value ("0"%char :: l))).
    now rewrite Hm.
  - change (match Py.int_magnitude 2 (string_of_list_ascii ("1"%char :: l)) with
            | Some v => Some v | None => None end = Some (msb_value ("1"%char :: l))).
    now rewrite Hm.
Qed.

Lemma msb_fold_bound (l : list ascii) :
  forall acc,
    (0 <= acc)%Z ->
    (fold_left (fun acc c => 2 * acc + bit_of c) l acc
     < (acc + 1) * 2 ^ Z.of_nat (List.length l))%Z.
Proof.
  induction l as [|c l IH]; intros acc Hacc.
  - simpl. lia.
  - cbn [fold_left List.length]. rewrite Nat2Z.inj_succ, Z.pow_succ_r by lia.
    assert (0 <= bit_of c <= 1)%Z as Hb
        by (unfold bit_of; destruct (Ascii.eqb c "1"); lia).
    specialize (IH (2 * acc + bit_of c)%Z ltac:(lia)).
    assert (0 < 2 ^ Z.of_nat (List.length l))%Z by (apply Z.pow_pos_nonneg; lia).
    nia.
Qed.

Lemma write_code_ok (bc : list ascii) (indices : list nat) :
  Forall is_bit bc ->
  (forall i, In i indices -> i + 8 <= List.length bc) ->
  forall out, exists out', Assembler.write_code bc indices out = (out', None).
Proof.
  intros Hbc. induction indices as [|i rest IH]; intros Hi out; simpl; [eauto|].
  specialize (Hi i (or_introl eq_refl)) as Hlen.
  assert (List.length (firstn 8 (skipn i bc)) = 8) as Hchunk.
  { rewrite length_firstn, length_skipn. lia. }
  unfold Assembler.chunk_value. rewrite int2_bits.
  - pose proof (msb_fold_bound (firstn 8 (skipn i bc)) 0%Z ltac:(lia)) as Hup.
    pose proof (msb_fold_nonneg (firstn 8 (skipn i bc)) 0%Z ltac:(lia)) as Hlo.
    rewrite Hchunk in Hup. change (2 ^ Z.of_nat 8)%Z with 256%Z in Hup.
    fold (msb_value (firstn 8 (skipn i bc))) in Hup, Hlo.
    unfold Py.pack_B.
    destruct (Z.leb_spec 0 (msb_value (firstn 8 (skipn i bc)))); [|lia].
    destruct (Z.leb_spec (msb_value (firstn 8 (skipn i bc))) 255); [|lia].
    simpl. apply IH. intros j Hj. apply Hi. now right.
  - intros E. rewrite E in Hchunk. discriminate.
  - apply (Forall_slice is_bit bc i 8 Hbc).
Qed.

Lemma write_data_ok (data : list Z) :
  Forall (fun b => 0 <= b <= 255)%Z data ->
  forall out, exists out', Assembler.write_data data out = (out', None).
Proof.
  induction 1 as [|b data Hb Hdata IH]; intros out; simpl; [eauto|].
  unfold Py.pack_B.
  destruct (Z.leb_spec 0 b); [|lia]. destruct (Z.leb_spec b 255); [|lia].
  simpl. apply IH.
Qed.

Lemma pack_I_ok (n : Z) : (0 <= n < 2 ^ 32)%Z -> Py.pack_I n = Some (le32_bytes n).
Proof.
  intros H. unfold Py.pack_I.
  destruct (Z.leb_spec 0 n); [|lia]. destruct (Z.ltb_spec n (2 ^ 32)); [|lia].
  reflexivity.
Qed.

Lemma write_file_ok (bc : list ascii) (size : Z) (data : list Z) (m : nat) :
  Forall is_bit bc ->
  List.length bc = 8 * m ->
  (Z.of_nat m < 2 ^ 32)%Z ->
  (0 <= size < 2 ^ 32)%Z ->
  (Z.of_nat (List.length data) < 2 ^ 32)%Z ->
  Forall (fun b => 0 <= b <= 255)%Z data ->
  exists bytes, Assembler.write_file bc size data = (bytes, None).
Proof.
  intros Hbc Hm Hsmall Hsize Hdl Hdata. unfold Assembler.write_file.
  assert (List.length bc / 8 = m) as Hdiv.
  { rewrite Hm, Nat.mul_comm. apply Nat.div_mul. lia. }
  rewrite (pack_I_ok (Z.of_nat (List.length bc / 8))) by (rewrite Hdiv; lia).
  rewrite (pack_I_ok size Hsize).
  rewrite (pack_I_ok (Z.of_nat (List.length data))) by lia.
  destruct (write_code_ok bc (Assembler.range8 (List.length bc)) Hbc) with
    (out := Assembler.magic ++ le32_bytes (Z.of_nat (List.length bc / 8))
              ++ le32_bytes size ++ le32_bytes (Z.of_nat (List.length data)))
    as (out1 & E1).
  { intros i Hi. unfold Assembler.range8 in Hi. apply in_map_iff in Hi.
    destruct Hi as (k & <- & Hk). apply in_seq in Hk.
    assert ((List.length bc + 7) / 8 = m) as Hceil.
    { rewrite Hm. pose proof (Nat.div_mod_eq (8 * m + 7) 8).
      assert (8 <> 0) as H8 by lia.
      pose proof (Nat.mod_upper_bound (8 * m + 7) 8 H8). lia. }
    lia. }
  rewrite <- !app_assoc. rewrite E1. apply write_data_ok. exact Hdata.
Qed.

End SuccessOfBuild.

Section SuccessOfRun.

Lemma assemble_ok (p : parser) :
  Forall well_formed_instruction (code_section p) ->
  Forall (resolved_instruction p) (code_section p) ->
  (75 * Z.of_nat (List.length (code_section p)) < 2 ^ 32)%Z ->
  exists a,
    Assembler.assemble p = Ok a
    /\ Forall is_bit (Assembler.bytecode a)
    /\ (List.length (Assembler.bytecode a) <= 75 * List.length (code_section p))%nat.
Proof.
  intros Hwf Hres Hsmall.
  destruct (assemble_section_ok p (code_section p) Hwf Hres Assembler.initial)
    as (a1 & E1 & (Hb & Hp & Ho) & Hlen).
  - split; [constructor | split; [intros q j [] | constructor]].
  - change (List.length (Assembler.bytecode Assembler.initial)) with 0%nat. lia.
  - destruct (first_pass_sound p a1 E1) as (Hol & Hpi & _ & _).
    destruct (patch_all_ok (Assembler.offsets_list a1) Ho
                           (Assembler.offset_patches a1) (Assembler.bytecode a1))
      as (bc & E & Hl & Hbits).
    + intros q j Hin. split; [rewrite Hol; eapply Hp; eauto | eapply Hpi; eauto].
    + exact Hb.
    + exists {| Assembler.bytecode := bc;
                Assembler.offsets_list := Assembler.offsets_list a1;
                Assembler.offset_patches := Assembler.offset_patches a1 |}.
      unfold Assembler.assemble. rewrite E1. simpl.
      unfold Assembler.apply_patches. rewrite E. simpl.
      split; [reflexivity|]. split; [exact Hbits|]. simpl in Hlen. lia.
Qed.

End SuccessOfRun.

(** Sufficient conditions for a run to end well.  If [analyse] returns
    without an exception, a [.dataSize] below 2^32 was declared, no data
    byte is negative and there are fewer than 2^32 of them, every constant
    text reads as a number from 0 to 2^64 - 1, every label operand names a
    label that stands before some instruction, and the program has fewer
    than 2^32 / 75 instructions, then [build] raises nothing: the output
    file is written and the run ends with status 0, [All ok] being the
    last line printed. *)
Theorem resolved_program_assembles (input : string) (p : parser) (declared : Z) :
  Parser.analyse (Lexer.analyse (readlines input)) = (p, None) ->
  data_size p = Some declared ->
  declared < 2 ^ 32 ->
  Z.of_nat (List.length (data_section p)) < 2 ^ 32 ->
  Forall (fun b => 0 <= b) (data_section p) ->
  Forall (resolved_instruction p) (code_section p) ->
  75 * Z.of_nat (List.length (code_section p)) < 2 ^ 32 ->
  exit (main input) = Exit 0
  /\ last (stdout (main input)) "" = "All ok"
  /\ exists bytes, output (main input) = Some bytes.
Proof.
  intros Hparse Hsize Hdecl Hdata Hnonneg Hres Hsmall.
  destruct (analyse_loop_invariant _ Parser.init p None init_invariant Hparse)
    as (Hwf & H255 & _ & _).
  destruct (assemble_ok p Hwf Hres Hsmall) as (a & Ea & Hbits & Hlen).
  destruct (pad_spec (Assembler.bytecode a)) as (Hpad & Hpl & _ & _).
  set (size := if Z.of_nat (List.length (data_section p)) >? declared
               then Z.of_nat (List.length (data_section p)) else declared).
  destruct (write_file_ok (Assembler.pad (Assembler.bytecode a)) size (data_section p)
                          ((List.length (Assembler.bytecode a) + 7) / 8))
    as (bytes & Ew).
  - rewrite Hpad. apply Forall_app. split; [exact Hbits|].
    apply Forall_forall. intros c Hc. apply repeat_spec in Hc. now left.
  - exact Hpl.
  - assert (8 <> 0)%nat as H8 by lia.
    pose proof (Nat.div_mod_eq (List.length (Assembler.bytecode a) + 7) 8).
    pose proof (Nat.mod_upper_bound (List.length (Assembler.bytecode a) + 7) 8 H8).
    lia.
  - unfold size. destruct (Z.gtb_spec (Z.of_nat (List.length (data_section p))) declared);
      lia.
  - exact Hdata.
  - rewrite Forall_forall in *. intros b Hb.
    specialize (Hnonneg b Hb). specialize (H255 b Hb). simpl in *. lia.
  - unfold main. rewrite Hparse. unfold Assembler.build. rewrite Ea, Hsize.
    fold size. rewrite Ew. cbn [Assembler.raised Assembler.printed Assembler.file
                                exit stdout output].
    split; [reflexivity|]. split; [|eauto].
    apply last_last.
Qed.

Lemma resolved_program_witness :
  exit (main copy_source) = Exit 0
  /\ last (stdout (main copy_source)) "" = "All ok"
  /\ exists bytes, output (main copy_source) = Some bytes.
Proof.
  apply (resolved_program_assembles copy_source copy_parser 4).
  - vm_compute. reflexivity.
  - reflexivity.
  - lia.
  - vm_compute. reflexivity.
  - repeat constructor; vm_compute; discriminate.
  - repeat (apply Forall_cons || apply Forall_nil);
      intros opcode H; vm_compute in H; injection H as <-;
      repeat (apply Forall2_cons || apply Forall2_nil); try exact I.
    + split; [intros _ | intros E; discriminate E].
      exists 16. split; [reflexivity | lia].
    + split; [intros E; discriminate E | intros _].
      exists 4%nat. split; [reflexivity | simpl; lia].
    + split; [intros E; discriminate E | intros _].
      exists 1%nat. split; [reflexivity | simpl; lia].
  - vm_compute. reflexivity.
Defined.

(** ** The declared data size *)

Section DataSize.

Lemma parse_data_data_size (tokens : list string) :
  forall p p' e,
    Parser.parse_data p tokens = (p', e) ->
    data_size p' = data_size p.
Proof.
  induction tokens as [|entry rest IH]; intros p p' e H; simpl in H.
  - now injection H as <- <-.
  - destruct (Py.int 16 entry) as [value|]; [|now injection H as <- <-].
    destruct (value >? 255); [now injection H as <- <-|].
    now rewrite (IH _ _ _ H).
Qed.

(** A line that is accepted either leaves [data_size] alone or is the
    directive that sets it for the first time. *)
Lemma parse_line_data_size (p p' : parser) (tokens : list string) :
  Parser.parse_line p tokens = (p', None) ->
  (match tokens with
   | t0 :: _ => String.eqb t0 ".dataSize"
   | [] => false
   end = false
   /\ data_size p' = data_size p)
  \/ (exists t1 rest n,
         tokens = ".dataSize"%string :: t1 :: rest
         /\ data_size p = None
         /\ Py.int 10 t1 = Some n
         /\ data_size p' = Some n).
Proof.
  unfold Parser.parse_line. intros H.
  destruct tokens as [|t0 rest]; [discriminate|].
  destruct (Py.startswith "." t0) eqn:Hdot.
  { unfold Parser.parse_section in H.
    destruct (String.eqb_spec t0 ".dataSize") as [-> | Hne].
    { right. destruct (data_size p) eqn:Hs; [discriminate|].
      destruct rest as [|t1 rest']; [discriminate|].
      destruct (Py.int 10 t1) as [n|] eqn:Hn; [|discriminate].
      injection H as <-. exists t1, rest', n. auto. }
    left. split; [reflexivity|].
    destruct (String.eqb t0 ".code"); [now injection H as <-|].
    destruct (String.eqb t0 ".data"); [now injection H as <-|].
    discriminate. }
  left. split.
  { destruct (String.eqb_spec t0 ".dataSize") as [-> | Hne]; [|reflexivity].
    vm_compute in Hdot. discriminate. }
  destruct ((List.length (t0 :: rest) =? 1)%nat && Py.endswith ":" t0).
  { unfold Parser.parse_label in H.
    destruct (parse_mode p) as [[|]|].
    - destruct (Py.dict_mem String.eqb (data_labels p) (Py.drop_last t0));
        [discriminate | now injection H as <-].
    - destruct (Py.dict_mem String.eqb (code_labels p) (Py.drop_last t0));
        [discriminate | now injection H as <-].
    - discriminate. }
  destruct (parse_mode p) as [[|]|].
  - eapply parse_data_data_size; eauto.
  - unfold Parser.parse_code in H.
    destruct (Py.dict_get String.eqb Assembler.Opcodes t0) as [opcode|];
      [|discriminate].
    destruct (negb _); [discriminate|].
    destruct (Parser.parse_arguments _ _); [now injection H as <- | discriminate].
  - discriminate.
Qed.

Lemma analyse_loop_data_size (items : list Lexer.item) :
  forall p0 p,
    Parser.analyse_loop p0 items = (p, None) ->
    match data_size p0 with
    | Some n0 =>
        data_size p = Some n0
        /\ Forall (fun it => declares_size it = false) items
    | None =>
        match data_size p with
        | None => Forall (fun it => declares_size it = false) items
        | Some n =>
            exists pre n0 line t1 rest post,
              items = pre ++ (n0, line, ".dataSize"%string :: t1 :: rest) :: post
              /\ Py.int 10 t1 = Some n
              /\ Forall (fun it => declares_size it = false) (pre ++ post)
        end
    end.
Proof.
  induction items as [|[[n line] tokens] items IH]; intros p0 p H.
  - injection H as <-. destruct (data_size p0); auto.
  - cbn [Parser.analyse_loop] in H.
    destruct (Parser.parse_line (Parser.set_last_parsed p0 n line) tokens)
      as [p1 [e1|]] eqn:H1; [discriminate|].
    specialize (IH p1 p H).
    destruct (parse_line_data_size _ _ _ H1)
      as [(Hno & Hsame)|(t1 & rest & v & -> & Hnone & Hv & Hset)].
    + change (data_size (Parser.set_last_parsed p0 n line)) with (data_size p0) in Hsame.
      rewrite Hsame in IH.
      destruct (data_size p0) as [n0|].
      * destruct IH as (Hp & Hall). split; [exact Hp|]. now constructor.
      * destruct (data_size p) as [m|]; [|now constructor].
        destruct IH as (pre & m0 & l0 & t1 & rest & post & -> & Hm & Hall).
        exists ((n, line, tokens) :: pre), m0, l0, t1, rest, post.
        split; [reflexivity|]. split; [exact Hm|].
        simpl. now constructor.
    + change (data_size (Parser.set_last_parsed p0 n line)) with (data_size p0) in Hnone.
      rewrite Hnone. rewrite Hset in IH. destruct IH as (-> & Hall).
      exists [], n, line, t1, rest, items. auto.
Qed.

End DataSize.

(** When [analyse] returns, [data_size] is [None] exactly when no line
    begins with the token [.dataSize]; otherwise exactly one line does, and
    [data_size] is its second token read as a decimal integer, whatever
    follows that token on the line. *)
Theorem data_size_is_declared_once (items : list Lexer.item) (p : parser) :
  Parser.analyse items = (p, None) ->
  match data_size p with
  | None => Forall (fun it => declares_size it = false) items
  | Some n =>
      exists pre n0 line t1 rest post,
        items = (pre ++ (n0, line, ".dataSize"%string :: t1 :: rest) :: post)%list
        /\ Py.int 10 t1 = Some n
        /\ Forall (fun it => declares_size it = false) (pre ++ post)%list
  end.
Proof.
  intros H. apply (analyse_loop_data_size items Parser.init p H).
Qed.

Lemma data_size_witness :
  exists pre n0 line t1 rest post,
    Lexer.analyse (readlines copy_source)
    = (pre ++ (n0, line, ".dataSize"%string :: t1 :: rest) :: post)%list
    /\ Py.int 10 t1 = Some 4
    /\ Forall (fun it => declares_size it = false) (pre ++ post)%list.
Proof.
  apply (data_size_is_declared_once (Lexer.analyse (readlines copy_source)) copy_parser).
  vm_compute. reflexivity.
Defined.

(** ** Reading the opcode back *)

(** No opcode code is the beginning of another one: when two bit strings,
    each starting with the code of a mnemonic of the table, are equal, the
    mnemonics are the same and so is what follows the code. *)
Theorem opcode_codes_are_prefix_free
        (n1 n2 : string) (o1 o2 : Assembler.Opcode) (rest1 rest2 : string) :
  Py.dict_get String.eqb Assembler.Opcodes n1 = Some o1 ->
  Py.dict_get String.eqb Assembler.Opcodes n2 = Some o2 ->
  (Assembler.code o1 ++ rest1 = Assembler.code o2 ++ rest2)%string ->
  n1 = n2 /\ rest1 = rest2.
Proof.
  intros H1 H2 H. apply dict_get_pair in H1. apply dict_get_pair in H2.
  unfold Assembler.Opcodes in H1, H2. simpl in H1, H2.
  repeat (destruct H1 as [H1|H1]); try contradiction; injection H1 as <- <-;
    repeat (destruct H2 as [H2|H2]); try contradiction; injection H2 as <- <-;
    simpl in H; split; congruence.
Qed.

Lemma opcode_codes_witness :
  "jump"%string = "jump"%string /\ "1010"%string = "1010"%string.
Proof.
  apply (opcode_codes_are_prefix_free
           "jump" "jump" {| Assembler.code := "01101"; Assembler.args := "L" |}
           {| Assembler.code := "01101"; Assembler.args := "L" |} "1010" "1010");
    reflexivity.
Defined.

(** ** What [build] reads of the parser *)

Section Frame.

Variables p q : parser.
Hypothesis Hlabels : code_labels p = code_labels q.

Lemma assemble_arguments_frame (kinds : list ascii) :
  forall data a,
    Assembler.assemble_arguments p a kinds data
    = Assembler.assemble_arguments q a kinds data.
Proof.
  induction kinds as [|k kinds IH]; intros data a; [reflexivity|].
  destruct data as [|d data]; [reflexivity|].
  cbn [Assembler.assemble_arguments].
  replace (Assembler.assemble_label p a d) with (Assembler.assemble_label q a d)
    by (unfold Assembler.assemble_label; now rewrite Hlabels).
  destruct (if Ascii.eqb k "R" then Assembler.assemble_register a d
            else if Ascii.eqb k "C" then Assembler.assemble_constant a d
            else if Ascii.eqb k "L" then Assembler.assemble_label q a d
            else Ok a) as [a'|e]; [apply IH | reflexivity].
Qed.

Lemma assemble_section_frame (l : list instruction) :
  forall a, Assembler.assemble_section p a l = Assembler.assemble_section q a l.
Proof.
  induction l as [|ins l IH]; intros a; [reflexivity|].
  cbn [Assembler.assemble_section]. unfold Assembler.assemble_instruction.
  destruct (Py.dict_get String.eqb Assembler.Opcodes (opcode_name ins)) as [opcode|];
    [|reflexivity].
  rewrite assemble_arguments_frame.
  destruct (Assembler.assemble_arguments q _ _ _) as [a'|e]; [apply IH | reflexivity].
Qed.

End Frame.

(** [build] reads four attributes of the parser and nothing else: two
    parsers with the same declared size, data bytes, code labels and
    instructions give the same exception, printed lines and output file,
    whatever their data labels, parse mode and last parsed line are.  Data
    labels in particular are recorded by the parser and never looked up. *)
Theorem build_ignores_data_labels (p q : parser) :
  data_size p = data_size q ->
  data_section p = data_section q ->
  code_labels p = code_labels q ->
  code_section p = code_section q ->
  snd (Assembler.build p) = snd (Assembler.build q).
Proof.
  intros Hsize Hdata Hlabels Hcode. unfold Assembler.build, Assembler.assemble.
  rewrite (assemble_section_frame p q Hlabels), Hcode, Hsize, Hdata.
  destruct (bind _ _) as [a|e]; [|reflexivity].
  destruct (data_size q) as [declared|]; [|reflexivity].
  destruct (Assembler.write_file _ _ _) as [bytes e]. reflexivity.
Qed.

Lemma build_ignores_data_labels_witness :
  snd (Assembler.build copy_parser)
  = snd (Assembler.build (Parser.set_data_labels copy_parser [])).
Proof.
  apply (build_ignores_data_labels copy_parser (Parser.set_data_labels copy_parser []));
    reflexivity.
Defined.
